(** * ubgpsuite: network prefixes, Patricia trie, AS path iteration and
      filter virtual machine, embedded from the C sources.

    The C code is modelled for an LP64 little-endian host (the layout the
    library is developed on): [uint] is 32 bits wide, [size_t] and pointers
    are 64 bits wide, [ushort] is 16 bits wide.  Integers are [Z] with the
    wrap-around of the C type written out where the code can reach it. *)

From Stdlib Require Import ZArith Lia Bool List Ascii String.
From stdpp Require Import base option list gmap.

Local Open Scope Z_scope.

(** ** C integer types *)

Definition wrap (w : Z) (x : Z) : Z := x mod 2 ^ w.
Definition uint8 (x : Z) : Z := wrap 8 x.
Definition uint16 (x : Z) : Z := wrap 16 x.
Definition uint32 (x : Z) : Z := wrap 32 x.
Definition uint64 (x : Z) : Z := wrap 64 x.

(** Conversion to a signed 16-bit integer ([int16_t]), two's complement. *)
Definition int16 (x : Z) : Z :=
  let r := x mod 65536 in if 32768 <=? r then r - 65536 else r.

(** Conversion to [int]. *)
Definition int32 (x : Z) : Z :=
  let r := x mod 4294967296 in if 2147483648 <=? r then r - 4294967296 else r.

(** ** netaddr.h *)

Module NetAddr.

Definition AF_UNSPEC : Z := 0.
Definition AF_INET : Z := 2.
Definition AF_INET6 : Z := 10.

  (** [netaddr_t]: [family], [bitlen] and the 16 payload bytes of the
      anonymous union ([bytes], also viewed as [u16] and [u32]). *)
Record netaddr_t : Type := mk_netaddr {
    family : Z;
    bitlen : Z;
    bytes : list Z
  }.

Definition byte_at (a : netaddr_t) (i : Z) : Z := nth (Z.to_nat i) (bytes a) 0.

  (** The [u16] and [u32] views of the payload, in host (little-endian)
      byte order. *)
Definition u16_at (a : netaddr_t) (k : Z) : Z :=
    byte_at a (2 * k) + 256 * byte_at a (2 * k + 1).

Definition u32_at (a : netaddr_t) (k : Z) : Z :=
    byte_at a (4 * k) + 256 * byte_at a (4 * k + 1)
    + 65536 * byte_at a (4 * k + 2) + 16777216 * byte_at a (4 * k + 3).

Definition naddrsize (bitlen : Z) : Z :=
    Z.shiftr bitlen 3 + (if Z.land bitlen 7 =? 0 then 0 else 1).

  Section prefixeqwithmask.
    Variables addr dest : netaddr_t.

Let b (i : Z) : bool := byte_at addr i =? byte_at dest i.
Let h (k : Z) : bool := u16_at addr k =? u16_at dest k.
Let w (k : Z) : bool := u32_at addr k =? u32_at dest k.

    (** [prefixeqwithmask]: the [switch (mask)] of the source, one branch
        per [case] group; a group of seven partial-byte labels tests the
        masked byte and falls through to the label of the whole bytes below
        it.  [None] stands for a mask above 128, which the source excludes
        by [assert] and [NODEFAULT]. *)
Definition prefixeqwithmask (mask : Z) : option bool :=
      let m := uint32 (Z.shiftl (2 ^ 32 - 1) (8 - Z.land mask 7)) in
      let differ (i : Z) : bool :=
        negb (Z.land (byte_at addr i) m =? Z.land (byte_at dest i) m) in
      let case120 := w 0 && w 1 && w 2 && h 6 && b 14 in
      let case112 := w 0 && w 1 && w 2 && h 6 in
      let case104 := w 0 && w 1 && w 2 && b 12 in
      let case96 := w 0 && w 1 && w 2 in
      let case88 := w 0 && w 1 && h 4 && b 10 in
      let case80 := w 0 && w 1 && h 4 in
      let case72 := w 0 && w 1 && b 8 in
      let case64 := w 0 && w 1 in
      let case56 := w 0 && h 2 && (byte_at addr 6 =? byte_at addr 6) in
      let case48 := w 0 && h 2 in
      let case40 := w 0 && b 4 in
      let case32 := w 0 in
      let case24 := h 0 && b 2 in
      let case16 := h 0 in
      let case8 := b 0 in
      if (mask <? 0) || (128 <? mask) then None
      else Some (
        if mask =? 128 then w 0 && w 1 && w 2 && w 3
        else if 121 <=? mask then (if differ 15 then false else case120)
        else if mask =? 120 then case120
        else if 113 <=? mask then (if differ 14 then false else case112)
        else if mask =? 112 then case112
        else if 105 <=? mask then (if differ 13 then false else case104)
        else if mask =? 104 then case104
        else if 97 <=? mask then (if differ 12 then false else case96)
        else if mask =? 96 then case96
        else if 89 <=? mask then (if differ 11 then false else case88)
        else if mask =? 88 then case88
        else if 81 <=? mask then (if differ 10 then false else case80)
        else if mask =? 80 then case80
        else if 73 <=? mask then (if differ 9 then false else case72)
        else if mask =? 72 then case72
        else if 65 <=? mask then (if differ 8 then false else case64)
        else if mask =? 64 then case64
        else if 57 <=? mask then (if differ 7 then false else case56)
        else if mask =? 56 then case56
        else if 49 <=? mask then (if differ 6 then false else case48)
        else if mask =? 48 then case48
        else if 41 <=? mask then (if differ 5 then false else case40)
        else if mask =? 40 then case40
        else if 33 <=? mask then (if differ 4 then false else case32)
        else if mask =? 32 then case32
        else if 25 <=? mask then (if differ 3 then false else case24)
        else if mask =? 24 then case24
        else if 17 <=? mask then (if differ 2 then false else case16)
        else if mask =? 16 then case16
        else if 9 <=? mask then (if differ 1 then false else case8)
        else if mask =? 8 then case8
        else if 1 <=? mask then
          Z.land (byte_at addr 0) m =? Z.land (byte_at dest 0) m
        else true).
  End prefixeqwithmask.

Definition prefixeq (a b : netaddr_t) : option bool :=
    if (family a =? family b) && (bitlen a =? bitlen b)
    then prefixeqwithmask a b (bitlen a)
    else Some false.

  (** Bit [i] of the payload, bit 0 being the most significant bit of
      byte 0 (network order). *)
Definition addr_bit (a : netaddr_t) (i : Z) : bool :=
    Z.testbit (byte_at a (i / 8)) (7 - i mod 8).

  (** The first [n] bits of two payloads agree. *)
Definition first_bits_eq (a b : netaddr_t) (n : Z) : Prop :=
    forall i, 0 <= i < n -> addr_bit a i = addr_bit b i.

  (** A payload as the C type has it: 16 bytes, each in [0, 255]. *)
Definition wf_bytes (a : netaddr_t) : Prop :=
    length (bytes a) = 16%nat /\ Forall (fun x => 0 <= x < 256) (bytes a).

End NetAddr.

(** ** endian.h *)

Definition byteswap16 (w : Z) : Z :=
  Z.lor (Z.shiftr (Z.land w 65280) 8) (Z.shiftl (Z.land w 255) 8).

Definition byteswap32 (w : Z) : Z :=
  Z.lor (Z.lor (Z.shiftr (Z.land w 4278190080) 24) (Z.shiftr (Z.land w 16711680) 8))
        (Z.lor (Z.shiftl (Z.land w 65280) 8) (Z.shiftl (Z.land w 255) 24)).

(** [ENDIAN_NATIVE != ENDIAN_BIG] on the modelled host. *)
Definition beswap16 (w : Z) : Z := byteswap16 w.
Definition beswap32 (w : Z) : Z := byteswap32 w.

(** [memcpy] of 2 or 4 bytes into a host word. *)
Definition load16 (b0 b1 : Z) : Z := b0 + 256 * b1.
Definition load32 (b0 b1 b2 b3 : Z) : Z :=
  b0 + 256 * b1 + 65536 * b2 + 16777216 * b3.

(** ** bgp.c: AS path iteration *)

Module Bgp.

Definition AS_TRANS : Z := 23456.

Definition AS_SEGMENT_SET : Z := 1.
Definition AS_SEGMENT_SEQ : Z := 2.

Definition BGP_UPDATE : Z := 2.

Definition BGP_ENOERR : Z := 0.
Definition BGP_EINVOP : Z := 2.
Definition BGP_EBADATTR : Z := 8.

Definition AGGREGATOR_AS32_LENGTH : Z := 8.

Definition F_RD : Z := 2.
Definition F_PM : Z := 8.
Definition F_WITHDRN : Z := 16.
Definition F_PATTR : Z := 64.
Definition F_NLRI : Z := 128.
Definition F_ASPATH : Z := 512.
Definition F_REALASPATH : Z := 1024.
Definition F_NHOP : Z := 2048.
Definition F_COMMUNITY : Z := 4096.
Definition F_ASN32BIT : Z := 16384.

  (** [as_pathent_t] *)
Record as_pathent_t : Type := mk_pathent {
    as_size : Z;
    type : Z;
    segno : Z;
    as_ : Z
  }.

  (** The fields of [ubgp_msg_s] the AS path iterator works on.  A pointer
      pair [asptr]/[asend] into the message buffer is the list of the bytes
      between them (likewise [as4ptr]/[as4end]).  The four [attr_*] fields
      are what [seekbgpattr] yields for the attribute code: [None] when the
      UPDATE has no such attribute, else the bytes of its value. *)
Record ubgp_msg_s : Type := mk_msg {
    flags : Z;
    err : Z;
    msgtype : Z;
    attr_as_path : option (list Z);
    attr_as4_path : option (list Z);
    attr_aggregator : option (list Z);
    attr_as4_aggregator : option (list Z);
    asptr : list Z;
    as4ptr : list Z;
    seglen : Z;
    segi : Z;
    ascount : Z;
    asp : as_pathent_t
  }.

Definition set_flags (f : Z) (m : ubgp_msg_s) : ubgp_msg_s :=
    mk_msg f (err m) (msgtype m) (attr_as_path m) (attr_as4_path m)
           (attr_aggregator m) (attr_as4_aggregator m)
           (asptr m) (as4ptr m) (seglen m) (segi m) (ascount m) (asp m).

Definition set_err (e : Z) (m : ubgp_msg_s) : ubgp_msg_s :=
    mk_msg (flags m) e (msgtype m) (attr_as_path m) (attr_as4_path m)
           (attr_aggregator m) (attr_as4_aggregator m)
           (asptr m) (as4ptr m) (seglen m) (segi m) (ascount m) (asp m).

  (** Assignment of the iterator fields, the rest of the message kept. *)
Definition set_iter (p p4 : list Z) (sl si ac : Z) (e : as_pathent_t)
      (m : ubgp_msg_s) : ubgp_msg_s :=
    mk_msg (flags m) (err m) (msgtype m) (attr_as_path m) (attr_as4_path m)
           (attr_aggregator m) (attr_as4_aggregator m) p p4 sl si ac e.

Definition has_flags (m : ubgp_msg_s) (f : Z) : bool :=
    Z.land (flags m) f =? f.

  (** [CHECKTYPEANDFLAGS] and [CHECKFLAGS]: the message with [err] updated,
      and whether the caller goes on. *)
Definition checktypeandflags (exp_type exp_flags : Z) (m : ubgp_msg_s)
      : ubgp_msg_s * bool :=
    let m1 := if negb (msgtype m =? exp_type)
              then set_err (if negb (err m =? BGP_ENOERR) then err m else BGP_EINVOP) m
              else m in
    let m2 := if negb (has_flags m1 exp_flags)
              then set_err (if negb (err m1 =? BGP_ENOERR) then err m1 else BGP_EINVOP) m1
              else m1 in
    (m2, err m2 =? 0).

Definition checkflags (exp_flags : Z) (m : ubgp_msg_s) : ubgp_msg_s * bool :=
    let m2 := if negb (has_flags m exp_flags)
              then set_err (if negb (err m =? BGP_ENOERR) then err m else BGP_EINVOP) m
              else m in
    (m2, err m2 =? 0).

Definition endaspath (m : ubgp_msg_s) : ubgp_msg_s * Z :=
    let '(m1, ok) := checkflags F_ASPATH m in
    if ok
    then (set_flags (Z.land (flags m1) (Z.lnot (Z.lor F_ASPATH F_REALASPATH))) m1,
          BGP_ENOERR)
    else (m1, err m1).

  Section iterators.
    (** The terminators of the other iterator kinds ([endbgpcaps],
        [endwithdrawn], [endbgpattribs], [endnlri], [endcommunities],
        [endnhop]), which [endpending] dispatches to; they are outside this
        development. *)
    Variable end_other : ubgp_msg_s -> ubgp_msg_s.

Definition endpending (m : ubgp_msg_s) : ubgp_msg_s :=
      let mask := Z.lor F_PM (Z.lor F_WITHDRN (Z.lor F_PATTR (Z.lor F_NLRI
                  (Z.lor F_ASPATH (Z.lor F_NHOP F_COMMUNITY))))) in
      if Z.land (flags m) mask =? 0 then m
      else if negb (Z.land (flags m) F_PM =? 0) then end_other m
      else if negb (Z.land (flags m) F_WITHDRN =? 0) then end_other m
      else if negb (Z.land (flags m) F_PATTR =? 0) then end_other m
      else if negb (Z.land (flags m) F_NLRI =? 0) then end_other m
      else if negb (Z.land (flags m) F_ASPATH =? 0) then fst (endaspath m)
      else end_other m.

    (** [getaggregatoras] on the value bytes of an AGGREGATOR attribute. *)
Definition getaggregatoras (v : list Z) : Z :=
      if Z.of_nat (length v) =? AGGREGATOR_AS32_LENGTH
      then beswap32 (load32 (nth 0 v 0) (nth 1 v 0) (nth 2 v 0) (nth 3 v 0))
      else beswap16 (load16 (nth 0 v 0) (nth 1 v 0)).

    (** The counting loops of [startrealaspath]:
        [while (ptr < end) { type = *ptr++; count = *ptr++;
                             ptr += count * as_size; ... }].
        The result is the count and whether the loop ended with
        [ptr > end]; [None] when the [count] byte itself lies past [end]
        (the source reads it all the same). *)
Fixpoint count_ases (fuel : nat) (as_size : Z) (p : list Z) (acc : Z)
        : option (Z * bool) :=
      match fuel with
      | O => None
      | S fuel' =>
          match p with
          | [] => Some (acc, false)
          | [_] => None
          | ty :: count :: rest =>
              let skip := Z.to_nat (count * as_size) in
              let count' := if ty =? AS_SEGMENT_SET then 1 else count in
              if (length rest <? skip)%nat then Some (acc + count', true)
              else count_ases fuel' as_size (drop skip rest) (acc + count')
          end
      end.

Definition count_path (as_size : Z) (p : list Z) : option (Z * bool) :=
      count_ases (S (length p)) as_size p 0.

    (** Outcome of [startrealaspath]: the message and the returned
        [ubgp_err]; [None] for the out-of-bounds read above. *)
Definition startrealaspath (m : ubgp_msg_s) : option (ubgp_msg_s * Z) :=
      let '(m0, ok) := checktypeandflags BGP_UPDATE F_RD m in
      if negb ok then Some (m0, err m0) else
      let m1 := endpending m0 in
      let m2 := set_flags (Z.lor (flags m1) F_ASPATH) m1 in
      let size := if negb (Z.land (flags m2) F_ASN32BIT =? 0) then 4 else 2 in
      let ent := mk_pathent size (type (asp m2)) (-1) (as_ (asp m2)) in
      match attr_as_path m2 with
      | None => Some (set_iter [] (as4ptr m2) 0 0 (-1) ent m2, BGP_ENOERR)
      | Some path =>
          let m3 := set_iter path (as4ptr m2) 0 0 (-1) ent m2 in
          if size =? 4 then Some (m3, BGP_ENOERR) else
          let veto :=
            match attr_aggregator m3, attr_as4_aggregator m3 with
            | Some aggr, Some _ => negb (getaggregatoras aggr =? AS_TRANS)
            | _, _ => false
            end in
          if veto then Some (m3, BGP_ENOERR) else
          match attr_as4_path m3 with
          | None => Some (m3, BGP_ENOERR)
          | Some path4 =>
              match count_path 2 path with
              | None => None
              | Some (_, true) => Some (set_err BGP_EBADATTR m3, BGP_EBADATTR)
              | Some (ascount, false) =>
                  match count_path 4 path4 with
                  | None => None
                  | Some (_, true) => Some (set_err BGP_EBADATTR m3, BGP_EBADATTR)
                  | Some (as4count, false) =>
                      if ascount <? as4count then Some (m3, BGP_ENOERR)
                      else
                        let m4 := set_iter (asptr m3) path4 (seglen m3) (segi m3)
                                    (int16 (ascount - as4count)) (asp m3) m3 in
                        Some (set_flags (Z.lor (flags m4) F_REALASPATH) m4,
                              BGP_ENOERR)
                  end
              end
          end
      end.

    (** The [while (msg->segi == msg->seglen)] loop of [nextaspath], which
        reads segment headers.  [inl] is an early [return NULL]. *)
Fixpoint next_segment (fuel : nat) (m : ubgp_msg_s)
        : option (ubgp_msg_s + ubgp_msg_s) :=
      match fuel with
      | O => None
      | S fuel' =>
          if segi m =? seglen m then
            match asptr m with
            | [] => Some (inl m)
            | [_] => Some (inl (set_err BGP_EBADATTR m))
            | ty :: len :: rest =>
                let e := asp m in
                next_segment fuel'
                  (set_iter rest (as4ptr m) len 0 (ascount m)
                     (mk_pathent (as_size e) ty (segno e + 1) (as_ e)) m)
            end
          else Some (inr m)
      end.

    (** [nextaspath]: the entry returned ([None] for [NULL]) and the
        message; the outer [None] is a read past [asend] or lack of fuel.
        The recursive call of the source is the recursive call here. *)
Fixpoint nextaspath (fuel : nat) (m : ubgp_msg_s)
        : option (option as_pathent_t * ubgp_msg_s) :=
      match fuel with
      | O => None
      | S fuel' =>
          let '(m0, ok) := checkflags F_ASPATH m in
          if negb ok then Some (None, m0) else
          match next_segment (S (length (asptr m0))) m0 with
          | None => None
          | Some (inl m1) => Some (None, m1)
          | Some (inr m1) =>
              let e := asp m1 in
              let read :=
                if as_size e =? 2 then
                  match asptr m1 with
                  | b0 :: b1 :: rest => Some (beswap16 (load16 b0 b1), rest)
                  | _ => None
                  end
                else
                  match asptr m1 with
                  | b0 :: b1 :: b2 :: b3 :: rest =>
                      Some (beswap32 (load32 b0 b1 b2 b3), rest)
                  | _ => None
                  end in
              match read with
              | None => None
              | Some (a, rest) =>
                  let e' := mk_pathent (as_size e) (type e) (segno e) a in
                  let si := uint8 (segi m1 + 1) in
                  if negb (ascount m1 =? 0) then
                    let dec := if negb (type e' =? AS_SEGMENT_SET) || (si =? 1)
                               then 1 else 0 in
                    Some (Some e',
                          set_iter rest (as4ptr m1) (seglen m1) si
                            (int16 (ascount m1 - dec)) e' m1)
                  else
                    let e4 := mk_pathent 4 (type e') (segno e') (as_ e') in
                    let m2 := set_iter (as4ptr m1) (as4ptr m1) 0 0 (-1) e4 m1 in
                    nextaspath fuel'
                      (set_flags (Z.land (flags m2) (Z.lnot F_REALASPATH)) m2)
              end
          end
      end.

    (** The caller's loop [while ((ent = nextaspath(msg)) != NULL)],
        collecting [ent->as]. *)
Fixpoint collect_aspath (fuel : nat) (m : ubgp_msg_s)
        : option (list Z * ubgp_msg_s) :=
      match fuel with
      | O => None
      | S fuel' =>
          match nextaspath 3 m with
          | None => None
          | Some (None, m') => Some ([], m')
          | Some (Some e, m') =>
              match collect_aspath fuel' m' with
              | None => None
              | Some (l, m'') => Some (as_ e :: l, m'')
              end
          end
      end.

  End iterators.

End Bgp.

(** ** bgp.c: the plain AS path iterators *)

Module BgpStart.
Import Bgp.

Section starters.
Variable end_other : ubgp_msg_s -> ubgp_msg_s.

(** [dostartaspath]: [attr] is what the caller's [getbgpaspath] or
    [getbgpas4path] found. *)
Definition dostartaspath (m : ubgp_msg_s) (attr : option (list Z)) (as_size : Z)
    : ubgp_msg_s * Z :=
  let m1 := endpending end_other m in
  let ent := mk_pathent as_size (type (asp m1)) (-1) (as_ (asp m1)) in
  let p := match attr with Some p => p | None => [] end in
  let m2 := set_iter p (as4ptr m1) 0 0 (-1) ent m1 in
  (set_flags (Z.lor (flags m2) F_ASPATH) m2, BGP_ENOERR).

Definition startaspath (m : ubgp_msg_s) : ubgp_msg_s * Z :=
  let '(m0, ok) := checktypeandflags BGP_UPDATE F_RD m in
  if negb ok then (m0, err m0) else
  let as_size := if negb (Z.land (flags m0) F_ASN32BIT =? 0) then 4 else 2 in
  dostartaspath m0 (attr_as_path m0) as_size.

Definition startas4path (m : ubgp_msg_s) : ubgp_msg_s * Z :=
  let '(m0, ok) := checktypeandflags BGP_UPDATE F_RD m in
  if negb ok then (m0, err m0) else
  dostartaspath m0 (attr_as4_path m0) 4.

End starters.
End BgpStart.

(** ** Outcome of code that dereferences pointers and loops *)

(** [Fault] is a read or write outside the modelled memory (a null or wild
    pointer, an index past an array, a shift past the width); [OutOfFuel]
    is a loop that did not finish within the fuel given; [AssertFailed] is
    a failed [assert] in a build that keeps them. *)
Inductive res (A : Type) : Type :=
  | Ok (a : A)
  | Fault
  | OutOfFuel
  | AssertFailed.
Arguments Ok {A} a.
Arguments Fault {A}.
Arguments OutOfFuel {A}.
Arguments AssertFailed {A}.

#[export] Instance res_ret : MRet res := fun A a => Ok a.
#[export] Instance res_bind : MBind res := fun A B f m =>
  match m with
  | Ok a => f a
  | Fault => Fault
  | OutOfFuel => OutOfFuel
  | AssertFailed => AssertFailed
  end.

Definition of_option {A : Type} (o : option A) : res A :=
  match o with Some a => Ok a | None => Fault end.

(** ** patriciatrie.c *)

Module Patricia.
  Import NetAddr.

Definition PATRICIA_GLUE_NODE : Z := 1.

Definition PREFIX_INSERTED : Z := 0.
Definition PREFIX_ALREADY_PRESENT : Z := 1.

  (** The struct view of [union pnode_s].  [parent] is the raw pointer
      word: its least significant bit tells whether the node is glue.
      Pointers are addresses, [0] being [NULL]. *)
Record pnode : Type := mk_pnode {
    prefix : netaddr_t;
    payload : Z;
    parent : Z;
    child0 : Z;
    child1 : Z
  }.

Definition sizeof_pnode : Z := 56.
Definition page_nodes : Z := 128.

  (** The [next] view of [union pnode_s]: a pointer stored over the first
      eight bytes of the node, which are [prefix.family], [prefix.bitlen]
      and [prefix.bytes[0..3]]. *)
Definition get_next (n : pnode) : Z :=
    let p := prefix n in
    (family p) mod 65536 + 65536 * bitlen p
    + 4294967296 * (byte_at p 0 + 256 * byte_at p 1
                    + 65536 * byte_at p 2 + 16777216 * byte_at p 3).

Definition set_next (v : Z) (n : pnode) : pnode :=
    let p := prefix n in
    let hi := v / 4294967296 in
    mk_pnode
      (mk_netaddr (int16 v) ((v / 65536) mod 65536)
         ([hi mod 256; (hi / 256) mod 256; (hi / 65536) mod 256;
           (hi / 16777216) mod 256] ++ drop 4 (bytes p)))
      (payload n) (parent n) (child0 n) (child1 n).

Definition set_prefix (p : netaddr_t) (n : pnode) : pnode :=
    mk_pnode p (payload n) (parent n) (child0 n) (child1 n).
Definition set_parent_word (w : Z) (n : pnode) : pnode :=
    mk_pnode (prefix n) (payload n) w (child0 n) (child1 n).
Definition set_child (bit : bool) (c : Z) (n : pnode) : pnode :=
    if bit then mk_pnode (prefix n) (payload n) (parent n) (child0 n) c
    else mk_pnode (prefix n) (payload n) (parent n) c (child1 n).
Definition child (bit : bool) (n : pnode) : Z :=
    if bit then child1 n else child0 n.

  (** [patricia_trie_t], with the memory of its node pages. *)
Record patricia_trie_t : Type := mk_pat {
    head : Z;
    maxbitlen : Z;
    nprefs : Z;
    pages : list Z;
    freenodes : Z;
    mem : gmap Z pnode
  }.

Definition set_head (h : Z) (pt : patricia_trie_t) : patricia_trie_t :=
    mk_pat h (maxbitlen pt) (nprefs pt) (pages pt) (freenodes pt) (mem pt).
Definition set_nprefs (k : Z) (pt : patricia_trie_t) : patricia_trie_t :=
    mk_pat (head pt) (maxbitlen pt) k (pages pt) (freenodes pt) (mem pt).
Definition set_freenodes (f : Z) (pt : patricia_trie_t) : patricia_trie_t :=
    mk_pat (head pt) (maxbitlen pt) (nprefs pt) (pages pt) f (mem pt).
Definition set_mem (m : gmap Z pnode) (pt : patricia_trie_t) : patricia_trie_t :=
    mk_pat (head pt) (maxbitlen pt) (nprefs pt) (pages pt) (freenodes pt) m.

  (** Read of the node at [p]. *)
Definition node (pt : patricia_trie_t) (p : Z) : res pnode :=
    of_option (mem pt !! p).

  (** Write through the pointer [p]. *)
Definition store (p : Z) (f : pnode -> pnode) (pt : patricia_trie_t)
      : res patricia_trie_t :=
    n ← node pt p; Ok (set_mem (<[p := f n]> (mem pt)) pt).

  (** [bytes[i]] of a prefix, inside the 16 bytes of the array. *)
Definition byte_chk (a : netaddr_t) (i : Z) : res Z :=
    if (0 <=? i) && (i <? 16) then of_option (bytes a !! Z.to_nat i) else Fault.

Definition zero_bytes : list Z := repeat 0 16%nat.

Definition pnodeinit (pfx : option netaddr_t) : pnode :=
    match pfx with
    | Some p => mk_pnode p 0 0 0 0
    | None => mk_pnode (mk_netaddr AF_UNSPEC 0 zero_bytes) 0 0 0 0
    end.

Definition getpnodeparent (n : pnode) : Z :=
    Z.land (parent n) (Z.lnot PATRICIA_GLUE_NODE).

Definition setpnodeparent (p : Z) (n : pnode) : pnode :=
    set_parent_word (Z.lor (Z.land (parent n) PATRICIA_GLUE_NODE) p) n.

Definition ispnodeglue (n : pnode) : bool :=
    negb (Z.land (parent n) PATRICIA_GLUE_NODE =? 0).

Definition setpnodeglue (n : pnode) : pnode :=
    set_parent_word (Z.lor (parent n) PATRICIA_GLUE_NODE) n.

Definition resetpnodeglue (n : pnode) : pnode :=
    set_parent_word (Z.land (parent n) (Z.lnot PATRICIA_GLUE_NODE)) n.

  Section allocator.
    (** [malloc(sizeof(nodepage_t))]: the address of the page, given how
        many pages the trie holds already; [0] when out of memory.  The
        block of a fresh page is taken as zero bytes (the source writes
        every node before it reads it, through [pnodeinit]). *)
    Variable malloc : nat -> Z.

Definition block_addr (page i : Z) : Z := page + 8 + sizeof_pnode * i.

Definition patallocpage (pt : patricia_trie_t) : patricia_trie_t :=
      let p := malloc (length (pages pt)) in
      if p =? 0 then pt else
      let link (pt : patricia_trie_t) (i : Z) :=
        let n := block_addr p i in
        set_freenodes n
          (set_mem (<[n := set_next (freenodes pt) (pnodeinit None)]> (mem pt)) pt) in
      let pt' := fold_left link (seqZ 0 page_nodes) pt in
      mk_pat (head pt') (maxbitlen pt') (nprefs pt') (p :: pages pt')
             (freenodes pt') (mem pt').

    (** The node taken ([0] for [NULL]) and the trie. *)
Definition getfreenode (pt : patricia_trie_t) : res (Z * patricia_trie_t) :=
      let pt1 := if freenodes pt =? 0 then patallocpage pt else pt in
      if freenodes pt1 =? 0 then Ok (0, pt1) else
      n ← node pt1 (freenodes pt1);
      Ok (freenodes pt1, set_freenodes (get_next n) pt1).

Definition putfreenode (n : Z) (pt : patricia_trie_t) : res patricia_trie_t :=
      let save := freenodes pt in
      store n (set_next save) (set_freenodes n pt).

Definition patinit (fam : Z) : patricia_trie_t :=
      mk_pat 0 (if fam =? AF_INET6 then 128 else 32) 0 [] 0 ∅.

Definition patclear (pt : patricia_trie_t) : res patricia_trie_t :=
      let pt0 := set_freenodes 0 (set_nprefs 0 (set_head 0 pt)) in
      foldl (fun acc p =>
               foldl (fun acc i => pt ← acc; putfreenode (block_addr p i) pt)
                     acc (seqZ 0 page_nodes))
            (Ok pt0) (pages pt).

Definition patcompwithmask (addr dest : netaddr_t) (mask : Z) : res bool :=
      let n := mask / 8 in
      if 16 <? n then Fault else
      if forallb (fun i => nth i (bytes addr) 0 =? nth i (bytes dest) 0)
                 (seq 0 (Z.to_nat n))
      then
        let m := uint32 (Z.shiftl (2 ^ 32 - 1) (8 - mask mod 8)) in
        if Z.land mask 7 =? 0 then Ok true
        else
          x ← byte_chk addr n; y ← byte_chk dest n;
          Ok (Z.land x m =? Z.land y m)
      else Ok false.

    (** [pfx->bytes[pos >> 3] & (0x80 >> (pos & 0x07))], as a truth value. *)
Definition key_bit (pfx : netaddr_t) (pos : Z) : res bool :=
      x ← byte_chk pfx (Z.shiftr pos 3);
      Ok (negb (Z.land x (Z.shiftr 128 (Z.land pos 7)) =? 0)).

    (** [(pos < maxbits) && (pfx->bytes[pos >> 3] & ...)] *)
Definition key_bit_lt (maxbits : Z) (pfx : netaddr_t) (pos : Z) : res bool :=
      if pos <? maxbits then key_bit pfx pos else Ok false.

    (** The descent of [patinsert]. *)
Fixpoint insert_walk (fuel : nat) (pt : patricia_trie_t) (pfx : netaddr_t)
        (n : Z) : res Z :=
      match fuel with
      | O => OutOfFuel
      | S fuel' =>
          nd ← node pt n;
          if (bitlen (prefix nd) <? bitlen pfx) || ispnodeglue nd then
            bit ← key_bit_lt (maxbitlen pt) pfx (bitlen (prefix nd));
            if child bit nd =? 0 then Ok n
            else insert_walk fuel' pt pfx (child bit nd)
          else Ok n
      end.

    (** The inner [for (j = 0; j < 8; j++)] of the first differing bit. *)
Fixpoint first_set_bit (fuel : nat) (r j : Z) : Z :=
      match fuel with
      | O => j
      | S fuel' =>
          if negb (Z.land r (Z.shiftr 128 j) =? 0) then j
          else first_set_bit fuel' r (j + 1)
      end.

    (** The [for (i = 0, z = 0; z < check_bit; i++, z += 8)] loop; the
        result is [differ_bit].  Seventeen rounds cover the 16 bytes: a
        seventeenth read is out of the array. *)
Fixpoint differ_loop (fuel : nat) (pfx tst : netaddr_t) (check_bit : Z)
        (i z differ_bit : Z) : res Z :=
      match fuel with
      | O => OutOfFuel
      | S fuel' =>
          if z <? check_bit then
            x ← byte_chk pfx i; y ← byte_chk tst i;
            let r := Z.lxor x y in
            if r =? 0 then differ_loop fuel' pfx tst check_bit (i + 1) (z + 8) (z + 8)
            else Ok (z + first_set_bit 8 r 0)
          else Ok differ_bit
      end.

    (** [while (parent && parent->prefix.bitlen >= differ_bit)] *)
Fixpoint insert_backup (fuel : nat) (pt : patricia_trie_t) (differ_bit : Z)
        (n : Z) : res Z :=
      match fuel with
      | O => OutOfFuel
      | S fuel' =>
          nd ← node pt n;
          let parent := getpnodeparent nd in
          if parent =? 0 then Ok n else
          pd ← node pt parent;
          if differ_bit <=? bitlen (prefix pd)
          then insert_backup fuel' pt differ_bit parent
          else Ok n
      end.

    (** [patinsert]: the node returned ([0] for [NULL]), the value left
        in [*inserted], and the trie. *)
Definition patinsert (fuel : nat) (pt : patricia_trie_t) (pfx : netaddr_t)
        : res (Z * Z * patricia_trie_t) :=
      if head pt =? 0 then
        '(n, pt1) ← getfreenode pt;
        if n =? 0 then Ok (0, PREFIX_ALREADY_PRESENT, pt1) else
        pt2 ← store n (fun _ => pnodeinit (Some pfx)) pt1;
        Ok (n, PREFIX_INSERTED,
            set_nprefs (uint32 (nprefs pt2 + 1)) (set_head n pt2))
      else
        let maxbits := maxbitlen pt in
        n0 ← insert_walk fuel pt pfx (head pt);
        nd0 ← node pt n0;
        let test_addr := n0 in
        let check_bit := Z.min (bitlen (prefix nd0)) (bitlen pfx) in
        d ← differ_loop 17 pfx (prefix nd0) check_bit 0 0 0;
        let differ_bit := if check_bit <? d then check_bit else d in
        n ← insert_backup fuel pt differ_bit n0;
        nd ← node pt n;
        if (differ_bit =? bitlen pfx) && (bitlen (prefix nd) =? bitlen pfx) then
          if ispnodeglue nd then Ok (n, PREFIX_ALREADY_PRESENT, pt)
          else
            pt1 ← store n (fun x => resetpnodeglue (set_prefix pfx x))
                    (set_nprefs (uint32 (nprefs pt + 1)) pt);
            Ok (n, PREFIX_ALREADY_PRESENT, pt1)
        else
          '(newnode, pt1) ← getfreenode pt;
          if newnode =? 0 then Ok (0, PREFIX_ALREADY_PRESENT, pt1) else
          pt2 ← store newnode (fun _ => pnodeinit (Some pfx)) pt1;
          let pt3 := set_nprefs (uint32 (nprefs pt2 + 1)) pt2 in
          nd ← node pt3 n;
          if bitlen (prefix nd) =? differ_bit then
            pt4 ← store newnode (setpnodeparent n) pt3;
            bit ← key_bit_lt maxbits pfx (bitlen (prefix nd));
            pt5 ← store n (set_child bit newnode) pt4;
            Ok (newnode, PREFIX_INSERTED, pt5)
          else if bitlen (prefix nd) =? differ_bit then
            ta ← node pt3 test_addr;
            bit ← key_bit_lt maxbits (prefix ta) (bitlen pfx);
            pt4 ← store newnode (set_child bit n) pt3;
            pt5 ← store newnode (setpnodeparent n) pt4;
            nd5 ← node pt5 n;
            pt6 ← (if getpnodeparent nd5 =? 0 then Ok (set_head newnode pt5)
                    else
                      pd ← node pt5 (getpnodeparent nd5);
                      if child1 pd =? n
                      then store (getpnodeparent nd5) (set_child (child1 pd =? n) n) pt5
                      else Ok pt5);
            pt7 ← store n (setpnodeparent newnode) pt6;
            Ok (newnode, PREFIX_INSERTED, pt7)
          else
            '(glue, pt4) ← getfreenode pt3;
            if glue =? 0 then Ok (0, PREFIX_ALREADY_PRESENT, pt4) else
            nd4 ← node pt4 n;
            pt5 ← store glue (fun _ =>
                     setpnodeparent (getpnodeparent nd4)
                       (setpnodeglue
                          (set_prefix (mk_netaddr AF_UNSPEC differ_bit zero_bytes)
                             (pnodeinit None)))) pt4;
            bit ← key_bit_lt maxbits pfx differ_bit;
            pt6 ← store glue (set_child bit newnode) pt5;
            pt7 ← store glue (set_child (negb bit) n) pt6;
            pt8 ← store newnode (setpnodeparent glue) pt7;
            nd8 ← node pt8 n;
            pt9 ← (if getpnodeparent nd8 =? 0 then Ok (set_head glue pt8)
                    else
                      pd ← node pt8 (getpnodeparent nd8);
                      store (getpnodeparent nd8) (set_child (child1 pd =? n) glue) pt8);
            pt10 ← store n (setpnodeparent glue) pt9;
            Ok (newnode, PREFIX_INSERTED, pt10).

    (** The descent of [patsearchexact]; [0] is the early [return NULL]. *)
Fixpoint search_walk (fuel : nat) (pt : patricia_trie_t) (pfx : netaddr_t)
        (n : Z) : res Z :=
      match fuel with
      | O => OutOfFuel
      | S fuel' =>
          nd ← node pt n;
          if bitlen (prefix nd) <? bitlen pfx then
            bit ← key_bit pfx (bitlen (prefix nd));
            if child bit nd =? 0 then Ok 0
            else search_walk fuel' pt pfx (child bit nd)
          else Ok n
      end.

Definition patsearchexact (fuel : nat) (pt : patricia_trie_t)
        (pfx : netaddr_t) : res Z :=
      if head pt =? 0 then Ok 0 else
      n ← search_walk fuel pt pfx (head pt);
      if n =? 0 then Ok 0 else
      nd ← node pt n;
      if (bitlen pfx <? bitlen (prefix nd)) || ispnodeglue nd then Ok 0 else
      same ← patcompwithmask (prefix nd) pfx (bitlen pfx);
      if (same : bool) then Ok n else Ok 0.

    (** [patremove]: the payload returned ([0] for [NULL]) and the trie. *)
Definition patremove (fuel : nat) (pt : patricia_trie_t) (pfx : netaddr_t)
        : res (Z * patricia_trie_t) :=
      n ← patsearchexact fuel pt pfx;
      let pt := set_nprefs (uint32 (nprefs pt - 1)) pt in
      if n =? 0 then Ok (0, pt) else
      nd ← node pt n;
      let payload := payload nd in
      if negb (child0 nd =? 0) && negb (child1 nd =? 0) then
        pt1 ← putfreenode n pt;
        pt2 ← store n setpnodeglue pt1;
        Ok (payload, pt2)
      else if (child0 nd =? 0) && (child1 nd =? 0) then
        let parent := getpnodeparent nd in
        pt1 ← putfreenode n pt;
        if parent =? 0 then Ok (payload, set_head 0 pt1) else
        pd ← node pt1 parent;
        let bit := child1 pd =? n in
        pt2 ← store parent (set_child bit 0) pt1;
        pd2 ← node pt2 parent;
        let child := child (negb bit) pd2 in
        if negb (ispnodeglue pd2) then Ok (payload, pt2) else
        pt3 ← (if getpnodeparent pd2 =? 0 then Ok (set_head child pt2)
                else
                  gp ← node pt2 (getpnodeparent pd2);
                  store (getpnodeparent pd2)
                        (set_child (child1 gp =? parent) child) pt2);
        pd3 ← node pt3 parent;
        pt4 ← store child (setpnodeparent (getpnodeparent pd3)) pt3;
        pt5 ← putfreenode parent pt4;
        Ok (payload, pt5)
      else
        let bit := negb (child1 nd =? 0) in
        let child := child bit nd in
        let parent := getpnodeparent nd in
        pt1 ← store child (setpnodeparent parent) pt;
        pt2 ← putfreenode n pt1;
        if parent =? 0 then Ok (payload, set_head child pt2) else
        pd ← node pt2 parent;
        pt3 ← store parent (set_child (child1 pd =? n) child) pt2;
        Ok (payload, pt3).

    (** *** u128.h: the operations [patcoverage] uses *)

Definition U128_ZERO : Z := 0.
Definition U128_ONE : Z := 1.
Definition u128add (a b : Z) : Z := (a + b) mod 2 ^ 128.
    (** [u.u128 <<= bits], undefined from 128 bits on. *)
Definition u128shl (u bits : Z) : res Z :=
      if (0 <=? bits) && (bits <? 128) then Ok ((u * 2 ^ bits) mod 2 ^ 128)
      else Fault.

    (** [*sp++ = p] on a stack array of [cap] pointers. *)
Definition push (cap : Z) (p : Z) (stack : list Z) : res (list Z) :=
      if Z.of_nat (length stack) <? cap then Ok (p :: stack) else Fault.

    (** The loop of [patcoverage]; the stack is the list of the pointers
        between [stack] and [sp], top first. *)
Fixpoint coverage_loop (fuel : nat) (pt : patricia_trie_t)
        (next : Z) (stack : list Z) (coverage : Z) : res Z :=
      match fuel with
      | O => OutOfFuel
      | S fuel' =>
          if next =? 0 then Ok coverage else
          n ← node pt next;
          if negb (ispnodeglue n) && negb (bitlen (prefix n) =? 0) then
            sh ← u128shl U128_ONE (uint32 (maxbitlen pt - bitlen (prefix n)));
            let coverage := u128add coverage sh in
            match stack with
            | top :: stack' => coverage_loop fuel' pt top stack' coverage
            | [] => Ok coverage
            end
          else if negb (child0 n =? 0) then
            stack' ← (if negb (child1 n =? 0)
                      then push (maxbitlen pt + 1) (child1 n) stack
                      else Ok stack);
            coverage_loop fuel' pt (child0 n) stack' coverage
          else if negb (child1 n =? 0) then
            coverage_loop fuel' pt (child1 n) stack coverage
          else
            match stack with
            | top :: stack' => coverage_loop fuel' pt top stack' coverage
            | [] => Ok coverage
            end
      end.

Definition patcoverage (fuel : nat) (pt : patricia_trie_t) : res Z :=
      coverage_loop fuel pt (head pt) [] U128_ZERO.

    (** *** Iterator *)

    (** [patiterator_t]: [curr] and the part of [stack] below [sp], top
        first; the array holds 129 pointers. *)
Record patiterator_t : Type := mk_iter {
      it_stack : list Z;
      curr : Z
    }.

Definition patiteratormovenext (pt : patricia_trie_t) (st : patiterator_t)
        : res patiterator_t :=
      c ← node pt (curr st);
      let l := child0 c in
      let r := child1 c in
      if negb (l =? 0) then
        stack' ← (if negb (r =? 0) then push 129 r (it_stack st)
                  else Ok (it_stack st));
        Ok (mk_iter stack' l)
      else if negb (r =? 0) then Ok (mk_iter (it_stack st) r)
      else
        match it_stack st with
        | top :: stack' => Ok (mk_iter stack' top)
        | [] => Ok (mk_iter [] 0)
        end.

Fixpoint patiteratorskipglue (fuel : nat) (pt : patricia_trie_t)
        (st : patiterator_t) : res patiterator_t :=
      match fuel with
      | O => OutOfFuel
      | S fuel' =>
          if curr st =? 0 then Ok st else
          c ← node pt (curr st);
          if ispnodeglue c then
            st' ← patiteratormovenext pt st;
            patiteratorskipglue fuel' pt st'
          else Ok st
      end.

Definition patiteratorinit (fuel : nat) (pt : patricia_trie_t)
        : res patiterator_t :=
      patiteratorskipglue fuel pt (mk_iter [] (head pt)).

Definition patiteratorget (st : patiterator_t) : Z := curr st.

Definition patiteratornext (fuel : nat) (pt : patricia_trie_t)
        (st : patiterator_t) : res patiterator_t :=
      st' ← patiteratormovenext pt st;
      patiteratorskipglue fuel pt st'.

Definition patiteratorend (st : patiterator_t) : bool := curr st =? 0.

    (** The client loop
        [for (patiteratorinit(&it, pt); !patiteratorend(&it); patiteratornext(&it))],
        collecting the prefix of the node [patiteratorget] returns. *)
Fixpoint iterate_from (fuel : nat) (pt : patricia_trie_t)
        (st : patiterator_t) : res (list netaddr_t) :=
      match fuel with
      | O => OutOfFuel
      | S fuel' =>
          if patiteratorend st then Ok [] else
          n ← node pt (patiteratorget st);
          st' ← patiteratornext fuel pt st;
          rest ← iterate_from fuel' pt st';
          Ok (prefix n :: rest)
      end.

Definition iterate (fuel : nat) (pt : patricia_trie_t)
        : res (list netaddr_t) :=
      st ← patiteratorinit fuel pt;
      iterate_from fuel pt st.

  End allocator.

End Patricia.

(** ** patriciatrie.c: longest match and subnet test *)

Module PatriciaQueries.
Import NetAddr Patricia.

(** The loop of [patsearchbest]: [n] is the node at hand, [last] the best
    match so far ([0] for [NULL]). *)
Fixpoint best_walk (fuel : nat) (pt : patricia_trie_t) (pfx : netaddr_t)
    (n last : Z) : res Z :=
  match fuel with
  | O => OutOfFuel
  | S fuel' =>
      nd ← node pt n;
      if bitlen (prefix nd) <? bitlen pfx then
        step ← (if negb (ispnodeglue nd) then
                  covers ← (if bitlen (prefix nd) <=? bitlen pfx
                            then patcompwithmask (prefix nd) pfx (bitlen (prefix nd))
                            else Ok false);
                  Ok (if (covers : bool) then Some n else None)
                else Ok (Some last));
        match step with
        | None => Ok last
        | Some last' =>
            bit ← key_bit pfx (bitlen (prefix nd));
            if child bit nd =? 0 then Ok last'
            else best_walk fuel' pt pfx (child bit nd) last'
        end
      else Ok last
  end.

(** [patsearchbest]: the node returned, [0] for [NULL] ([pub] is the first
    member of the node). *)
Definition patsearchbest (fuel : nat) (pt : patricia_trie_t) (pfx : netaddr_t)
    : res Z :=
  if head pt =? 0 then Ok 0 else best_walk fuel pt pfx (head pt) 0.

(** The loop of [patissubnetof] and the test after it. *)
Fixpoint subnet_walk (fuel : nat) (pt : patricia_trie_t) (pfx : netaddr_t)
    (n : Z) : res bool :=
  match fuel with
  | O => OutOfFuel
  | S fuel' =>
      if n =? 0 then Ok false else
      nd ← node pt n;
      if bitlen (prefix nd) <? bitlen pfx then
        if negb (ispnodeglue nd) then
          if bitlen (prefix nd) <? maxbitlen pt
          then patcompwithmask (prefix nd) pfx (bitlen (prefix nd))
          else Ok false
        else
          bit ← key_bit_lt (maxbitlen pt) pfx (bitlen (prefix nd));
          subnet_walk fuel' pt pfx (child bit nd)
      else if negb (ispnodeglue nd) && (bitlen (prefix nd) <=? bitlen pfx)
      then patcompwithmask (prefix nd) pfx (bitlen pfx)
      else Ok false
  end.

Definition patissubnetof (fuel : nat) (pt : patricia_trie_t) (pfx : netaddr_t)
    : res bool :=
  subnet_walk fuel pt pfx (head pt).

(** The client loop of the iterator,
    [for (patiteratorinit(&it, pt); !patiteratorend(&it); patiteratornext(&it))],
    collecting the nodes [patiteratorget] returns. *)
Fixpoint nodes_from (fuel : nat) (pt : patricia_trie_t)
    (st : patiterator_t) : res (list Z) :=
  match fuel with
  | O => OutOfFuel
  | S fuel' =>
      if patiteratorend st then Ok [] else
      st' ← patiteratornext fuel pt st;
      rest ← nodes_from fuel' pt st';
      Ok (patiteratorget st :: rest)
  end.

Definition iterate_nodes (fuel : nat) (pt : patricia_trie_t) : res (list Z) :=
  st ← patiteratorinit fuel pt;
  nodes_from fuel pt st.

End PatriciaQueries.

(** ** filterpacket.h, filterintrin.h, filterintrin.c, filterpacket.c *)

Module FilterVm.
  Import NetAddr.

Definition VM_OUT_OF_MEMORY : Z := -1.
Definition VM_STACK_OVERFLOW : Z := -2.
Definition VM_STACK_UNDERFLOW : Z := -3.
Definition VM_FUNC_UNDEFINED : Z := -4.
Definition VM_K_UNDEFINED : Z := -5.
Definition VM_BAD_ACCESSOR : Z := -6.
Definition VM_TRIE_MISMATCH : Z := -7.
Definition VM_TRIE_UNDEFINED : Z := -8.
Definition VM_PACKET_MISMATCH : Z := -9.
Definition VM_BAD_PACKET : Z := -10.
Definition VM_ILLEGAL_OPCODE : Z := -11.
Definition VM_DANGLING_BLK : Z := -12.
Definition VM_SPURIOUS_ENDBLK : Z := -13.
Definition VM_SURPRISING_BYTES : Z := -14.
Definition VM_BAD_ARRAY : Z := -15.

  (** The enumerators of the error [enum], in declaration order. *)
Definition vm_errors : list Z :=
    [VM_OUT_OF_MEMORY; VM_STACK_OVERFLOW; VM_STACK_UNDERFLOW; VM_FUNC_UNDEFINED;
     VM_K_UNDEFINED; VM_BAD_ACCESSOR; VM_TRIE_MISMATCH; VM_TRIE_UNDEFINED;
     VM_PACKET_MISMATCH; VM_BAD_PACKET; VM_ILLEGAL_OPCODE; VM_DANGLING_BLK;
     VM_SPURIOUS_ENDBLK; VM_SURPRISING_BYTES; VM_BAD_ARRAY].

  (** What [filter_strerror] names the outcomes: above 0 is "Pass", 0 is
      "Fail". *)
Definition FILTER_FAIL : Z := 0.
Definition FILTER_PASS : Z := 1.

Definition STACKBUFSIZ : Z := 256.
Definition KBUFSIZ : Z := 64.
Definition K_MAX : Z := 32.
Definition KBASESIZ : Z := 33.
Definition VM_TMPTRIE : Z := 0.
Definition VM_TMPTRIE6 : Z := 1.
Definition VM_FUNCS_MAX : Z := 16.
Definition VM_FUNCS_COUNT : Z := 25.

Definition STACK_GROW_STEP : Z := 128.
Definition HEAP_GROW_STEP : Z := 256.
Definition CODE_GROW_STEP : Z := 128.

Definition FOPC_NOP : Z := 0.
Definition FOPC_BLK : Z := 1.
Definition FOPC_ENDBLK : Z := 2.
Definition FOPC_LOAD : Z := 3.
Definition FOPC_LOADK : Z := 4.
Definition FOPC_UNPACK : Z := 5.
Definition FOPC_EXARG : Z := 6.
Definition FOPC_STORE : Z := 7.
Definition FOPC_DISCARD : Z := 8.
Definition FOPC_NOT : Z := 9.
Definition FOPC_CPASS : Z := 10.
Definition FOPC_CFAIL : Z := 11.
Definition FOPC_SETTLE : Z := 12.
Definition FOPC_HASATTR : Z := 13.
Definition FOPC_EXACT : Z := 14.
Definition FOPC_SUBNET : Z := 15.
Definition FOPC_SUPERNET : Z := 16.
Definition FOPC_RELATED : Z := 17.
Definition FOPC_PFXCONTAINS : Z := 18.
Definition FOPC_ADDRCONTAINS : Z := 19.
Definition FOPC_ASCONTAINS : Z := 20.
Definition FOPC_ASPMATCH : Z := 21.
Definition FOPC_ASPSTARTS : Z := 22.
Definition FOPC_ASPENDS : Z := 23.
Definition FOPC_ASPEXACT : Z := 24.
Definition FOPC_COMMEXACT : Z := 25.
Definition FOPC_CALL : Z := 26.
Definition FOPC_SETTRIE : Z := 27.
Definition FOPC_SETTRIE6 : Z := 28.
Definition FOPC_CLRTRIE : Z := 29.
Definition FOPC_CLRTRIE6 : Z := 30.
Definition FOPC_PFXCMP : Z := 31.
Definition FOPC_ADDRCMP : Z := 32.
Definition FOPC_ASCMP : Z := 33.

  (** [stack_cell_t], the union as a tagged value: the member last stored.
      Reading another member than the one stored is a [Fault] of the
      model. *)
Inductive stack_cell_t : Type :=
    | CValue (value : Z)
    | CAddr (addr : netaddr_t)
    | CAs (as_ : Z)
    | CComm (comm : Z)
    | CArr (base nels elsiz : Z).

Definition cell_value (c : stack_cell_t) : res Z :=
    match c with CValue v => Ok v | _ => Fault end.

Definition cell_addr (c : stack_cell_t) : res netaddr_t :=
    match c with CAddr a => Ok a | _ => Fault end.

Definition vm_heap_zone_t : Type := bool.
Definition VM_HEAP_PERM : vm_heap_zone_t := false.
Definition VM_HEAP_TEMP : vm_heap_zone_t := true.

Definition VM_BAD_HEAP_PTR : Z := -1.

  (** [sizeof(max_align_t)]: 32 on x86-64 Linux (a [long long] and a
      [long double], each aligned to its size). *)
Definition max_align : Z := 32.

  (** [struct filter_vm].  [curtrie] and [curtrie6] point into [tries] and
      are kept as indexes; [sp] and [kp] are the stack and constant
      buffers; [heap] tells whether the [heap] pointer is set (not [NULL]),
      the address and the contents of the heap being outside the model;
      [settle_func] is the pending terminator, if any.  The [funcs] table
      is a parameter of the interpreter below. *)
Record filter_vm_t : Type := mk_vm {
    bgp : Bgp.ubgp_msg_s;
    curtrie : option Z;
    curtrie6 : option Z;
    sp : list stack_cell_t;
    kp : list stack_cell_t;
    tries : list Patricia.patricia_trie_t;
    pc : Z;
    si : Z;
    access_mask : Z;
    ntries : Z;
    stacksiz : Z;
    codesiz : Z;
    ksiz : Z;
    curblk : Z;
    code : list Z;
    heap : bool;
    highwater : Z;
    dynmarker : Z;
    heapsiz : Z;
    settle_func : option (Bgp.ubgp_msg_s -> Bgp.ubgp_msg_s);
    error : Z
  }.

Definition set_bgp x vm := mk_vm x (curtrie vm) (curtrie6 vm) (sp vm) (kp vm)
    (tries vm) (pc vm) (si vm) (access_mask vm) (ntries vm) (stacksiz vm)
    (codesiz vm) (ksiz vm) (curblk vm) (code vm) (heap vm) (highwater vm) (dynmarker vm)
    (heapsiz vm) (settle_func vm) (error vm).
Definition set_curtrie x vm := mk_vm (bgp vm) x (curtrie6 vm) (sp vm) (kp vm)
    (tries vm) (pc vm) (si vm) (access_mask vm) (ntries vm) (stacksiz vm)
    (codesiz vm) (ksiz vm) (curblk vm) (code vm) (heap vm) (highwater vm) (dynmarker vm)
    (heapsiz vm) (settle_func vm) (error vm).
Definition set_curtrie6 x vm := mk_vm (bgp vm) (curtrie vm) x (sp vm) (kp vm)
    (tries vm) (pc vm) (si vm) (access_mask vm) (ntries vm) (stacksiz vm)
    (codesiz vm) (ksiz vm) (curblk vm) (code vm) (heap vm) (highwater vm) (dynmarker vm)
    (heapsiz vm) (settle_func vm) (error vm).
Definition set_stack x n vm := mk_vm (bgp vm) (curtrie vm) (curtrie6 vm) x (kp vm)
    (tries vm) (pc vm) (si vm) (access_mask vm) (ntries vm) n
    (codesiz vm) (ksiz vm) (curblk vm) (code vm) (heap vm) (highwater vm) (dynmarker vm)
    (heapsiz vm) (settle_func vm) (error vm).
Definition set_tries x vm := mk_vm (bgp vm) (curtrie vm) (curtrie6 vm) (sp vm) (kp vm)
    x (pc vm) (si vm) (access_mask vm) (ntries vm) (stacksiz vm)
    (codesiz vm) (ksiz vm) (curblk vm) (code vm) (heap vm) (highwater vm) (dynmarker vm)
    (heapsiz vm) (settle_func vm) (error vm).
Definition set_pc x vm := mk_vm (bgp vm) (curtrie vm) (curtrie6 vm) (sp vm) (kp vm)
    (tries vm) x (si vm) (access_mask vm) (ntries vm) (stacksiz vm)
    (codesiz vm) (ksiz vm) (curblk vm) (code vm) (heap vm) (highwater vm) (dynmarker vm)
    (heapsiz vm) (settle_func vm) (error vm).
Definition set_si x vm := mk_vm (bgp vm) (curtrie vm) (curtrie6 vm) (sp vm) (kp vm)
    (tries vm) (pc vm) x (access_mask vm) (ntries vm) (stacksiz vm)
    (codesiz vm) (ksiz vm) (curblk vm) (code vm) (heap vm) (highwater vm) (dynmarker vm)
    (heapsiz vm) (settle_func vm) (error vm).
Definition set_curblk x vm := mk_vm (bgp vm) (curtrie vm) (curtrie6 vm) (sp vm) (kp vm)
    (tries vm) (pc vm) (si vm) (access_mask vm) (ntries vm) (stacksiz vm)
    (codesiz vm) (ksiz vm) x (code vm) (heap vm) (highwater vm) (dynmarker vm)
    (heapsiz vm) (settle_func vm) (error vm).
Definition set_heap hw dm hs vm := mk_vm (bgp vm) (curtrie vm) (curtrie6 vm) (sp vm) (kp vm)
    (tries vm) (pc vm) (si vm) (access_mask vm) (ntries vm) (stacksiz vm)
    (codesiz vm) (ksiz vm) (curblk vm) (code vm) (heap vm) hw dm hs (settle_func vm) (error vm).
Definition set_heapbuf (p : bool) hs vm := mk_vm (bgp vm) (curtrie vm) (curtrie6 vm) (sp vm) (kp vm)
    (tries vm) (pc vm) (si vm) (access_mask vm) (ntries vm) (stacksiz vm)
    (codesiz vm) (ksiz vm) (curblk vm) (code vm) p (highwater vm) (dynmarker vm)
    hs (settle_func vm) (error vm).
Definition set_settle f am vm := mk_vm (bgp vm) (curtrie vm) (curtrie6 vm) (sp vm) (kp vm)
    (tries vm) (pc vm) (si vm) am (ntries vm) (stacksiz vm)
    (codesiz vm) (ksiz vm) (curblk vm) (code vm) (heap vm) (highwater vm) (dynmarker vm)
    (heapsiz vm) f (error vm).
Definition set_error x vm := mk_vm (bgp vm) (curtrie vm) (curtrie6 vm) (sp vm) (kp vm)
    (tries vm) (pc vm) (si vm) (access_mask vm) (ntries vm) (stacksiz vm)
    (codesiz vm) (ksiz vm) (curblk vm) (code vm) (heap vm) (highwater vm) (dynmarker vm)
    (heapsiz vm) (settle_func vm) x.

  (** Outcome of a step of the interpreter: it goes on, or [vm_abort]
      took the [longjmp] (the error is in [error]), or the model stops. *)
Inductive vmres (A : Type) : Type :=
    | Go (a : A)
    | Abort (vm : filter_vm_t)
    | Stop (r : res False).
  Arguments Go {A} a.
  Arguments Abort {A} vm.
  Arguments Stop {A} r.

#[export] Instance vmres_ret : MRet vmres := fun A a => Go a.
#[export] Instance vmres_bind : MBind vmres := fun A B f m =>
    match m with
    | Go a => f a
    | Abort vm => Abort vm
    | Stop r => Stop r
    end.

Definition lift {A : Type} (r : res A) : vmres A :=
    match r with
    | Ok a => Go a
    | Fault => Stop Fault
    | OutOfFuel => Stop OutOfFuel
    | AssertFailed => Stop AssertFailed
    end.

Definition vm_abort {A : Type} (vm : filter_vm_t) (e : Z) : vmres A :=
    Abort (set_error e vm).

Definition vm_makeop (opcode arg : Z) : Z :=
    Z.lor (Z.land (Z.shiftl arg 8) 65280) (Z.land opcode 255).
Definition vm_getopcode (c : Z) : Z := Z.land c 255.
Definition vm_getarg (c : Z) : Z := Z.shiftr c 8.
Definition vm_extendarg (arg exarg : Z) : Z :=
    Z.land (Z.lor (Z.shiftl exarg 8) arg) 2147483647.

  (** Alignment of a heap request ([size_t] arithmetic). *)
Definition align_size (size : Z) : Z :=
    let s := uint64 (size + (max_align - 1)) in
    uint64 (s - Z.land s (max_align - 1)).

  Section machine.
    (** Whether [realloc] of the given size succeeds. *)
    Variable realloc_ok : Z -> bool.
    (** Whether asserts are compiled out. *)
    Variable NDEBUG : bool.
    (** [malloc] of the trie pages, as in [Patricia]. *)
    Variable malloc : nat -> Z.
    (** The [funcs] table of the VM. *)
    Variable funcs : Z -> option (filter_vm_t -> vmres filter_vm_t).
    (** The instructions that read the packet or the heap contents
        ([vm_exec_unpack], [vm_exec_hasattr], [vm_exec_exact], ...), which
        are outside this development: opcode, argument, machine. *)
    Variable intrin : Z -> Z -> filter_vm_t -> vmres filter_vm_t.

Definition assert (b : bool) : res unit :=
      if b || NDEBUG then Ok () else AssertFailed.

    (** [vm_heap_ensure]: [None] when the pointer returned is [NULL], which
        is the heap pointer itself when the room is already there. *)
Definition vm_heap_ensure (vm : filter_vm_t) (aligned_size : Z)
        : option filter_vm_t :=
      let used := uint64 (highwater vm + dynmarker vm) in
      if aligned_size <=? uint64 (heapsiz vm - used)
      then (if heap vm then Some vm else None)
      else
      let aligned_size := uint64 (uint64 (aligned_size + used) + HEAP_GROW_STEP) in
      if realloc_ok aligned_size
      then Some (set_heapbuf true (uint32 aligned_size) vm)
      else None.

    (** [vm_heap_alloc]: the offset returned and the machine. *)
Definition vm_heap_alloc (vm : filter_vm_t) (size : Z) (zone : vm_heap_zone_t)
        : res (Z * filter_vm_t) :=
      let size := align_size size in
      match vm_heap_ensure vm size with
      | None => Ok (VM_BAD_HEAP_PTR, vm)
      | Some vm =>
          if zone then
            let ptr := highwater vm + dynmarker vm in
            Ok (ptr, set_heap (highwater vm) (uint32 (dynmarker vm + size))
                       (heapsiz vm) vm)
          else if 0 <? dynmarker vm then
            _ ← assert false; Ok (VM_BAD_HEAP_PTR, vm)
          else
            let ptr := highwater vm in
            Ok (ptr, set_heap (uint32 (highwater vm + size)) (dynmarker vm)
                       (heapsiz vm) vm)
      end.

Definition vm_heap_return (vm : filter_vm_t) (size : Z) : res filter_vm_t :=
      let size := align_size size in
      _ ← assert (size <=? dynmarker vm);
      Ok (set_heap (highwater vm) (uint32 (dynmarker vm - size)) (heapsiz vm) vm).

Definition vm_heap_grow (vm : filter_vm_t) (addr newsize : Z)
        : Z * filter_vm_t :=
      let newsize := align_size newsize in
      let addr := if addr =? 0 then highwater vm else addr in
      let oldsize := uint64 (uint32 (highwater vm + dynmarker vm) - addr) in
      if newsize <? oldsize then (addr, vm) else
      let amount := uint64 (newsize - oldsize) in
      match vm_heap_ensure vm amount with
      | None => (VM_BAD_HEAP_PTR, vm)
      | Some vm =>
          (addr, set_heap (highwater vm) (uint32 (dynmarker vm + amount))
                   (heapsiz vm) vm)
      end.

Definition vm_clearstack (vm : filter_vm_t) : filter_vm_t := set_si 0 vm.

Definition vm_growstack (vm : filter_vm_t) : vmres filter_vm_t :=
      let stacksiz := uint16 (stacksiz vm + STACK_GROW_STEP) in
      if realloc_ok (stacksiz * 24)
      then Go (set_stack (take (Z.to_nat stacksiz)
                            (sp vm ++ repeat (CValue 0) (Z.to_nat STACK_GROW_STEP)))
                         stacksiz vm)
      else vm_abort vm VM_STACK_OVERFLOW.

    (** [&vm->sp[i]] read and written. *)
Definition cell_at (vm : filter_vm_t) (i : Z) : vmres stack_cell_t :=
      if i <? 0 then Stop Fault else lift (of_option (sp vm !! Z.to_nat i)).

Definition set_cell (i : Z) (c : stack_cell_t) (vm : filter_vm_t)
        : vmres filter_vm_t :=
      if (0 <=? i) && (i <? Z.of_nat (length (sp vm)))
      then Go (set_stack (<[Z.to_nat i := c]> (sp vm)) (stacksiz vm) vm)
      else Stop Fault.

    (** [vm_peek] and [vm_pop] return the index of the cell. *)
Definition vm_peek (vm : filter_vm_t) : vmres Z :=
      if si vm =? 0 then vm_abort vm VM_STACK_UNDERFLOW else Go (si vm - 1).

Definition vm_pop (vm : filter_vm_t) : vmres (Z * filter_vm_t) :=
      if si vm =? 0 then vm_abort vm VM_STACK_UNDERFLOW
      else Go (uint16 (si vm - 1), set_si (uint16 (si vm - 1)) vm).

Definition vm_push (vm : filter_vm_t) (c : stack_cell_t) : vmres filter_vm_t :=
      vm1 ← (if si vm =? stacksiz vm then vm_growstack vm else Go vm);
      vm2 ← set_cell (si vm1) c vm1;
      Go (set_si (uint16 (si vm2 + 1)) vm2).

Definition vm_pushvalue (vm : filter_vm_t) (value : Z) : vmres filter_vm_t :=
      vm_push vm (CValue value).

Definition vm_exec_loadk (vm : filter_vm_t) (kidx : Z) : vmres filter_vm_t :=
      if ksiz vm <=? kidx then vm_abort vm VM_K_UNDEFINED else
      k ← lift (of_option (kp vm !! Z.to_nat kidx));
      vm_push vm k.

    (** [vm_exec_break]: the loop advancing [pc] to the matching
        [ENDBLK]. *)
Fixpoint break_loop (fuel : nat) (vm : filter_vm_t) (nblk : Z)
        : vmres filter_vm_t :=
      match fuel with
      | O => Stop OutOfFuel
      | S fuel' =>
          if pc vm <? codesiz vm then
            c ← lift (of_option (code vm !! Z.to_nat (pc vm)));
            let nblk := if c =? FOPC_ENDBLK then uint32 (nblk - 1) else nblk in
            let nblk := if c =? FOPC_BLK then uint32 (nblk + 1) else nblk in
            if nblk =? 0 then Go vm
            else break_loop fuel' (set_pc (uint16 (pc vm + 1)) vm) nblk
          else Go vm
      end.

Definition vm_exec_break (vm : filter_vm_t) : vmres filter_vm_t :=
      break_loop (S (Z.to_nat (codesiz vm - pc vm))) vm 1.

Definition vm_exec_not (vm : filter_vm_t) : vmres filter_vm_t :=
      i ← vm_peek vm;
      c ← cell_at vm i;
      v ← lift (cell_value c);
      set_cell i (CValue (if v =? 0 then 1 else 0)) vm.

Definition vm_exec_settle (vm : filter_vm_t) : filter_vm_t :=
      match settle_func vm with
      | Some f => set_settle None 0 (set_bgp (f (bgp vm)) vm)
      | None => vm
      end.

    (** [&vm->tries[i]] read and written. *)
Definition trie_at (vm : filter_vm_t) (i : Z) : vmres Patricia.patricia_trie_t :=
      if i <? 0 then Stop Fault else lift (of_option (tries vm !! Z.to_nat i)).

Definition set_trie (i : Z) (t : Patricia.patricia_trie_t) (vm : filter_vm_t)
        : filter_vm_t :=
      set_tries (<[Z.to_nat i := t]> (tries vm)) vm.

Definition cur_trie (o : option Z) : vmres Z :=
      match o with Some i => Go i | None => Stop Fault end.

Definition vm_exec_store (fuel : nat) (vm : filter_vm_t) : vmres filter_vm_t :=
      '(i, vm) ← vm_pop vm;
      c ← cell_at vm i;
      a ← lift (cell_addr c);
      if (family a =? AF_INET6) || (family a =? AF_INET) then
        t ← cur_trie (if family a =? AF_INET6 then curtrie6 vm else curtrie vm);
        trie ← trie_at vm t;
        '(n, _, trie') ← lift (Patricia.patinsert malloc fuel trie a);
        let vm := set_trie t trie' vm in
        if n =? 0 then vm_abort vm VM_OUT_OF_MEMORY else Go vm
      else vm_abort vm VM_SURPRISING_BYTES.

Definition vm_exec_discard (fuel : nat) (vm : filter_vm_t) : vmres filter_vm_t :=
      '(i, vm) ← vm_pop vm;
      c ← cell_at vm i;
      a ← lift (cell_addr c);
      if (family a =? AF_INET6) || (family a =? AF_INET) then
        t ← cur_trie (if family a =? AF_INET6 then curtrie6 vm else curtrie vm);
        trie ← trie_at vm t;
        '(_, trie') ← lift (Patricia.patremove fuel trie a);
        Go (set_trie t trie' vm)
      else vm_abort vm VM_SURPRISING_BYTES.

Definition vm_exec_clrtrie (vm : filter_vm_t) : vmres filter_vm_t :=
      t ← cur_trie (curtrie vm);
      trie ← trie_at vm t;
      trie' ← lift (Patricia.patclear trie);
      Go (set_trie t trie' vm).

Definition vm_exec_clrtrie6 (vm : filter_vm_t) : vmres filter_vm_t :=
      t ← cur_trie (curtrie6 vm);
      trie ← trie_at vm t;
      trie' ← lift (Patricia.patclear trie);
      Go (set_trie t trie' vm).

Definition vm_exec_settrie (vm : filter_vm_t) (trie : Z) : vmres filter_vm_t :=
      if ntries vm <=? uint32 trie then vm_abort vm VM_TRIE_UNDEFINED else
      let vm := set_curtrie (Some trie) vm in
      t ← trie_at vm trie;
      if negb (Patricia.maxbitlen t =? 32) then vm_abort vm VM_TRIE_MISMATCH
      else Go vm.

Definition vm_exec_settrie6 (vm : filter_vm_t) (trie6 : Z) : vmres filter_vm_t :=
      if ntries vm <=? uint32 trie6 then vm_abort vm VM_TRIE_UNDEFINED else
      let vm := set_curtrie6 (Some trie6) vm in
      t ← trie_at vm trie6;
      if negb (Patricia.maxbitlen t =? 128) then vm_abort vm VM_TRIE_MISMATCH
      else Go vm.

    (** One round of the [switch] in [bgp_filter], for the instruction
        word [ip] already fetched: the machine, the running [exarg], and
        whether the round left by [goto done].  The portable dispatch is
        modelled ([PREDICT] does nothing). *)
Definition exec_insn (fuel : nat) (vm : filter_vm_t) (ip exarg : Z)
        : vmres (filter_vm_t * Z * bool) :=
      let op := vm_getopcode ip in
      if op =? FOPC_NOP then Go (vm, exarg, false)
      else if op =? FOPC_BLK then
        Go (set_curblk (uint16 (curblk vm + 1)) vm, exarg, false)
      else if op =? FOPC_ENDBLK then
        if curblk vm =? 0 then vm_abort vm VM_SPURIOUS_ENDBLK
        else Go (set_curblk (uint16 (curblk vm - 1)) vm, exarg, false)
      else if op =? FOPC_LOAD then
        vm ← vm_pushvalue vm (vm_extendarg (vm_getarg ip) exarg);
        Go (vm, 0, false)
      else if op =? FOPC_LOADK then
        vm ← vm_exec_loadk vm (vm_extendarg (vm_getarg ip) exarg);
        Go (vm, 0, false)
      else if op =? FOPC_EXARG then
        Go (vm, int32 (Z.lor (Z.shiftl exarg 8) (vm_getarg ip)), false)
      else if op =? FOPC_STORE then
        vm ← vm_exec_store fuel vm; Go (vm, exarg, false)
      else if op =? FOPC_DISCARD then
        vm ← vm_exec_discard fuel vm; Go (vm, exarg, false)
      else if op =? FOPC_NOT then
        vm ← vm_exec_not vm; Go (vm, exarg, false)
      else if op =? FOPC_CPASS then
        i ← vm_peek vm;
        c ← cell_at vm i;
        v ← lift (cell_value c);
        if negb (v =? 0) then
          if curblk vm =? 0 then Go (vm, exarg, true)
          else vm ← vm_exec_break vm; Go (vm, exarg, false)
        else Go (set_si (uint16 (si vm - 1)) vm, exarg, false)
      else if op =? FOPC_CFAIL then
        i ← vm_peek vm;
        c ← cell_at vm i;
        v ← lift (cell_value c);
        if negb (v =? 0) then
          vm ← set_cell i (CValue 0) vm;
          if curblk vm =? 0 then Go (vm, exarg, true)
          else vm ← vm_exec_break vm; Go (vm, exarg, false)
        else Go (set_si (uint16 (si vm - 1)) vm, exarg, false)
      else if op =? FOPC_CALL then
        let arg := vm_extendarg (vm_getarg ip) exarg in
        if VM_FUNCS_COUNT <=? arg then vm_abort vm VM_FUNC_UNDEFINED else
        match funcs arg with
        | None => vm_abort vm VM_FUNC_UNDEFINED
        | Some f => vm ← f vm; Go (vm, 0, false)
        end
      else if op =? FOPC_SETTLE then Go (vm_exec_settle vm, exarg, false)
      else if op =? FOPC_SETTRIE then
        vm ← vm_exec_settrie vm (vm_extendarg (vm_getarg ip) exarg);
        Go (vm, 0, false)
      else if op =? FOPC_SETTRIE6 then
        vm ← vm_exec_settrie6 vm (vm_extendarg (vm_getarg ip) exarg);
        Go (vm, 0, false)
      else if op =? FOPC_CLRTRIE then
        vm ← vm_exec_clrtrie vm; Go (vm, exarg, false)
      else if op =? FOPC_CLRTRIE6 then
        vm ← vm_exec_clrtrie6 vm; Go (vm, exarg, false)
      else if (op =? FOPC_UNPACK) || (op =? FOPC_COMMEXACT) then
        vm ← intrin op 0 vm; Go (vm, exarg, false)
      else if (op =? FOPC_HASATTR) || (op =? FOPC_EXACT) || (op =? FOPC_SUBNET)
              || (op =? FOPC_SUPERNET) || (op =? FOPC_RELATED)
              || (op =? FOPC_ASPMATCH) || (op =? FOPC_ASPSTARTS)
              || (op =? FOPC_ASPENDS) || (op =? FOPC_ASPEXACT) then
        vm ← intrin op (vm_getarg ip) vm; Go (vm, exarg, false)
      else if (op =? FOPC_PFXCONTAINS) || (op =? FOPC_ADDRCONTAINS)
              || (op =? FOPC_ASCONTAINS) || (op =? FOPC_ADDRCMP)
              || (op =? FOPC_PFXCMP) || (op =? FOPC_ASCMP) then
        vm ← intrin op (vm_extendarg (vm_getarg ip) exarg) vm; Go (vm, 0, false)
      else vm_abort vm VM_ILLEGAL_OPCODE.

    (** [while (vm->pc < vm->codesiz) { FETCH(); switch ... }], up to the
        label [done]. *)
Fixpoint exec_loop (fuel : nat) (vm : filter_vm_t) (exarg : Z)
        : vmres filter_vm_t :=
      match fuel with
      | O => Stop OutOfFuel
      | S fuel' =>
          if pc vm <? codesiz vm then
            ip ← lift (of_option (code vm !! Z.to_nat (pc vm)));
            let vm := set_pc (uint16 (pc vm + 1)) vm in
            '(vm, exarg, done) ← exec_insn fuel vm ip exarg;
            if (done : bool) then Go vm else exec_loop fuel' vm exarg
          else Go vm
      end.

    (** The body of [bgp_filter] after [setjmp]. *)
Definition filter_body (fuel : nat) (msg : Bgp.ubgp_msg_s) (vm : filter_vm_t)
        : vmres (Z * filter_vm_t) :=
      let vm := set_bgp msg vm in
      let vm := set_pc 0 vm in
      let vm := set_curblk 0 vm in
      let vm := vm_clearstack vm in
      let vm := set_heap (highwater vm) 0 (heapsiz vm) vm in
      let vm := set_error 0 vm in
      vm ← vm_exec_settrie vm VM_TMPTRIE;
      vm ← vm_exec_settrie6 vm VM_TMPTRIE6;
      vm ← vm_exec_clrtrie vm;
      vm ← vm_exec_clrtrie6 vm;
      vm ← exec_loop fuel vm 0;
      let vm := vm_exec_settle vm in
      if 0 <? curblk vm then vm_abort vm VM_DANGLING_BLK else
      '(i, vm) ← vm_pop vm;
      c ← cell_at vm i;
      v ← lift (cell_value c);
      Go (if negb (v =? 0) then 1 else 0, vm).

    (** [bgp_filter]: the value returned and the machine left. *)
Definition bgp_filter (fuel : nat) (msg : Bgp.ubgp_msg_s) (vm : filter_vm_t)
        : res (Z * filter_vm_t) :=
      match filter_body fuel msg vm with
      | Go r => Ok r
      | Abort vm => let vm := vm_exec_settle vm in Ok (error vm, vm)
      | Stop Fault => Fault
      | Stop OutOfFuel => OutOfFuel
      | Stop AssertFailed => AssertFailed
      | Stop (Ok f) => match f with end
      end.

    (** [filter_init] *)
Definition filter_init (msg0 : Bgp.ubgp_msg_s) : filter_vm_t :=
      mk_vm msg0 None None (repeat (CValue 0) (Z.to_nat STACKBUFSIZ))
            (repeat (CValue 0) (Z.to_nat KBUFSIZ))
            [Patricia.patinit AF_INET; Patricia.patinit AF_INET6]
            0 0 0 2 STACKBUFSIZ 0 KBASESIZ 0 [] false 0 0 0 None 0.

    (** [vm_emit], [vm_growcode] being a [realloc] of the code buffer. *)
Definition vm_emit (vm : filter_vm_t) (opcode : Z) : option filter_vm_t :=
      if (codesiz vm mod CODE_GROW_STEP =? 0)
         && negb (realloc_ok ((codesiz vm + CODE_GROW_STEP) * 2))
      then None
      else Some (mk_vm (bgp vm) (curtrie vm) (curtrie6 vm) (sp vm) (kp vm)
                   (tries vm) (pc vm) (si vm) (access_mask vm) (ntries vm)
                   (stacksiz vm) (uint16 (codesiz vm + 1)) (ksiz vm) (curblk vm)
                   (code vm ++ [opcode]) (heap vm) (highwater vm) (dynmarker vm)
                   (heapsiz vm) (settle_func vm) (error vm)).

  End machine.

End FilterVm.

(** ** bgpgrep/main.c: AS loop filtering *)

Module Bgpgrep.
  Import FilterVm.

Definition ASPATHSIZ : Z := 32.

Definition KEEP_AS_LOOPS : Z := 512.
Definition DISCARD_AS_LOOPS : Z := 1024.
Definition AS_LOOP_MASK : Z := Z.lor KEEP_AS_LOOPS DISCARD_AS_LOOPS.

Definition MRT_ACCUMULATE_ADDRS_FN : Z := 0.
Definition MRT_ACCUMULATE_ASES_FN : Z := 1.
Definition MRT_FIND_AS_LOOPS_FN : Z := 2.

  (** [path[i]], inside the [n] entries written; the buffer lives in the
      VM heap and is [NULL] while nothing was written. *)
Definition path_at (path : list Z) (i : Z) : res Z :=
    if i <? 0 then Fault else of_option (path !! Z.to_nat i).

  (** [for (uint j = 0; j < i - 2; j++)] *)
Fixpoint loop_scan (fuel : nat) (path : list Z) (i j : Z) : res bool :=
    match fuel with
    | O => OutOfFuel
    | S fuel' =>
        if j <? uint32 (i - 2) then
          pj ← path_at path j;
          pi ← path_at path i;
          if (pj =? pi) && negb (pj =? Bgp.AS_TRANS) then Ok true
          else loop_scan fuel' path i (uint32 (j + 1))
        else Ok false
    end.

  (** [for (uint i = 2; i < n - 1 && !has_loop; i++)] *)
Fixpoint loop_search (fuel : nat) (path : list Z) (n i : Z) (has_loop : bool)
      : res bool :=
    match fuel with
    | O => OutOfFuel
    | S fuel' =>
        if (i <? uint32 (n - 1)) && negb has_loop then
          pi ← path_at path i;
          pp ← path_at path (i - 1);
          if pi =? pp then loop_search fuel' path n (uint32 (i + 1)) has_loop
          else if pi =? Bgp.AS_TRANS
          then loop_search fuel' path n (uint32 (i + 1)) has_loop
          else
            found ← loop_scan (S (Z.to_nat i)) path i 0;
            loop_search fuel' path n (uint32 (i + 1)) (found : bool)
        else Ok has_loop
    end.

  (** The loop detection of [mrt_find_as_loops] on the [n] ASes
      collected in [path]. *)
Definition has_as_loop (path : list Z) : res bool :=
    loop_search (S (length path)) path (Z.of_nat (length path)) 2 false.

  Section filter.
    Variable realloc_ok : Z -> bool.
    Variable NDEBUG : bool.
    Variable end_other : Bgp.ubgp_msg_s -> Bgp.ubgp_msg_s.

    (** The collecting loop of [mrt_find_as_loops]:
        [while ((ent = nextaspath(vm->bgp)) != NULL) { ...; path[n++] = ent->as; }]
        with the buffer grown in the VM heap by [ASPATHSIZ] entries. *)
Fixpoint collect_path (fuel : nat) (vm : filter_vm_t) (path : list Z)
        (max vaddr : Z) : vmres (filter_vm_t * list Z * Z) :=
      match fuel with
      | O => Stop OutOfFuel
      | S fuel' =>
          match Bgp.nextaspath 3 (bgp vm) with
          | None => Stop Fault
          | Some (None, msg) => Go (set_bgp msg vm, path, max)
          | Some (Some ent, msg) =>
              let vm := set_bgp msg vm in
              if Z.of_nat (length path) =? max then
                let max := uint32 (max + ASPATHSIZ) in
                let '(vaddr, vm) := vm_heap_grow realloc_ok vm vaddr (max * 4) in
                if vaddr =? VM_BAD_HEAP_PTR then vm_abort vm VM_OUT_OF_MEMORY
                else collect_path fuel' vm (path ++ [Bgp.as_ ent]) max vaddr
              else collect_path fuel' vm (path ++ [Bgp.as_ ent]) max vaddr
          end
      end.

Definition mrt_find_as_loops (fuel : nat) (vm : filter_vm_t)
        : vmres filter_vm_t :=
      let vm := vm_exec_settle vm in
      match Bgp.startrealaspath end_other (bgp vm) with
      | None => Stop Fault
      | Some (msg, _) =>
          '(vm, path, max) ← collect_path fuel (set_bgp msg vm) [] 0 0;
          let '(msg, e) := Bgp.endaspath (bgp vm) in
          let vm := set_bgp msg vm in
          if negb (e =? Bgp.BGP_ENOERR) then vm_abort vm VM_BAD_PACKET else
          has_loop ← lift (has_as_loop path);
          vm ← lift (vm_heap_return NDEBUG vm (max * 4));
          vm_pushvalue realloc_ok vm (if (has_loop : bool) then 1 else 0)
      end.

    (** The [funcs] table as [main] fills it; the two accumulators are not
        part of this development. *)
Definition funcs (fuel : nat) (accumulate : Z -> filter_vm_t -> vmres filter_vm_t)
        (idx : Z) : option (filter_vm_t -> vmres filter_vm_t) :=
      if idx =? MRT_FIND_AS_LOOPS_FN then Some (mrt_find_as_loops fuel)
      else if (idx =? MRT_ACCUMULATE_ADDRS_FN) || (idx =? MRT_ACCUMULATE_ASES_FN)
      then Some (accumulate idx)
      else None.

    (** [setup_filter] when no option but [-l] or [-L] is given: the
        blocks of the other options emit nothing. *)
Definition setup_filter (flags : Z) (vm : filter_vm_t) : option filter_vm_t :=
      vm ← (if negb (Z.land flags AS_LOOP_MASK =? 0) then
              vm ← vm_emit realloc_ok vm (vm_makeop FOPC_CALL MRT_FIND_AS_LOOPS_FN);
              vm ← (if negb (Z.land flags KEEP_AS_LOOPS =? 0)
                    then vm_emit realloc_ok vm FOPC_NOT else Some vm);
              vm_emit realloc_ok vm FOPC_CFAIL
            else Some vm);
      vm_emit realloc_ok vm (vm_makeop FOPC_LOAD 1).

  End filter.

End Bgpgrep.

(** ** strutil.h and netaddr.c: printing and parsing of addresses *)

Module NetAddrText.
Import NetAddr.

Definition NADDR_CIDR : Z := 0.
Definition NADDR_PLAIN : Z := 1.

(** ["0123456789abcdef"[d]] *)
Definition digit_char (d : Z) : ascii :=
  if d <? 10 then ascii_of_nat (Z.to_nat (48 + d))
  else ascii_of_nat (Z.to_nat (87 + d)).

(** The [do { *--ptr = digit; val /= base; } while (val > 0)] loop of
    [utoa] (base 10) and [xtoa] (base 16); the buffer of the source holds
    every digit of a [uint], which is what the fuel stands for. *)
Fixpoint digits_loop (fuel : nat) (base val : Z) (acc : string) : string :=
  match fuel with
  | O => acc
  | S fuel' =>
      let acc := String (digit_char (val mod base)) acc in
      let val := val / base in
      if 0 <? val then digits_loop fuel' base val acc else acc
  end.

Definition utoa (u : Z) : string := digits_loop 10 10 u EmptyString.
Definition xtoa (val : Z) : string := digits_loop 8 16 val EmptyString.

Definition colon : ascii := ":"%char.
Definition zero : ascii := "0"%char.

(** The inner loop of the compression: how many characters from the
    start are [':'] or ['0']. *)
Fixpoint zero_run (s : string) : nat :=
  match s with
  | EmptyString => 0
  | String c s' =>
      if negb (Ascii.eqb c colon) && negb (Ascii.eqb c zero) then 0%nat
      else S (zero_run s')
  end.

(** The outer loop [for (i = best = 0, max = 2; buf[i] != '\0'; i++)]:
    [s] is the text from [buf + i] on; the result is [(best, max)]. *)
Fixpoint best_run (s : string) (i : nat) (best max : nat) : nat * nat :=
  match s with
  | EmptyString => (best, max)
  | String c s' =>
      if (0 <? i)%nat && negb (Ascii.eqb c colon) then best_run s' (S i) best max
      else
        let n := zero_run s in
        if (max <? n)%nat then best_run s' (S i) i n
        else best_run s' (S i) best max
  end.

Fixpoint skipn_string (n : nat) (s : string) : string :=
  match n, s with
  | O, _ => s
  | S n', String _ s' => skipn_string n' s'
  | S _, EmptyString => EmptyString
  end.

Fixpoint firstn_string (n : nat) (s : string) : string :=
  match n, s with
  | O, _ => EmptyString
  | S n', String c s' => String c (firstn_string n' s')
  | S _, EmptyString => EmptyString
  end.

(** The replacement of the longest run by ["::"], by [memmove]. *)
Definition compress (buf : string) : string :=
  let '(best, max) := best_run buf 0 0 2 in
  if (3 <? max)%nat
  then (firstn_string best buf ++ "::" ++ skipn_string (best + max) buf)%string
  else buf.

Definition dotted (a : netaddr_t) : string :=
  (utoa (byte_at a 0) ++ "." ++ utoa (byte_at a 1) ++ "."
   ++ utoa (byte_at a 2) ++ "." ++ utoa (byte_at a 3))%string.

Definition group (a : netaddr_t) (k : Z) : string := xtoa (beswap16 (u16_at a k)).

(** [naddrtos] *)
Definition naddrtos (ip : netaddr_t) (mode : Z) : string :=
  let suffix (body : string) :=
    if mode =? NADDR_CIDR then (body ++ "/" ++ utoa (bitlen ip))%string
    else body in
  if family ip =? AF_INET then suffix (dotted ip)
  else if family ip =? AF_INET6 then
    if (u32_at ip 0 =? 0) && (u32_at ip 1 =? 0) && (u16_at ip 4 =? 0)
       && (u16_at ip 5 =? 255)
    then suffix ("::ffff:" ++ dotted ip)%string
    else
      suffix (compress (group ip 0 ++ ":" ++ group ip 1 ++ ":" ++ group ip 2
                        ++ ":" ++ group ip 3 ++ ":" ++ group ip 4 ++ ":"
                        ++ group ip 5 ++ ":" ++ group ip 6 ++ ":"
                        ++ group ip 7)%string)
  else "invalid"%string.

(** [saddrfamily] on a non-null string. *)
Fixpoint saddrfamily_loop (fuel : nat) (s : string) : Z :=
  match fuel with
  | O =>
      match s with
      | String c _ => if Ascii.eqb c colon then AF_INET6 else AF_UNSPEC
      | EmptyString => AF_UNSPEC
      end
  | S fuel' =>
      match s with
      | EmptyString => AF_UNSPEC
      | String c s' =>
          if Ascii.eqb c "."%char then AF_INET
          else if Ascii.eqb c colon then AF_INET6
          else saddrfamily_loop fuel' s'
      end
  end.

Definition saddrfamily (s : string) : Z := saddrfamily_loop 4 s.

(** [strrchr(s, '/')]: the text before the last ['/'] and the text after
    it, when there is one. *)
Fixpoint split_last_slash (s : string) : option (string * string) :=
  match s with
  | EmptyString => None
  | String c s' =>
      match split_last_slash s' with
      | Some (before, after) => Some (String c before, after)
      | None => if Ascii.eqb c "/"%char then Some (EmptyString, s') else None
      end
  end.

Section libc.
(** [strtol(last, &endptr, 10)] of the C library: the value, the text
    left at [endptr], and whether it set [errno]. *)
Variable strtol : string -> Z * string * bool.
(** [inet_pton(af, buf, dst)] of the C library: the bytes written to
    [dst] (4 or 16) when it returns 1. *)
Variable inet_pton : Z -> string -> option (list Z).

(** [stonaddr]: the value returned and the address left in [*ip]. *)
Definition stonaddr (s : string) : Z * netaddr_t :=
  let af := saddrfamily s in
  let maxbitlen := if af =? AF_INET6 then 128 else 32 in
  let blank := mk_netaddr AF_UNSPEC 0 (repeat 0 16%nat) in
  let parsed :=
    match split_last_slash s with
    | Some (before, last) =>
        let '(bitlen, endptr, erange) := strtol last in
        let errno := erange || (bitlen <? 0) || (maxbitlen <? bitlen) in
        let errno := errno || String.eqb last endptr
                     || negb (String.eqb endptr EmptyString) in
        if errno then None else Some (before, bitlen)
    | None => Some (s, maxbitlen)
    end in
  match parsed with
  | None => (-1, blank)
  | Some (buf, bitlen) =>
      match inet_pton af buf with
      | None => (-1, blank)
      | Some dst =>
          (0, mk_netaddr af bitlen (dst ++ drop (length dst) (repeat 0 16%nat))%list)
      end
  end.

End libc.

End NetAddrText.

(** * Properties *)

(** ** Prefix comparison *)

Module NetAddrFacts.
Import NetAddr.

(** Two IPv6 payloads that differ in byte 6 only (bit 55). *)
Definition addr_bit55_set : netaddr_t :=
  mk_netaddr AF_INET6 128 [0; 0; 0; 0; 0; 0; 1; 0; 0; 0; 0; 0; 0; 0; 0; 0].
Definition addr_zero : netaddr_t :=
  mk_netaddr AF_INET6 128 (repeat 0 16%nat).

(** C2 (failing input).  With a mask of 56 bits [prefixeqwithmask] answers
    true for two addresses whose first 56 bits differ: the label [case 56]
    compares [addr->bytes[6]] with itself, so byte 6 (bits 48 to 55) is
    never compared with the other address. *)
Theorem prefixeqwithmask_56_ignores_byte6 :
  prefixeqwithmask addr_bit55_set addr_zero 56 = Some true
  /\ wf_bytes addr_bit55_set /\ wf_bytes addr_zero
  /\ ~ first_bits_eq addr_bit55_set addr_zero 56.
Proof.
  split; [vm_compute; reflexivity|].
  split; [split; [reflexivity | repeat constructor; lia]|].
  split; [split; [reflexivity | repeat constructor; lia]|].
  intros H. specialize (H 55 ltac:(lia)). vm_compute in H. discriminate.
Qed.

End NetAddrFacts.

(** ** Filter VM heap *)

Module HeapFacts.
Import FilterVm.

Definition blank_msg : Bgp.ubgp_msg_s :=
  Bgp.mk_msg 0 0 0 None None None None [] [] 0 0 0 (Bgp.mk_pathent 0 0 0 0).

(** A machine from [filter_init] whose heap holds [hs] bytes (none, and
    a [NULL] heap pointer, when [hs] is 0), with the two marks set. *)
Definition heap_vm (hw dm hs : Z) : filter_vm_t :=
  set_heap hw dm hs (set_heapbuf (negb (hs =? 0)) hs (filter_init blank_msg)).

Lemma vm_heap_ensure_marks realloc_ok vm size vm' :
  vm_heap_ensure realloc_ok vm size = Some vm' ->
  highwater vm' = highwater vm /\ dynmarker vm' = dynmarker vm.
Proof.
  unfold vm_heap_ensure. intros H.
  destruct (_ <=? _).
  - destruct (heap vm); inversion H. done.
  - destruct (realloc_ok _); inversion H. done.
Qed.

(** C7 (counterexample).  On a fresh machine a PERM allocation of 16 bytes
    followed by a TEMP allocation of 16 bytes is served: the TEMP request
    returns the offset 32 (the PERM request took one aligned unit), not
    the bad-heap-pointer sentinel. *)
Lemma temp_after_perm_is_served :
  exists vm1 vm2,
    vm_heap_alloc (fun _ => true) true (heap_vm 0 0 0) 16 VM_HEAP_PERM = Ok (0, vm1)
    /\ vm_heap_alloc (fun _ => true) true vm1 16 VM_HEAP_TEMP = Ok (32, vm2)
    /\ 32 <> VM_BAD_HEAP_PTR.
Proof.
  eexists _, _. split; [vm_compute; reflexivity|].
  split; [vm_compute; reflexivity|]. discriminate.
Qed.

(** On a machine fresh from [filter_init] the heap pointer is [NULL] and
    a request of size 0 finds the room it needs: [vm_heap_ensure] returns
    that pointer and the request is refused, in either zone. *)
Lemma empty_request_on_fresh_machine zone :
  vm_heap_alloc (fun _ => true) true (heap_vm 0 0 0) 0 zone
  = Ok (VM_BAD_HEAP_PTR, heap_vm 0 0 0).
Proof. destruct zone; vm_compute; reflexivity. Qed.

(** While TEMP memory is allocated ([dynmarker > 0]) a PERM request is
    refused, with the sentinel [VM_BAD_HEAP_PTR] and both marks unchanged
    (or by the failed [assert] in a build that keeps asserts). *)
Lemma perm_after_temp_is_refused realloc_ok NDEBUG vm size :
  0 < dynmarker vm ->
  (exists vm',
      vm_heap_alloc realloc_ok NDEBUG vm size VM_HEAP_PERM = Ok (VM_BAD_HEAP_PTR, vm')
      /\ highwater vm' = highwater vm /\ dynmarker vm' = dynmarker vm)
  \/ (NDEBUG = false
      /\ vm_heap_alloc realloc_ok NDEBUG vm size VM_HEAP_PERM = AssertFailed).
Proof.
  intros Hd. unfold vm_heap_alloc.
  destruct (vm_heap_ensure realloc_ok vm (align_size size)) as [vm'|] eqn:E.
  - destruct (vm_heap_ensure_marks _ _ _ _ E) as [Hh Hm].
    cbn [VM_HEAP_PERM]. rewrite Hm.
    destruct (Z.ltb_spec 0 (dynmarker vm)); [|lia].
    destruct NDEBUG; [left; exists vm'; done | right; done].
  - left. exists vm. done.
Qed.

(** A TEMP request for which [vm_heap_ensure] finds or makes room is
    served at [highwater + dynmarker], whatever the high-water mark: no
    test of the TEMP case looks at the PERM allocations made before. *)
Lemma temp_is_served realloc_ok NDEBUG vm size vm0 :
  vm_heap_ensure realloc_ok vm (align_size size) = Some vm0 ->
  vm_heap_alloc realloc_ok NDEBUG vm size VM_HEAP_TEMP
  = Ok (highwater vm + dynmarker vm,
        set_heap (highwater vm) (uint32 (dynmarker vm + align_size size))
          (heapsiz vm0) vm0).
Proof.
  intros E. unfold vm_heap_alloc. rewrite E.
  destruct (vm_heap_ensure_marks _ _ _ _ E) as [Hh Hm].
  cbv iota. cbn [VM_HEAP_TEMP]. rewrite Hh, Hm. reflexivity.
Qed.

(** C7 (amended).  The zone discipline [vm_heap_alloc] enforces is the
    converse of the claim's.  A PERM request made while TEMP memory is
    allocated ([dynmarker > 0]) is refused, with the sentinel
    [VM_BAD_HEAP_PTR] and both marks unchanged (or by the failed [assert]
    in a build that keeps asserts).  A TEMP request is never refused on
    account of PERM allocations: whenever [vm_heap_ensure] finds or makes
    room it is served at the offset [highwater + dynmarker], which is not
    the sentinel, the high-water mark stays and [dynmarker] goes up by the
    aligned size. *)
Theorem heap_zone_discipline realloc_ok NDEBUG vm size :
  0 <= highwater vm -> 0 <= dynmarker vm ->
  (0 < dynmarker vm ->
   (exists vm',
       vm_heap_alloc realloc_ok NDEBUG vm size VM_HEAP_PERM
       = Ok (VM_BAD_HEAP_PTR, vm')
       /\ highwater vm' = highwater vm /\ dynmarker vm' = dynmarker vm)
   \/ (NDEBUG = false
       /\ vm_heap_alloc realloc_ok NDEBUG vm size VM_HEAP_PERM = AssertFailed))
  /\ (forall vm0,
        vm_heap_ensure realloc_ok vm (align_size size) = Some vm0 ->
        exists vm',
          vm_heap_alloc realloc_ok NDEBUG vm size VM_HEAP_TEMP
          = Ok (highwater vm + dynmarker vm, vm')
          /\ highwater vm + dynmarker vm <> VM_BAD_HEAP_PTR
          /\ highwater vm' = highwater vm
          /\ dynmarker vm' = uint32 (dynmarker vm + align_size size)).
Proof.
  intros Hh Hd. split.
  - apply perm_after_temp_is_refused.
  - intros vm0 E. eexists. split; [apply (temp_is_served _ _ _ _ _ E)|].
    split; [unfold VM_BAD_HEAP_PTR; lia|]. split; reflexivity.
Qed.

Lemma heap_zone_discipline_witness :
  (exists vm',
      vm_heap_alloc (fun _ => true) true (heap_vm 32 32 512) 16 VM_HEAP_PERM
      = Ok (VM_BAD_HEAP_PTR, vm')
      /\ highwater vm' = 32 /\ dynmarker vm' = 32)
  /\ (exists vm',
        vm_heap_alloc (fun _ => true) true (heap_vm 32 32 512) 16 VM_HEAP_TEMP
        = Ok (64, vm')
        /\ highwater vm' = 32 /\ dynmarker vm' = 64).
Proof.
  destruct (heap_zone_discipline (fun _ => true) true (heap_vm 32 32 512) 16)
    as [Hperm Htemp].
  - vm_compute. discriminate.
  - vm_compute. discriminate.
  - split.
    + destruct Hperm as [H|[H _]]; [reflexivity|exact H|discriminate H].
    + destruct (Htemp (heap_vm 32 32 512)) as (vm' & H1 & _ & H2 & H3);
        [vm_compute; reflexivity|].
      exists vm'. split; [exact H1|]. split; [exact H2|].
      rewrite H3. vm_compute. reflexivity.
Defined.

End HeapFacts.

(** ** Filter VM outcomes *)

Module VmFacts.
Import FilterVm.

(** A machine as [filter_init] leaves it and as a run without [STORE]
    keeps it: the two reserved tries are there with their family and hold
    no page, and the stack buffer has [stacksiz] cells. *)
Record ready (vm : filter_vm_t) : Prop := mk_ready {
  ready_ntries : 2 <= ntries vm;
  ready_tries : exists t4 t6 rest,
    tries vm = t4 :: t6 :: rest
    /\ Patricia.maxbitlen t4 = 32 /\ Patricia.maxbitlen t6 = 128
    /\ Patricia.pages t4 = [] /\ Patricia.pages t6 = [];
  ready_stack : stacksiz vm = Z.of_nat (length (sp vm)) /\ 0 < stacksiz vm
}.

(** The prologue of [bgp_filter], up to the interpreter loop. *)
Definition prologue (msg : Bgp.ubgp_msg_s) (vm : filter_vm_t) : vmres filter_vm_t :=
  let vm := set_error 0 (set_heap (highwater vm) 0 (heapsiz vm)
              (vm_clearstack (set_curblk 0 (set_pc 0 (set_bgp msg vm))))) in
  vm ← vm_exec_settrie vm VM_TMPTRIE;
  vm ← vm_exec_settrie6 vm VM_TMPTRIE6;
  vm ← vm_exec_clrtrie vm;
  vm_exec_clrtrie6 vm.

(** The nesting depth a program of [NOP], [BLK] and [ENDBLK] instructions
    ends with, from depth [d]; [None] when another instruction occurs or an
    [ENDBLK] finds no block open. *)
Fixpoint blk_depth (c : list Z) (d : Z) : option Z :=
  match c with
  | [] => Some d
  | ip :: c' =>
      if vm_getopcode ip =? FOPC_NOP then blk_depth c' d
      else if vm_getopcode ip =? FOPC_BLK then blk_depth c' (d + 1)
      else if vm_getopcode ip =? FOPC_ENDBLK then
        if d =? 0 then None else blk_depth c' (d - 1)
      else None
  end.

Section facts.
Variable realloc_ok : Z -> bool.
Variable malloc : nat -> Z.
Variable funcs : Z -> option (filter_vm_t -> vmres filter_vm_t).
Variable intrin : Z -> Z -> filter_vm_t -> vmres filter_vm_t.

Local Abbreviation run := (bgp_filter realloc_ok malloc funcs intrin).
Local Abbreviation body := (filter_body realloc_ok malloc funcs intrin).
Local Abbreviation loop := (exec_loop realloc_ok malloc funcs intrin).
Local Abbreviation insn := (exec_insn realloc_ok malloc funcs intrin).

Lemma uint16_small x : 0 <= x < 65536 -> uint16 x = x.
Proof. intros. unfold uint16, wrap. apply Z.mod_small. lia. Qed.

Lemma uint32_small x : 0 <= x < 4294967296 -> uint32 x = x.
Proof. intros. unfold uint32, wrap. apply Z.mod_small. lia. Qed.

Lemma settrie_go vm tr :
  2 <= ntries vm -> tries vm !! 0%nat = Some tr -> Patricia.maxbitlen tr = 32 ->
  vm_exec_settrie vm VM_TMPTRIE = Go (set_curtrie (Some 0) vm).
Proof.
  intros Hn Hl Hm. unfold vm_exec_settrie, VM_TMPTRIE.
  rewrite uint32_small by lia.
  destruct (Z.leb_spec (ntries vm) 0); [lia|].
  unfold trie_at. cbn [Z.ltb Z.compare tries set_curtrie].
  change (Z.to_nat 0) with 0%nat.
  rewrite Hl. cbn [of_option lift mbind vmres_bind].
  rewrite Hm. reflexivity.
Qed.

Lemma settrie6_go vm tr :
  2 <= ntries vm -> tries vm !! 1%nat = Some tr -> Patricia.maxbitlen tr = 128 ->
  vm_exec_settrie6 vm VM_TMPTRIE6 = Go (set_curtrie6 (Some 1) vm).
Proof.
  intros Hn Hl Hm. unfold vm_exec_settrie6, VM_TMPTRIE6.
  rewrite uint32_small by lia.
  destruct (Z.leb_spec (ntries vm) 1); [lia|].
  unfold trie_at. cbn [Z.ltb Z.compare tries set_curtrie6].
  change (Z.to_nat 1) with 1%nat.
  rewrite Hl. cbn [of_option lift mbind vmres_bind].
  rewrite Hm. reflexivity.
Qed.

Lemma patclear_nopages t :
  Patricia.pages t = [] ->
  Patricia.patclear t
  = Ok (Patricia.set_freenodes 0 (Patricia.set_nprefs 0 (Patricia.set_head 0 t))).
Proof. intros H. unfold Patricia.patclear. rewrite H. reflexivity. Qed.

Definition cleared (t : Patricia.patricia_trie_t) : Patricia.patricia_trie_t :=
  Patricia.set_freenodes 0 (Patricia.set_nprefs 0 (Patricia.set_head 0 t)).

Lemma clrtrie_go vm t :
  curtrie vm = Some 0 -> tries vm !! 0%nat = Some t -> Patricia.pages t = [] ->
  vm_exec_clrtrie vm = Go (set_trie 0 (cleared t) vm).
Proof.
  intros Hc Hl Hp. unfold vm_exec_clrtrie. rewrite Hc.
  cbn [cur_trie mbind vmres_bind]. unfold trie_at.
  cbn [Z.ltb Z.compare]. change (Z.to_nat 0) with 0%nat. rewrite Hl.
  cbn [of_option lift mbind vmres_bind].
  rewrite (patclear_nopages t Hp). reflexivity.
Qed.

Lemma clrtrie6_go vm t :
  curtrie6 vm = Some 1 -> tries vm !! 1%nat = Some t -> Patricia.pages t = [] ->
  vm_exec_clrtrie6 vm = Go (set_trie 1 (cleared t) vm).
Proof.
  intros Hc Hl Hp. unfold vm_exec_clrtrie6. rewrite Hc.
  cbn [cur_trie mbind vmres_bind]. unfold trie_at.
  cbn [Z.ltb Z.compare]. change (Z.to_nat 1) with 1%nat. rewrite Hl.
  cbn [of_option lift mbind vmres_bind].
  rewrite (patclear_nopages t Hp). reflexivity.
Qed.

Lemma bind_go {A B} (a : A) (f : A -> vmres B) : (Go a ≫= f) = f a.
Proof. reflexivity. Qed.

Lemma prologue_go msg vm t4 t6 rest :
  2 <= ntries vm -> tries vm = t4 :: t6 :: rest ->
  Patricia.maxbitlen t4 = 32 -> Patricia.maxbitlen t6 = 128 ->
  Patricia.pages t4 = [] -> Patricia.pages t6 = [] ->
  prologue msg vm =
  Go (set_trie 1 (cleared t6) (set_trie 0 (cleared t4) (set_curtrie6 (Some 1)
       (set_curtrie (Some 0)
         (set_error 0 (set_heap (highwater vm) 0 (heapsiz vm)
            (vm_clearstack (set_curblk 0 (set_pc 0 (set_bgp msg vm)))))))))).
Proof.
  intros Hn Ht H4 H6 P4 P6.
  unfold prologue.
  erewrite settrie_go; [|exact Hn|destruct vm; cbn in Ht |- *; rewrite Ht; reflexivity|exact H4].
  rewrite bind_go.
  erewrite settrie6_go; [|exact Hn|destruct vm; cbn in Ht |- *; rewrite Ht; reflexivity|exact H6].
  rewrite bind_go.
  erewrite clrtrie_go; [|reflexivity|destruct vm; cbn in Ht |- *; rewrite Ht; reflexivity|exact P4].
  rewrite bind_go.
  erewrite clrtrie6_go; [|reflexivity| |exact P6].
  2:{ destruct vm; cbn in Ht |- *; rewrite Ht; reflexivity. }
  reflexivity.
Qed.

Lemma prologue_ready msg vm :
  ready vm ->
  exists vm0, prologue msg vm = Go vm0
    /\ ready vm0 /\ pc vm0 = 0 /\ si vm0 = 0 /\ curblk vm0 = 0
    /\ code vm0 = code vm /\ codesiz vm0 = codesiz vm
    /\ sp vm0 = sp vm /\ settle_func vm0 = settle_func vm.
Proof.
  intros [Hn (t4 & t6 & rest & Ht & H4 & H6 & P4 & P6) [Hs Hs']].
  eexists. split; [exact (prologue_go msg vm t4 t6 rest Hn Ht H4 H6 P4 P6)|].
  destruct vm; cbn in Hn, Ht, Hs, Hs' |- *. subst tries0.
  split; [|repeat split; reflexivity].
  split; cbn; [exact Hn| |split; [exact Hs|exact Hs']].
  eexists _, _, rest. split; [reflexivity|]. cbn. done.
Qed.

(** The epilogue of [bgp_filter], from the label [done]. *)
Definition epilogue (vm : filter_vm_t) : vmres (Z * filter_vm_t) :=
  let vm := vm_exec_settle vm in
  if 0 <? curblk vm then vm_abort vm VM_DANGLING_BLK else
  '(i, vm) ← vm_pop vm;
  c ← cell_at vm i;
  v ← lift (cell_value c);
  Go (if negb (v =? 0) then 1 else 0, vm).

Lemma filter_body_eq fuel msg vm :
  body fuel msg vm = (vm ← prologue msg vm; vm ← loop fuel vm 0; epilogue vm).
Proof.
  unfold filter_body, prologue, epilogue.
  destruct (vm_exec_settrie _ _) as [vm1| |]; [|reflexivity..].
  rewrite !bind_go.
  destruct (vm_exec_settrie6 _ _) as [vm2| |]; [|reflexivity..].
  rewrite !bind_go.
  destruct (vm_exec_clrtrie _) as [vm3| |]; [|reflexivity..].
  rewrite !bind_go.
  destruct (vm_exec_clrtrie6 _) as [vm4| |]; [|reflexivity..].
  rewrite !bind_go. reflexivity.
Qed.

Lemma loop_step fuel vm ex ip :
  pc vm < codesiz vm -> code vm !! Z.to_nat (pc vm) = Some ip ->
  loop (S fuel) vm ex =
  ('(vm', ex', done) ← insn (S fuel) (set_pc (uint16 (pc vm + 1)) vm) ip ex;
   if (done : bool) then Go vm' else loop fuel vm' ex').
Proof.
  intros Hpc Hip. cbn [exec_loop].
  destruct (Z.ltb_spec (pc vm) (codesiz vm)); [|lia].
  rewrite Hip. reflexivity.
Qed.

Lemma loop_end fuel vm ex :
  codesiz vm <= pc vm -> loop (S fuel) vm ex = Go vm.
Proof.
  intros Hpc. cbn [exec_loop].
  destruct (Z.ltb_spec (pc vm) (codesiz vm)); [lia|]. reflexivity.
Qed.

Lemma insn_nop fuel vm ip ex :
  vm_getopcode ip = FOPC_NOP -> insn fuel vm ip ex = Go (vm, ex, false).
Proof. intros H. unfold exec_insn. rewrite H. reflexivity. Qed.

Lemma insn_blk fuel vm ip ex :
  vm_getopcode ip = FOPC_BLK ->
  insn fuel vm ip ex = Go (set_curblk (uint16 (curblk vm + 1)) vm, ex, false).
Proof. intros H. unfold exec_insn. rewrite H. reflexivity. Qed.

Lemma insn_endblk fuel vm ip ex :
  vm_getopcode ip = FOPC_ENDBLK ->
  insn fuel vm ip ex =
    if curblk vm =? 0 then vm_abort vm VM_SPURIOUS_ENDBLK
    else Go (set_curblk (uint16 (curblk vm - 1)) vm, ex, false).
Proof. intros H. unfold exec_insn. rewrite H. reflexivity. Qed.

Lemma insn_load fuel vm ip ex :
  vm_getopcode ip = FOPC_LOAD ->
  insn fuel vm ip ex =
    (vm ← vm_pushvalue realloc_ok vm (vm_extendarg (vm_getarg ip) ex);
     Go (vm, 0, false)).
Proof. intros H. unfold exec_insn. rewrite H. reflexivity. Qed.

Lemma pushvalue_go vm v :
  0 <= si vm < stacksiz vm -> stacksiz vm = Z.of_nat (length (sp vm)) ->
  si vm + 1 < 65536 ->
  vm_pushvalue realloc_ok vm v =
    Go (set_si (si vm + 1)
          (set_stack (<[Z.to_nat (si vm) := CValue v]> (sp vm)) (stacksiz vm) vm)).
Proof.
  intros Hsi Hs Hlt. unfold vm_pushvalue, vm_push.
  destruct (Z.eqb_spec (si vm) (stacksiz vm)); [lia|].
  rewrite bind_go. unfold set_cell.
  destruct (Z.leb_spec 0 (si vm)); [|lia].
  destruct (Z.ltb_spec (si vm) (Z.of_nat (length (sp vm)))); [|lia].
  cbn [andb]. rewrite bind_go.
  destruct vm; cbn in *. rewrite uint16_small by lia. reflexivity.
Qed.

Lemma makeop_load k :
  0 <= k < 256 ->
  vm_getopcode (vm_makeop FOPC_LOAD k) = FOPC_LOAD
  /\ vm_extendarg (vm_getarg (vm_makeop FOPC_LOAD k)) 0 = k.
Proof.
  intros Hk.
  assert (forallb (fun k => (vm_getopcode (vm_makeop FOPC_LOAD k) =? FOPC_LOAD)
                            && (vm_extendarg (vm_getarg (vm_makeop FOPC_LOAD k)) 0 =? k))
                  (seqZ 0 256) = true) as H by (vm_compute; reflexivity).
  rewrite forallb_forall in H. specialize (H k).
  rewrite <- list_elem_of_In, elem_of_seqZ in H.
  specialize (H ltac:(lia)). apply andb_true_iff in H as [H1 H2].
  split; lia.
Qed.

Lemma settle_keeps vm :
  curblk (vm_exec_settle vm) = curblk vm /\ si (vm_exec_settle vm) = si vm
  /\ sp (vm_exec_settle vm) = sp vm /\ tries (vm_exec_settle vm) = tries vm
  /\ ntries (vm_exec_settle vm) = ntries vm
  /\ stacksiz (vm_exec_settle vm) = stacksiz vm.
Proof. unfold vm_exec_settle. destruct (settle_func vm); repeat split. Qed.

Lemma settle_error vm : error (vm_exec_settle vm) = error vm.
Proof. unfold vm_exec_settle. destruct (settle_func vm); reflexivity. Qed.

Lemma epilogue_value vm v :
  curblk vm = 0 -> 0 < si vm < 65536 ->
  sp vm !! Z.to_nat (si vm - 1) = Some (CValue v) ->
  epilogue vm
  = Go (if negb (v =? 0) then 1 else 0, set_si (si vm - 1) (vm_exec_settle vm)).
Proof.
  intros Hb Hsi Hv. unfold epilogue.
  destruct (settle_keeps vm) as (Eb & Es & Ep & _).
  cbv zeta. rewrite Eb, Hb. cbn [Z.ltb Z.compare].
  unfold vm_pop. rewrite Es.
  destruct (Z.eqb_spec (si vm) 0); [lia|].
  rewrite bind_go. rewrite uint16_small by lia.
  unfold cell_at. destruct (Z.ltb_spec (si vm - 1) 0); [lia|].
  replace (sp (set_si (si vm - 1) (vm_exec_settle vm))) with (sp vm)
    by (rewrite <- Ep; destruct (vm_exec_settle vm); reflexivity).
  rewrite Hv. reflexivity.
Qed.

Lemma epilogue_dangling vm :
  0 < curblk vm ->
  epilogue vm = Abort (set_error VM_DANGLING_BLK (vm_exec_settle vm)).
Proof.
  intros Hb. unfold epilogue. cbv zeta.
  destruct (settle_keeps vm) as (Eb & _). rewrite Eb.
  destruct (Z.ltb_spec 0 (curblk vm)); [|lia]. reflexivity.
Qed.

(** [LOAD k] alone: the outcome is PASS when [k] is not 0 and FAIL when
    it is, on every message, and the machine stays ready for the next. *)
Lemma load_outcome msg vm fuel k :
  ready vm -> code vm = [vm_makeop FOPC_LOAD k] -> codesiz vm = 1 ->
  0 <= k < 256 ->
  exists vm',
    run (S (S fuel)) msg vm = Ok (if k =? 0 then FILTER_FAIL else FILTER_PASS, vm')
    /\ ready vm'.
Proof.
  intros Hr Hc Hz Hk.
  destruct (prologue_ready msg vm Hr)
    as (vm0 & Hp & Hr0 & Hpc & Hsi & Hblk & Hcode & Hcsz & Hsp & Hsf).
  destruct (makeop_load k Hk) as [Hop Harg].
  destruct Hr0 as [Hn0 Ht0 [Hs0 Hs0']].
  unfold bgp_filter. rewrite filter_body_eq, Hp, bind_go.
  rewrite (loop_step _ vm0 0 (vm_makeop FOPC_LOAD k));
    [|lia|rewrite Hpc, Hcode, Hc; reflexivity].
  rewrite insn_load by exact Hop. rewrite Harg.
  rewrite pushvalue_go;
    [|destruct vm0; cbn in *; lia|destruct vm0; cbn in *; lia
     |destruct vm0; cbn in *; lia].
  rewrite !bind_go. cbn match.
  rewrite loop_end; [|destruct vm0; cbn in *; rewrite uint16_small; lia].
  rewrite bind_go.
  assert (exists c0 sp0, sp vm0 = c0 :: sp0) as (c0 & sp0 & Esp).
  { destruct (sp vm0) as [|c0 sp0]; [cbn in Hs0; lia|]. eauto. }
  rewrite (epilogue_value _ k);
    [|destruct vm0; cbn in *; lia|destruct vm0; cbn in *; lia
     |destruct vm0; cbn in *; rewrite Hsi, Esp; reflexivity].
  eexists. split.
  { destruct (Z.eqb_spec k 0); reflexivity. }
  destruct (settle_keeps
              (set_si (si (set_pc (uint16 (pc vm0 + 1)) vm0) + 1)
                 (set_stack
                    (<[Z.to_nat (si (set_pc (uint16 (pc vm0 + 1)) vm0)):=CValue k]>
                       (sp (set_pc (uint16 (pc vm0 + 1)) vm0)))
                    (stacksiz (set_pc (uint16 (pc vm0 + 1)) vm0))
                    (set_pc (uint16 (pc vm0 + 1)) vm0))))
    as (_ & _ & Ep & Et & En & Ess).
  set (vmf := vm_exec_settle _) in *.
  split.
  - destruct vmf; cbn in *. rewrite En. destruct vm0; exact Hn0.
  - destruct vmf; cbn in *. rewrite Et. destruct vm0; exact Ht0.
  - destruct vmf; cbn in *. rewrite Ess, Ep.
    destruct vm0; cbn in *. rewrite length_insert. split; [exact Hs0|exact Hs0'].
Qed.

Lemma loop_blocks c : forall pre vm d d' ex fuel,
  code vm = pre ++ c -> pc vm = Z.of_nat (length pre) ->
  codesiz vm = Z.of_nat (length (pre ++ c)) -> codesiz vm < 65536 ->
  curblk vm = d -> 0 <= d <= Z.of_nat (length pre) ->
  blk_depth c d = Some d' -> (length c < fuel)%nat ->
  exists vm', loop fuel vm ex = Go vm' /\ curblk vm' = d'.
Proof.
  induction c as [|ip c IH]; intros pre vm d d' ex fuel Hc Hpc Hsz Hlt Hd Hdr Hb Hf.
  - destruct fuel as [|fuel]; [cbn in Hf; lia|].
    rewrite loop_end by (rewrite Hsz, Hpc, app_nil_r; lia).
    cbn in Hb. exists vm. split; [reflexivity|congruence].
  - destruct fuel as [|fuel]; [cbn in Hf; lia|].
    rewrite length_app in Hsz. cbn [length] in Hsz, Hf.
    rewrite (loop_step _ vm ex ip);
      [|lia|rewrite Hc, Hpc, Nat2Z.id, lookup_app_r, Nat.sub_diag by lia; reflexivity].
    assert (Hpc1 : uint16 (pc vm + 1) = Z.of_nat (length (pre ++ [ip]))).
    { rewrite uint16_small by lia. rewrite length_app. cbn [length]. lia. }
    assert (Hc1 : code vm = (pre ++ [ip]) ++ c) by (rewrite <- app_assoc; exact Hc).
    assert (Hsz1 : codesiz vm = Z.of_nat (length ((pre ++ [ip]) ++ c))).
    { rewrite !length_app. cbn [length]. lia. }
    assert (Hl1 : Z.of_nat (length (pre ++ [ip])) = Z.of_nat (length pre) + 1).
    { rewrite length_app. cbn [length]. lia. }
    cbn [blk_depth] in Hb.
    destruct (Z.eqb_spec (vm_getopcode ip) FOPC_NOP) as [Hop|_].
    { rewrite insn_nop by exact Hop. rewrite bind_go. cbn match.
      eapply (IH (pre ++ [ip]) _ d); try eassumption;
        try (destruct vm; cbn in *; first [eassumption|lia]); lia. }
    destruct (Z.eqb_spec (vm_getopcode ip) FOPC_BLK) as [Hop|_].
    { rewrite insn_blk by exact Hop. rewrite bind_go. cbn match.
      eapply (IH (pre ++ [ip]) _ (d + 1)); try eassumption;
        try (destruct vm; cbn in *; first [eassumption|lia]); try lia.
      destruct vm; cbn in *. rewrite uint16_small by lia. lia. }
    destruct (Z.eqb_spec (vm_getopcode ip) FOPC_ENDBLK) as [Hop|_]; [|discriminate].
    destruct (Z.eqb_spec d 0) as [Hd0|Hd0]; [discriminate|].
    rewrite insn_endblk by exact Hop.
    replace (curblk (set_pc (uint16 (pc vm + 1)) vm)) with d
      by (destruct vm; cbn in *; congruence).
    destruct (Z.eqb_spec d 0); [lia|]. rewrite bind_go. cbn match.
    eapply (IH (pre ++ [ip]) _ (d - 1)); try eassumption;
      try (destruct vm; cbn in *; first [eassumption|lia]); try lia.
    destruct vm; cbn in *. rewrite uint16_small by lia. reflexivity.
Qed.

(** A program of [NOP], [BLK] and [ENDBLK] that ends with a block open is
    answered with [VM_DANGLING_BLK]. *)
Lemma dangling_blk msg vm fuel d :
  ready vm -> codesiz vm = Z.of_nat (length (code vm)) -> codesiz vm < 65536 ->
  (length (code vm) < fuel)%nat ->
  blk_depth (code vm) 0 = Some d -> 0 < d ->
  exists vm', run fuel msg vm = Ok (VM_DANGLING_BLK, vm').
Proof.
  intros Hr Hsz Hlt Hf Hb Hd.
  destruct (prologue_ready msg vm Hr)
    as (vm0 & Hp & Hr0 & Hpc & Hsi & Hblk & Hcode & Hcsz & Hsp & Hsf).
  destruct (loop_blocks (code vm) [] vm0 0 d 0 fuel) as (vm1 & Hl & Hb1);
    try assumption; try (cbn [length app]; congruence || lia).
  unfold bgp_filter. rewrite filter_body_eq, Hp, bind_go, Hl, bind_go.
  rewrite epilogue_dangling by lia.
  eexists. cbv zeta. rewrite settle_error. reflexivity.
Qed.

(** The same with a value on the stack: [LOAD k] followed by a program of
    [NOP], [BLK] and [ENDBLK] that ends with a block open. *)
Lemma dangling_blk_after_load msg vm fuel k c d :
  ready vm -> code vm = vm_makeop FOPC_LOAD k :: c ->
  codesiz vm = Z.of_nat (length (code vm)) -> codesiz vm < 65536 ->
  (length (code vm) < fuel)%nat -> 0 <= k < 256 ->
  blk_depth c 0 = Some d -> 0 < d ->
  exists vm', run fuel msg vm = Ok (VM_DANGLING_BLK, vm').
Proof.
  intros Hr Hc Hsz Hlt Hf Hk Hb Hd.
  destruct (prologue_ready msg vm Hr)
    as (vm0 & Hp & Hr0 & Hpc & Hsi & Hblk & Hcode & Hcsz & Hsp & Hsf).
  destruct (makeop_load k Hk) as [Hop Harg].
  destruct Hr0 as [Hn0 Ht0 [Hs0 Hs0']].
  rewrite Hc in Hsz, Hf. cbn [length] in Hsz, Hf.
  destruct fuel as [|fuel]; [lia|].
  unfold bgp_filter. rewrite filter_body_eq, Hp, bind_go.
  rewrite (loop_step _ vm0 0 (vm_makeop FOPC_LOAD k));
    [|lia|rewrite Hpc, Hcode, Hc; reflexivity].
  rewrite insn_load by exact Hop. rewrite Harg.
  rewrite pushvalue_go;
    [|destruct vm0; cbn in *; lia|destruct vm0; cbn in *; lia
     |destruct vm0; cbn in *; lia].
  rewrite !bind_go. cbn match.
  match goal with |- context [loop fuel ?v 0] => set (vmA := v) end.
  destruct (loop_blocks c [vm_makeop FOPC_LOAD k] vmA 0 d 0 fuel)
    as (vm1 & Hl & Hb1); try assumption.
  - unfold vmA. destruct vm0; cbn in *. rewrite Hcode, Hc. reflexivity.
  - unfold vmA. destruct vm0; cbn in *. subst. rewrite uint16_small; lia.
  - unfold vmA. destruct vm0; cbn in *. lia.
  - unfold vmA. destruct vm0; cbn in *. lia.
  - cbn [length]. lia.
  - lia.
  - rewrite Hl, bind_go. rewrite epilogue_dangling by lia.
    eexists. cbv zeta. rewrite settle_error. reflexivity.
Qed.

(** C6 (amended).  On every message and every ready machine: the single
    instruction [LOAD 1] gives PASS (1) and [LOAD 0] gives FAIL (0).  A
    program whose execution reaches the end of the code with a [BLK] still
    open gives [VM_DANGLING_BLK], whatever the stack holds: this is so
    whenever the interpreter loop returns with [curblk] above 0, and in
    particular for any program of [NOP], [BLK] and [ENDBLK] whose nesting
    ends above 0, such as the single instruction [BLK], also when a
    [LOAD] has put a value on the stack before.  With no block open
    the outcome is read off the top of the stack: FAIL (0) when it is 0,
    PASS (1) otherwise.  Every error code is negative. *)
Theorem filter_outcomes msg vm fuel :
  ready vm -> codesiz vm = Z.of_nat (length (code vm)) -> codesiz vm < 65536 ->
  (S (length (code vm)) < fuel)%nat ->
  (code vm = [vm_makeop FOPC_LOAD 1] ->
     exists vm', run fuel msg vm = Ok (FILTER_PASS, vm') /\ ready vm')
  /\ (code vm = [vm_makeop FOPC_LOAD 0] ->
     exists vm', run fuel msg vm = Ok (FILTER_FAIL, vm') /\ ready vm')
  /\ (forall vm0 vm1,
        prologue msg vm = Go vm0 -> loop fuel vm0 0 = Go vm1 ->
        0 < curblk vm1 ->
        exists vm', run fuel msg vm = Ok (VM_DANGLING_BLK, vm'))
  /\ (forall d, blk_depth (code vm) 0 = Some d -> 0 < d ->
     exists vm', run fuel msg vm = Ok (VM_DANGLING_BLK, vm'))
  /\ (forall k c d,
        0 <= k < 256 -> code vm = vm_makeop FOPC_LOAD k :: c ->
        blk_depth c 0 = Some d -> 0 < d ->
        exists vm', run fuel msg vm = Ok (VM_DANGLING_BLK, vm'))
  /\ (forall vm0 vm1 v,
        prologue msg vm = Go vm0 -> loop fuel vm0 0 = Go vm1 ->
        curblk vm1 = 0 -> 0 < si vm1 < 65536 ->
        sp vm1 !! Z.to_nat (si vm1 - 1) = Some (CValue v) ->
        exists vm',
          run fuel msg vm = Ok (if v =? 0 then FILTER_FAIL else FILTER_PASS, vm'))
  /\ Forall (fun e => e < 0) vm_errors
  /\ FILTER_FAIL = 0 /\ FILTER_PASS = 1.
Proof.
  intros Hr Hsz Hlt Hf.
  split; [|split; [|split; [|split; [|split; [|split; [|split; [|split]]]]]]].
  - intros Hc. rewrite Hc in Hsz, Hf. cbn [length] in Hsz, Hf.
    destruct fuel as [|[|fuel]]; [lia..|].
    exact (load_outcome msg vm fuel 1 Hr Hc Hsz ltac:(lia)).
  - intros Hc. rewrite Hc in Hsz, Hf. cbn [length] in Hsz, Hf.
    destruct fuel as [|[|fuel]]; [lia..|].
    exact (load_outcome msg vm fuel 0 Hr Hc Hsz ltac:(lia)).
  - intros vm0 vm1 Hp Hl Hb.
    unfold bgp_filter. rewrite filter_body_eq, Hp, bind_go, Hl, bind_go.
    rewrite epilogue_dangling by exact Hb.
    eexists. cbv zeta. rewrite settle_error. reflexivity.
  - intros d Hb Hd. apply (dangling_blk msg vm fuel d); try assumption. lia.
  - intros k c d Hk Hc Hb Hd.
    apply (dangling_blk_after_load msg vm fuel k c d); try assumption. lia.
  - intros vm0 vm1 v Hp Hl Hb Hsi Hv.
    unfold bgp_filter. rewrite filter_body_eq, Hp, bind_go, Hl, bind_go.
    rewrite (epilogue_value _ v) by assumption.
    eexists. destruct (v =? 0); reflexivity.
  - unfold vm_errors. repeat constructor.
  - reflexivity.
  - reflexivity.
Qed.

End facts.

(** Programs are built by [vm_emit] on a machine fresh from [filter_init]. *)
Definition program (c : list Z) : option filter_vm_t :=
  foldl (fun o ip => vm ← o; vm_emit (fun _ => true) vm ip)
        (Some (filter_init HeapFacts.blank_msg)) c.

Definition page_at (k : nat) : Z := 65536 * (Z.of_nat k + 1).
Definition no_funcs (_ : Z) : option (filter_vm_t -> vmres filter_vm_t) := None.
Definition no_intrin (_ _ : Z) (vm : filter_vm_t) : vmres filter_vm_t :=
  vm_abort vm VM_ILLEGAL_OPCODE.

Lemma filter_init_ready msg : ready (filter_init msg).
Proof.
  split; [cbn; lia| |split; [reflexivity|reflexivity]].
  eexists _, _, []. repeat split.
Qed.

(** C6 (counterexample).  The program [LOAD 1; CPASS; BLK] contains a
    [BLK] and no [ENDBLK], and [bgp_filter] returns PASS on it: [CPASS]
    leaves by [goto done] before the [BLK] is reached. *)
Lemma open_blk_after_pass :
  exists vm vm',
    program [vm_makeop FOPC_LOAD 1; FOPC_CPASS; FOPC_BLK] = Some vm
    /\ In FOPC_BLK (code vm) /\ ~ In FOPC_ENDBLK (code vm)
    /\ bgp_filter (fun _ => true) page_at no_funcs no_intrin 5
         HeapFacts.blank_msg vm = Ok (FILTER_PASS, vm')
    /\ FILTER_PASS <> VM_DANGLING_BLK.
Proof.
  eexists _, _. split; [vm_compute; reflexivity|].
  split; [cbn; tauto|].
  split; [cbn; intros [H|[H|[H|[]]]]; discriminate|].
  split; [vm_compute; reflexivity|discriminate].
Qed.

Lemma filter_outcomes_witness :
  exists vm,
    program [vm_makeop FOPC_LOAD 1; FOPC_BLK] = Some vm
    /\ exists vm', bgp_filter (fun _ => true) page_at no_funcs no_intrin 4
                     HeapFacts.blank_msg vm = Ok (VM_DANGLING_BLK, vm').
Proof.
  eexists. split; [vm_compute; reflexivity|].
  refine (proj1 (proj2 (proj2
    (filter_outcomes (fun _ => true) page_at no_funcs no_intrin
       HeapFacts.blank_msg _ 4 _ _ _ _))) _ _ _ _ _).
  - split; [cbn; lia| |split; [reflexivity|reflexivity]].
    eexists _, _, []. repeat split.
  - reflexivity.
  - reflexivity.
  - cbn. lia.
  - vm_compute. reflexivity.
  - vm_compute. reflexivity.
  - vm_compute. reflexivity.
Defined.

End VmFacts.

(** ** AS loop filtering *)

Module BgpgrepFacts.
Import FilterVm.

(** An UPDATE opened for reading, without the ASN32BIT flag, whose
    AS_PATH attribute holds the given bytes and which has no AS4_PATH,
    AGGREGATOR or AS4_AGGREGATOR. *)
Definition update_with_path (p : list Z) : Bgp.ubgp_msg_s :=
  Bgp.mk_msg Bgp.F_RD 0 Bgp.BGP_UPDATE (Some p) None None None [] [] 0 0 0
             (Bgp.mk_pathent 0 0 0 0).

(** One AS_SEQUENCE of the five 16-bit ASes 1 2 3 2 4. *)
Definition seq_1_2_3_2_4 : list Z := [2; 5; 0; 1; 0; 2; 0; 3; 0; 2; 0; 4].

Definition no_accumulate (_ : Z) (vm : filter_vm_t) : vmres filter_vm_t := Go vm.

(** [bgpgrep] with the given loop option on one message: [setup_filter]
    on a fresh machine, then [bgp_filter]. *)
Definition bgpgrep_filter (flags : Z) (msg : Bgp.ubgp_msg_s) : res Z :=
  match Bgpgrep.setup_filter (fun _ => true) flags (filter_init HeapFacts.blank_msg) with
  | Some vm =>
      r ← bgp_filter (fun _ => true) VmFacts.page_at
            (Bgpgrep.funcs (fun _ => true) true (fun m => m) 64 no_accumulate)
            VmFacts.no_intrin 64 msg vm;
      Ok (fst r)
  | None => Fault
  end.

(** C3 (failing input).  The real AS path of the UPDATE is 1 2 3 2 4; the
    loop search of [mrt_find_as_loops] answers false on it (its inner loop
    stops at [j < i - 2] and never compares an AS with the one two places
    before it), so the record fails under [-l] and passes under [-L]. *)
Theorem as_loop_1_2_3_2_4_missed :
  (exists m e m',
      Bgp.startrealaspath (fun m => m) (update_with_path seq_1_2_3_2_4) = Some (m, e)
      /\ Bgp.collect_aspath 8 m = Some ([1; 2; 3; 2; 4], m'))
  /\ Bgpgrep.has_as_loop [1; 2; 3; 2; 4] = Ok false
  /\ bgpgrep_filter Bgpgrep.KEEP_AS_LOOPS (update_with_path seq_1_2_3_2_4)
     = Ok FILTER_FAIL
  /\ bgpgrep_filter Bgpgrep.DISCARD_AS_LOOPS (update_with_path seq_1_2_3_2_4)
     = Ok FILTER_PASS.
Proof.
  split.
  { eexists _, _, _. split; [vm_compute; reflexivity|]. vm_compute. reflexivity. }
  split; [vm_compute; reflexivity|].
  split; vm_compute; reflexivity.
Qed.

End BgpgrepFacts.

(** ** Patricia trie *)

Module PatriciaFacts.
Import NetAddr Patricia.

(** Pages at 64 KiB steps: a [malloc] that never fails. *)
Definition page_at (k : nat) : Z := 65536 * (Z.of_nat k + 1).

(** The IPv4 prefix [a.b.c.d/len]. *)
Definition v4 (a b c d len : Z) : netaddr_t :=
  mk_netaddr AF_INET len ([a; b; c; d] ++ repeat 0 12%nat).

(** [patinsert] of each prefix in turn, from [patinit(AF_INET)]. *)
Definition insert_all (l : list netaddr_t) : res patricia_trie_t :=
  foldl (fun r p => pt ← r; '(_, _, pt') ← patinsert page_at 64 pt p; Ok pt')
        (Ok (patinit AF_INET)) l.

(** C4 (failing input).  After [patinsert] of 8.2.0.0/16 and then of its
    supernet 8.0.0.0/8, which returns a node and reports
    [PREFIX_INSERTED], [patsearchexact] of 8.0.0.0/8 returns [NULL] (and so
    does the search of 8.2.0.0/16): the branch for a new prefix that is an
    ancestor of the node found repeats the test [n->prefix.bitlen ==
    differ_bit] of the branch before it and is never taken, so the prefix is
    hung below a glue node of its own length.  Likewise a prefix whose place
    is held by a glue node (0.0.0.0/1 after 64.0.0.0/2 and 0.0.0.0/2) is
    returned unconverted and is not found.  Each line is: was a node
    returned, the value of [*inserted], and the searches after it. *)
Theorem search_after_insert_fails :
  (pt ← insert_all [v4 8 2 0 0 16];
   '(n, inserted, pt') ← patinsert page_at 64 pt (v4 8 0 0 0 8);
   found ← patsearchexact 64 pt' (v4 8 0 0 0 8);
   found' ← patsearchexact 64 pt' (v4 8 2 0 0 16);
   Ok (negb (n =? 0), inserted, found, found'))
  = Ok (true, PREFIX_INSERTED, 0, 0)
  /\ (pt ← insert_all [v4 64 0 0 0 2; v4 0 0 0 0 2];
      '(n, inserted, pt') ← patinsert page_at 64 pt (v4 0 0 0 0 1);
      found ← patsearchexact 64 pt' (v4 0 0 0 0 1);
      Ok (negb (n =? 0), inserted, found))
     = Ok (true, PREFIX_ALREADY_PRESENT, 0).
Proof. split; vm_compute; reflexivity. Qed.

(** C5 (failing input).  After the three distinct prefixes 64.0.0.0/2,
    0.0.0.0/2 and 0.0.0.0/1 are inserted, the iterator emits two of them:
    0.0.0.0/1 was never stored (the glue node at its place is returned
    unconverted by [patinsert]). *)
Theorem iterator_misses_prefix :
  NoDup [v4 64 0 0 0 2; v4 0 0 0 0 2; v4 0 0 0 0 1]
  /\ (pt ← insert_all [v4 64 0 0 0 2; v4 0 0 0 0 2; v4 0 0 0 0 1];
      iterate 64 pt)
     = Ok [v4 0 0 0 0 2; v4 64 0 0 0 2].
Proof.
  split; [|vm_compute; reflexivity].
  repeat constructor; rewrite ?elem_of_cons, ?elem_of_nil;
    intros H; repeat (destruct H as [H|H]; try discriminate H); exact H.
Qed.

(** C10 (failing input).  [patremove] of 9.0.0.0/8 on the trie that holds
    8.0.0.0/8 alone: the search finds nothing and [NULL] is returned, the
    head is the one before and 8.0.0.0/8 is still found there, but
    [nprefs] drops from 1 to 0 (the decrement stands before the null
    test).  On the empty trie [nprefs] wraps to 4294967295. *)
Theorem remove_absent_changes_nprefs :
  (pt ← insert_all [v4 8 0 0 0 8];
   found ← patsearchexact 64 pt (v4 9 0 0 0 8);
   '(payload, pt') ← patremove 64 pt (v4 9 0 0 0 8);
   kept ← patsearchexact 64 pt' (v4 8 0 0 0 8);
   Ok (found, payload, head pt' =? head pt, kept =? head pt, nprefs pt, nprefs pt'))
  = Ok (0, 0, true, true, 1, 0)
  /\ ('(payload, pt') ← patremove 64 (patinit AF_INET) (v4 9 0 0 0 8);
      Ok (payload, nprefs (patinit AF_INET), nprefs pt'))
     = Ok (0, 0, 4294967295).
Proof. split; vm_compute; reflexivity. Qed.

End PatriciaFacts.

(** ** Printing and parsing of addresses *)

Module NetAddrTextFacts.
Import NetAddr NetAddrText.

(** Two IPv6 addresses of the shape 0:0:0:0:0:ff00:x:y. *)
Definition addr_ff00_a : netaddr_t :=
  mk_netaddr AF_INET6 128 [0; 0; 0; 0; 0; 0; 0; 0; 0; 0; 255; 0; 1; 2; 3; 4].
Definition addr_ff00_b : netaddr_t :=
  mk_netaddr AF_INET6 128 [0; 0; 0; 0; 0; 0; 0; 0; 0; 0; 255; 0; 9; 9; 9; 9].

(** C9 (failing input).  [naddrtos] prints the two distinct IPv6 prefixes
    ::ff00:102:304/128 and ::ff00:909:909/128 as the same text
    "::ffff:0.0.0.0/128": the test for a v4-mapped address compares
    [u16[5]] with [0xff] where the comment beside it says ffff, and the
    branch prints [bytes[0..3]], which the test has just found to be 0.
    So whatever [strtol] and [inet_pton] do, [stonaddr] cannot give both
    addresses back. *)
Theorem cidr_round_trip_fails strtol inet_pton :
  wf_bytes addr_ff00_a /\ wf_bytes addr_ff00_b
  /\ naddrtos addr_ff00_a NADDR_CIDR = "::ffff:0.0.0.0/128"%string
  /\ naddrtos addr_ff00_b NADDR_CIDR = "::ffff:0.0.0.0/128"%string
  /\ ~ (stonaddr strtol inet_pton (naddrtos addr_ff00_a NADDR_CIDR) = (0, addr_ff00_a)
        /\ stonaddr strtol inet_pton (naddrtos addr_ff00_b NADDR_CIDR) = (0, addr_ff00_b)).
Proof.
  assert (Ha : naddrtos addr_ff00_a NADDR_CIDR = "::ffff:0.0.0.0/128"%string)
    by (vm_compute; reflexivity).
  assert (Hb : naddrtos addr_ff00_b NADDR_CIDR = "::ffff:0.0.0.0/128"%string)
    by (vm_compute; reflexivity).
  split; [split; [reflexivity|repeat constructor; lia]|].
  split; [split; [reflexivity|repeat constructor; lia]|].
  split; [exact Ha|]. split; [exact Hb|].
  rewrite Ha, Hb. intros [H1 H2]. rewrite H1 in H2. discriminate H2.
Qed.

End NetAddrTextFacts.

(** ** Coverage of a Patricia trie *)

Module CoverageFacts.
Import NetAddr Patricia.

(** The nodes below a pointer, as a binary tree: the shape the pointers
    of an acyclic trie memory draw. *)
Inductive tree : Type :=
  | Leaf
  | Node (a : Z) (n : pnode) (l r : tree).

Inductive repr (m : gmap Z pnode) : Z -> tree -> Prop :=
  | repr_leaf : repr m 0 Leaf
  | repr_node a n l r :
      a <> 0 -> m !! a = Some n ->
      repr m (child0 n) l -> repr m (child1 n) r ->
      repr m a (Node a n l r).

(** A node that holds a prefix other than the default route. *)
Definition covering (n : pnode) : bool :=
  negb (ispnodeglue n) && negb (bitlen (prefix n) =? 0).

(** The stored prefixes that lie below no other stored prefix, the
    default route apart. *)
Fixpoint top_prefixes (t : tree) : list netaddr_t :=
  match t with
  | Leaf => []
  | Node _ n l r =>
      if covering n then [prefix n] else top_prefixes l ++ top_prefixes r
  end.

(** All stored prefixes (the nodes that are not glue). *)
Fixpoint all_prefixes (t : tree) : list netaddr_t :=
  match t with
  | Leaf => []
  | Node _ n l r =>
      (if ispnodeglue n then [] else [prefix n]) ++ all_prefixes l ++ all_prefixes r
  end.

(** [2^(maxbitlen - bitlen)] summed over a list of prefixes. *)
Definition span_sum (maxbits : Z) (l : list netaddr_t) : Z :=
  foldr (fun p acc => 2 ^ (maxbits - bitlen p) + acc) 0 l.

(** Nodes the traversal of [patcoverage] visits, and the longest chain of
    them. *)
Fixpoint visited (t : tree) : nat :=
  match t with
  | Leaf => 0
  | Node _ n l r => if covering n then 1 else S (visited l + visited r)
  end.

Fixpoint chain (t : tree) : Z :=
  match t with
  | Leaf => 0
  | Node _ n l r => if covering n then 1 else 1 + Z.max (chain l) (chain r)
  end.

(** Every prefix the traversal adds is no longer than [maxbits]. *)
Fixpoint lengths_ok (maxbits : Z) (t : tree) : Prop :=
  match t with
  | Leaf => True
  | Node _ n l r =>
      if covering n then 0 <= bitlen (prefix n) <= maxbits
      else lengths_ok maxbits l /\ lengths_ok maxbits r
  end.

(** Reading the tree off the memory. *)
Fixpoint tree_of (fuel : nat) (m : gmap Z pnode) (a : Z) : option tree :=
  match fuel with
  | O => None
  | S fuel' =>
      if a =? 0 then Some Leaf else
      n ← m !! a;
      l ← tree_of fuel' m (child0 n);
      r ← tree_of fuel' m (child1 n);
      Some (Node a n l r)
  end.

Lemma tree_of_repr fuel : forall m a t, tree_of fuel m a = Some t -> repr m a t.
Proof.
  induction fuel as [|fuel IH]; intros m a t H; [discriminate|].
  cbn [tree_of] in H. destruct (Z.eqb_spec a 0) as [->|Ha].
  - inversion H. constructor.
  - destruct (m !! a) as [n|] eqn:En; [|discriminate]. cbn in H.
    destruct (tree_of fuel m (child0 n)) as [l|] eqn:El; [|discriminate]. cbn in H.
    destruct (tree_of fuel m (child1 n)) as [r|] eqn:Er; [|discriminate]. cbn in H.
    inversion H. subst. constructor; auto.
Qed.

Lemma span_sum_app mb l1 l2 :
  span_sum mb (l1 ++ l2) = span_sum mb l1 + span_sum mb l2.
Proof. unfold span_sum. induction l1 as [|p l1 IH]; cbn [app foldr]; lia. Qed.

Lemma res_bind_ok {A B} (a : A) (f : A -> res B) : (Ok a ≫= f) = f a.
Proof. reflexivity. Qed.

Lemma repr_nonnull m a t : repr m a t -> a <> 0 -> exists n l r, t = Node a n l r
  /\ m !! a = Some n /\ repr m (child0 n) l /\ repr m (child1 n) r.
Proof. intros H Ha. destruct H; [done|]. eauto 10. Qed.

Lemma repr_null m t : repr m 0 t -> t = Leaf.
Proof. intros H. inversion H; [done|]. congruence. Qed.

Lemma chain_nonneg t : 0 <= chain t.
Proof. induction t; cbn [chain]; [lia|]. destruct (covering n); lia. Qed.

Section coverage.
Variable pt : patricia_trie_t.
Local Abbreviation mb := (maxbitlen pt).
Local Abbreviation m := (mem pt).
Hypothesis Hmb : 0 <= mb <= 128.

(** What the loop does once the nodes below [a] are done: the next
    pointer is popped, or the loop ends. *)
Definition resume (fuel : nat) (stack : list Z) (acc : Z) : res Z :=
  match stack with
  | top :: stack' => coverage_loop fuel pt top stack' acc
  | [] => Ok acc
  end.

Lemma coverage_subtree t : forall a stack acc fuel,
  repr m a t -> a <> 0 ->
  Z.of_nat (length stack) + chain t <= mb + 1 ->
  lengths_ok mb t -> 0 <= acc < 2 ^ 128 ->
  coverage_loop (visited t + fuel) pt a stack acc
  = resume fuel stack ((acc + span_sum mb (top_prefixes t)) mod 2 ^ 128).
Proof.
  induction t as [|a' n l IHl r IHr]; intros a stack acc fuel Hr Ha Hch Hok Hacc.
  - inversion Hr. congruence.
  - inversion Hr as [|a0 n0 l0 r0 _ Hn Hl Hrr]; subst a0 n0 l0 r0 a'.
    cbn [visited chain top_prefixes lengths_ok] in *.
    destruct (covering n) eqn:Ecov.
    + cbn [Nat.add coverage_loop].
      destruct (Z.eqb_spec a 0); [done|].
      unfold node. rewrite Hn. cbn [of_option]. rewrite res_bind_ok.
      fold (covering n). rewrite Ecov.
      unfold covering in Ecov. apply andb_true_iff in Ecov as [_ Eb].
      apply negb_true_iff, Z.eqb_neq in Eb.
      unfold uint32, wrap. rewrite Z.mod_small by lia.
      unfold u128shl.
      destruct (Z.leb_spec 0 (mb - bitlen (prefix n))); [|lia].
      destruct (Z.ltb_spec (mb - bitlen (prefix n)) 128); [|lia].
      cbn [andb]. rewrite res_bind_ok.
      unfold U128_ONE, u128add. rewrite Z.mul_1_l.
      unfold span_sum. cbn [foldr]. rewrite Z.add_0_r.
      rewrite Zplus_mod_idemp_r.
      destruct stack; reflexivity.
    + cbn [Nat.add coverage_loop].
      destruct (Z.eqb_spec a 0); [done|].
      unfold node. rewrite Hn. cbn [of_option]. rewrite res_bind_ok.
      fold (covering n). rewrite Ecov.
      destruct Hok as [Hokl Hokr].
      rewrite span_sum_app.
      destruct (Z.eqb_spec (child0 n) 0) as [E0|E0];
        destruct (Z.eqb_spec (child1 n) 0) as [E1|E1]; cbn [negb].
      * rewrite E0 in Hl. rewrite E1 in Hrr.
        apply repr_null in Hl, Hrr. subst l r.
        cbn [visited Nat.add top_prefixes]. change (span_sum mb []) with 0.
        rewrite !Z.add_0_r, Z.mod_small by lia.
        destruct stack; reflexivity.
      * rewrite E0 in Hl. apply repr_null in Hl. subst l.
        cbn [visited Nat.add top_prefixes chain] in *.
        change (span_sum mb []) with 0. rewrite Z.add_0_l.
        apply IHr; [exact Hrr|exact E1|clear -Hch; lia|exact Hokr|exact Hacc].
      * rewrite E1 in Hrr. apply repr_null in Hrr. subst r.
        cbn [visited top_prefixes chain] in *.
        rewrite Nat.add_0_r. rewrite res_bind_ok.
        change (span_sum mb []) with 0. rewrite Z.add_0_r.
        apply IHl; [exact Hl|exact E0|clear -Hch; lia|exact Hokl|exact Hacc].
      * unfold push.
        pose proof (chain_nonneg l). pose proof (chain_nonneg r).
        destruct (Z.ltb_spec (Z.of_nat (length stack)) (mb + 1)); [|lia].
        rewrite res_bind_ok.
        rewrite <- Nat.add_assoc.
        rewrite (IHl (child0 n) (child1 n :: stack) acc (visited r + fuel)%nat);
          [|exact Hl|exact E0|cbn [length]; lia|exact Hokl|exact Hacc].
        cbn [resume].
        rewrite (IHr (child1 n) stack _ fuel);
          [|exact Hrr|exact E1|lia|exact Hokr|apply Z.mod_pos_bound; lia].
        rewrite Zplus_mod_idemp_l, Z.add_assoc. reflexivity.
Qed.

(** C8 (amended).  [patcoverage] is the sum of [2^(maxbitlen - bitlen)]
    over the stored prefixes, the default route apart, that lie below no
    other such prefix, in 128-bit arithmetic. *)
Theorem patcoverage_sums_top_prefixes t fuel :
  repr m (head pt) t ->
  chain t <= mb + 1 -> lengths_ok mb t -> (visited t < fuel)%nat ->
  patcoverage fuel pt = Ok (span_sum mb (top_prefixes t) mod 2 ^ 128).
Proof.
  intros Hr Hch Hok Hf. unfold patcoverage, U128_ZERO.
  destruct (Z.eq_dec (head pt) 0) as [E|E].
  - rewrite E in *. apply repr_null in Hr. subst t.
    destruct fuel; [cbn in Hf; lia|]. reflexivity.
  - replace fuel with (visited t + (fuel - visited t))%nat by lia.
    rewrite (coverage_subtree t); [reflexivity|exact Hr|exact E|cbn [length]; lia|exact Hok|lia].
Qed.
End coverage.

(** The trie of the repository's coverage test: 0.0.0.0/0, 8.0.0.0/8,
    8.2.0.0/16 and 9.0.0.0/8. *)
Definition sample_trie : patricia_trie_t :=
  match PatriciaFacts.insert_all
          [PatriciaFacts.v4 0 0 0 0 0; PatriciaFacts.v4 8 0 0 0 8;
           PatriciaFacts.v4 8 2 0 0 16; PatriciaFacts.v4 9 0 0 0 8] with
  | Ok pt => pt
  | _ => patinit AF_INET
  end.

Definition sample_tree : tree :=
  default Leaf (tree_of 64 (mem sample_trie) (head sample_trie)).

(** C8 (counterexample).  With 8.0.0.0/8 and 8.2.0.0/16 stored,
    [patcoverage] is 2^24, while the sum over all stored prefixes is
    2^24 + 2^16: the traversal does not go below a prefix it has added. *)
Lemma coverage_skips_nested_prefix :
  (pt ← PatriciaFacts.insert_all
          [PatriciaFacts.v4 8 0 0 0 8; PatriciaFacts.v4 8 2 0 0 16];
   c ← patcoverage 64 pt;
   t ← of_option (tree_of 64 (mem pt) (head pt));
   Ok (c, all_prefixes t,
       span_sum (maxbitlen pt)
         (filter (fun p => bitlen p <> 0) (all_prefixes t)) mod 2 ^ 128))
  = Ok (16777216,
        [PatriciaFacts.v4 8 0 0 0 8; PatriciaFacts.v4 8 2 0 0 16],
        16842752).
Proof. vm_compute. reflexivity. Qed.

Lemma patcoverage_sums_top_prefixes_witness :
  top_prefixes sample_tree = [PatriciaFacts.v4 8 0 0 0 8; PatriciaFacts.v4 9 0 0 0 8]
  /\ patcoverage 64 sample_trie
     = Ok (span_sum (maxbitlen sample_trie) (top_prefixes sample_tree) mod 2 ^ 128).
Proof.
  split; [vm_compute; reflexivity|].
  apply (patcoverage_sums_top_prefixes sample_trie).
  - vm_compute. split; discriminate.
  - apply (tree_of_repr 64). vm_compute. reflexivity.
  - vm_compute. discriminate.
  - vm_compute. intuition discriminate.
  - vm_compute. lia.
Defined.

End CoverageFacts.

(** * Facts: the real AS path ([startrealaspath], [nextaspath]) *)

Module AsPathFacts.
Import Bgp.

(** An AS path as the list of its segments: the type and the ASes. *)
Definition segment : Type := Z * list Z.

(** Network byte order of an AS of [size] bytes (2 or 4). *)
Definition as_bytes (size : Z) (a : Z) : list Z :=
  if size =? 2 then [a / 256; a mod 256]
  else [a / 16777216; (a / 65536) mod 256; (a / 256) mod 256; a mod 256].

Definition members (size : Z) (l : list Z) : list Z := flat_map (as_bytes size) l.

(** The wire form of the attribute value: per segment the type, the
    count and the ASes. *)
Definition encode (size : Z) (segs : list segment) : list Z :=
  flat_map (fun s => fst s :: Z.of_nat (length (snd s)) :: members size (snd s)) segs.

(** The ASes of a path, in order. *)
Definition flat (segs : list segment) : list Z := flat_map snd segs.

(** The count of [startrealaspath]: an AS_SET counts 1. *)
Definition units (s : segment) : Z :=
  if fst s =? AS_SEGMENT_SET then 1 else Z.of_nat (length (snd s)).

Definition count (segs : list segment) : Z :=
  foldr (fun s acc => units s + acc) 0 segs.

(** Segments as the wire can hold them: a type byte, a count byte (at
    most 255 ASes), and ASes of [size] bytes each. *)
Definition wf_segment (size : Z) (s : segment) : Prop :=
  0 <= fst s < 256 /\ (length (snd s) <= 255)%nat
  /\ Forall (fun a => 0 <= a < 2 ^ (8 * size)) (snd s).

Definition wf_path (size : Z) (segs : list segment) : Prop :=
  Forall (wf_segment size) segs.

(** No AS_SET of the path is empty. *)
Definition no_empty_set (segs : list segment) : Prop :=
  Forall (fun s => fst s = AS_SEGMENT_SET -> snd s <> []) segs.

(** What [nextaspath] emits from AS_PATH while [ascount] goes from [k]
    down to 0: an AS of an AS_SEQUENCE takes one off the count, an AS_SET
    takes one off at its first AS; the AS read when the count is 0 is
    dropped, so of an AS_SET on which the count ends only the first AS
    comes out. *)
Fixpoint lead (k : Z) (segs : list segment) : list Z :=
  match segs with
  | [] => []
  | s :: rest =>
      if k <=? 0 then []
      else if fst s =? AS_SEGMENT_SET then
        if k =? 1 then take 1 (snd s) else snd s ++ lead (k - 1) rest
      else if k <=? Z.of_nat (length (snd s)) then take (Z.to_nat k) (snd s)
      else snd s ++ lead (k - Z.of_nat (length (snd s))) rest
  end.

Lemma land_byte_field w k :
  0 <= k ->
  Z.land w (Z.shiftl 255 k) = Z.shiftl (Z.land (Z.shiftr w k) 255) k.
Proof.
  intros Hk. apply Z.bits_inj'. intros n Hn.
  rewrite Z.land_spec.
  destruct (Z.lt_ge_cases n k).
  - rewrite !Z.shiftl_spec_low by lia. apply andb_false_r.
  - rewrite !Z.shiftl_spec by lia.
    rewrite Z.land_spec, Z.shiftr_spec by lia.
    replace (n - k + k) with n by lia. reflexivity.
Qed.

Lemma field_value w k :
  0 <= k -> Z.land (Z.shiftr w k) 255 = (w / 2 ^ k) mod 256.
Proof.
  intros Hk. change 255 with (Z.ones 8).
  rewrite Z.land_ones by lia. rewrite Z.shiftr_div_pow2 by lia. reflexivity.
Qed.

Lemma lor_disjoint x y k :
  0 <= k -> 0 <= x < 2 ^ k -> 0 <= y ->
  Z.lor x (Z.shiftl y k) = x + y * 2 ^ k.
Proof.
  intros Hk Hx Hy. rewrite Z.shiftl_mul_pow2 by lia.
  symmetry. apply Z.add_nocarry_lor.
  apply Z.bits_inj'. intros n Hn. rewrite Z.land_spec, Z.bits_0.
  destruct (Z.lt_ge_cases n k).
  - rewrite Z.mul_pow2_bits_low by lia. apply andb_false_r.
  - destruct (Z.eq_dec x 0) as [->|Hx0]; [rewrite Z.bits_0; reflexivity|].
    rewrite (Z.bits_above_log2 x n); [reflexivity|lia|].
    apply Z.log2_lt_pow2; [lia|].
    pose proof (Z.pow_le_mono_r 2 k n); lia.
Qed.

Lemma beswap16_load a :
  0 <= a < 65536 -> beswap16 (load16 (a / 256) (a mod 256)) = a.
Proof.
  intros Ha. unfold beswap16, byteswap16, load16.
  set (b0 := a / 256). set (b1 := a mod 256).
  assert (H0 : 0 <= b0 < 256) by (unfold b0; Z.div_mod_to_equations; lia).
  assert (H1 : 0 <= b1 < 256) by (unfold b1; Z.div_mod_to_equations; lia).
  assert (Ea : a = b0 * 256 + b1) by (unfold b0, b1; Z.div_mod_to_equations; lia).
  set (w := b0 + 256 * b1).
  change 65280 with (Z.shiftl 255 8).
  rewrite land_byte_field by lia.
  rewrite Z.shiftr_shiftl_l by lia. change (8 - 8) with 0. rewrite Z.shiftl_0_r.
  rewrite field_value by lia.
  change 255 with (Z.ones 8). rewrite Z.land_ones by lia.
  change (2 ^ 8) with 256.
  replace (w / 256 mod 256) with b1 by (unfold w; Z.div_mod_to_equations; lia).
  replace (w mod 256) with b0 by (unfold w; Z.div_mod_to_equations; lia).
  rewrite lor_disjoint by lia. lia.
Qed.

Lemma beswap32_load a :
  0 <= a < 4294967296 ->
  beswap32 (load32 (a / 16777216) ((a / 65536) mod 256) ((a / 256) mod 256) (a mod 256)) = a.
Proof.
  intros Ha. unfold beswap32, byteswap32, load32.
  set (b0 := a / 16777216). set (b1 := (a / 65536) mod 256).
  set (b2 := (a / 256) mod 256). set (b3 := a mod 256).
  assert (H0 : 0 <= b0 < 256) by (unfold b0; Z.div_mod_to_equations; lia).
  assert (H1 : 0 <= b1 < 256) by (unfold b1; Z.div_mod_to_equations; lia).
  assert (H2 : 0 <= b2 < 256) by (unfold b2; Z.div_mod_to_equations; lia).
  assert (H3 : 0 <= b3 < 256) by (unfold b3; Z.div_mod_to_equations; lia).
  assert (Ea : a = b0 * 16777216 + b1 * 65536 + b2 * 256 + b3) by (unfold b0, b1, b2, b3; Z.div_mod_to_equations; lia).
  set (w := b0 + 256 * b1 + 65536 * b2 + 16777216 * b3).
  change 4278190080 with (Z.shiftl 255 24).
  change 16711680 with (Z.shiftl 255 16).
  change 65280 with (Z.shiftl 255 8).
  rewrite !land_byte_field by lia.
  rewrite !field_value by lia.
  change 255 with (Z.ones 8). rewrite Z.land_ones by lia.
  change (2 ^ 8) with 256. change (2 ^ 16) with 65536. change (2 ^ 24) with 16777216.
  replace (w / 16777216 mod 256) with b3 by (unfold w; Z.div_mod_to_equations; lia).
  replace (w / 65536 mod 256) with b2 by (unfold w; Z.div_mod_to_equations; lia).
  replace (w / 256 mod 256) with b1 by (unfold w; Z.div_mod_to_equations; lia).
  replace (w mod 256) with b0 by (unfold w; Z.div_mod_to_equations; lia).
  rewrite Z.shiftr_shiftl_l by lia. change (24 - 24) with 0. rewrite Z.shiftl_0_r.
  rewrite (Z.shiftr_shiftl_l b2 16 8) by lia. change (16 - 8) with 8.
  rewrite Z.shiftl_shiftl by lia. change (8 + 8) with 16.
  rewrite (lor_disjoint b3 b2 8) by lia.
  rewrite (Z.shiftl_mul_pow2 b1 16), (Z.shiftl_mul_pow2 b0 24) by lia.
  rewrite <- (Z.shiftl_mul_pow2 b0 24) by lia.
  replace (b1 * 2 ^ 16) with (Z.shiftl b1 16) by (rewrite Z.shiftl_mul_pow2; lia).
  assert (E1 : Z.lor (Z.shiftl b1 16) (Z.shiftl b0 24) = Z.shiftl (b1 + b0 * 2 ^ 8) 16).
  { rewrite <- (lor_disjoint b1 b0 8) by lia.
    rewrite Z.shiftl_lor, Z.shiftl_shiftl by lia. reflexivity. }
  rewrite E1. rewrite lor_disjoint by lia. lia.
Qed.

(** ** The iterator's position *)

Definition in_range (size : Z) (a : Z) : Prop := 0 <= a < 2 ^ (8 * size).

(** The message stands in a path of [size]-byte ASes with the ASes [l] of
    the current segment (of type [ty]) and the segments [rest] still to
    read. *)
Definition at_pos (size : Z) (m : ubgp_msg_s) (ty : Z) (l : list Z)
    (rest : list segment) : Prop :=
  err m = 0 /\ Z.land (flags m) F_ASPATH = F_ASPATH /\ as_size (asp m) = size
  /\ asptr m = members size l ++ encode size rest
  /\ seglen m = segi m + Z.of_nat (length l) /\ 0 <= segi m /\ seglen m <= 255
  /\ (l <> [] -> type (asp m) = ty).

(** What is left to count at a position. *)
Definition units_left (m : ubgp_msg_s) (ty : Z) (l : list Z)
    (rest : list segment) : Z :=
  match l with
  | [] => 0
  | _ => if ty =? AS_SEGMENT_SET then (if segi m =? 0 then 1 else 0)
         else Z.of_nat (length l)
  end + count rest.

(** [lead] from inside a segment. *)
Definition lead_cur (k : Z) (ty : Z) (fresh : bool) (l : list Z)
    (rest : list segment) : list Z :=
  match l with
  | [] => lead k rest
  | _ =>
      if (ty =? AS_SEGMENT_SET) && negb fresh
      then (if k <=? 0 then [] else l ++ lead k rest)
      else lead k ((ty, l) :: rest)
  end.

Lemma nextaspath_eq f m :
  nextaspath (S f) m =
  let '(m0, ok) := checkflags F_ASPATH m in
  if negb ok then Some (None, m0) else
  match next_segment (S (length (asptr m0))) m0 with
  | None => None
  | Some (inl m1) => Some (None, m1)
  | Some (inr m1) =>
      let e := asp m1 in
      let read :=
        if as_size e =? 2 then
          match asptr m1 with
          | b0 :: b1 :: rest => Some (beswap16 (load16 b0 b1), rest)
          | _ => None
          end
        else
          match asptr m1 with
          | b0 :: b1 :: b2 :: b3 :: rest =>
              Some (beswap32 (load32 b0 b1 b2 b3), rest)
          | _ => None
          end in
      match read with
      | None => None
      | Some (a, rest) =>
          let e' := mk_pathent (as_size e) (type e) (segno e) a in
          let si := uint8 (segi m1 + 1) in
          if negb (ascount m1 =? 0) then
            let dec := if negb (type e' =? AS_SEGMENT_SET) || (si =? 1)
                       then 1 else 0 in
            Some (Some e',
                  set_iter rest (as4ptr m1) (seglen m1) si
                    (int16 (ascount m1 - dec)) e' m1)
          else
            let e4 := mk_pathent 4 (type e') (segno e') (as_ e') in
            let m2 := set_iter (as4ptr m1) (as4ptr m1) 0 0 (-1) e4 m1 in
            nextaspath f
              (set_flags (Z.land (flags m2) (Z.lnot F_REALASPATH)) m2)
      end
  end.
Proof. reflexivity. Qed.

Lemma next_segment_eq f m :
  next_segment (S f) m =
  if segi m =? seglen m then
    match asptr m with
    | [] => Some (inl m)
    | [_] => Some (inl (set_err BGP_EBADATTR m))
    | ty :: len :: rest =>
        let e := asp m in
        next_segment f
          (set_iter rest (as4ptr m) len 0 (ascount m)
             (mk_pathent (as_size e) ty (segno e + 1) (as_ e)) m)
    end
  else Some (inr m).
Proof. reflexivity. Qed.

Lemma checkflags_ok m :
  err m = 0 -> Z.land (flags m) F_ASPATH = F_ASPATH ->
  checkflags F_ASPATH m = (m, true).
Proof.
  intros He Hf. unfold checkflags, has_flags. rewrite Hf, Z.eqb_refl.
  cbn [negb]. rewrite He. reflexivity.
Qed.

Lemma end_of_path size m ty f :
  at_pos size m ty [] [] -> nextaspath (S f) m = Some (None, m).
Proof.
  intros (He & Hf & Hs & Hp & Hl & H0 & H1 & _).
  rewrite nextaspath_eq, checkflags_ok by assumption. cbn [negb].
  cbn [next_segment]. cbn in Hl, Hp.
  replace (segi m =? seglen m) with true by (symmetry; apply Z.eqb_eq; lia).
  rewrite Hp. reflexivity.
Qed.

(** The loop over the headers gives the same with any fuel that covers
    the bytes left. *)
Lemma next_segment_fuel f : forall f' m,
  (length (asptr m) < 2 * f)%nat -> (length (asptr m) < 2 * f')%nat ->
  next_segment f m = next_segment f' m.
Proof.
  induction f as [|f IH]; intros f' m H H'; [lia|].
  destruct f' as [|f']; [lia|].
  rewrite !next_segment_eq.
  destruct (segi m =? seglen m); [|reflexivity].
  destruct (asptr m) as [|b0 [|b1 rest]] eqn:E; [reflexivity..|].
  cbv zeta. cbn [length] in H, H'. apply IH; cbn [asptr set_iter]; lia.
Qed.

Lemma header_skip size m ty s rest :
  at_pos size m ty [] (s :: rest) -> wf_segment size s ->
  exists mh, (forall f, nextaspath f m = nextaspath f mh)
    /\ at_pos size mh (fst s) (snd s) rest /\ segi mh = 0
    /\ ascount mh = ascount m /\ as4ptr mh = as4ptr m.
Proof.
  intros (He & Hf & Hs & Hp & Hl & H0 & H1 & _) (Hty & Hlen & Hr).
  destruct s as [t l]. cbn [fst snd] in *.
  cbn [length] in Hl.
  change (members size [] ++ encode size ((t, l) :: rest))
    with (t :: Z.of_nat (length l) :: (members size l ++ encode size rest)) in Hp.
  set (mh := set_iter (members size l ++ encode size rest) (as4ptr m)
               (Z.of_nat (length l)) 0 (ascount m)
               (mk_pathent (as_size (asp m)) t (segno (asp m) + 1) (as_ (asp m))) m).
  assert (Hh : at_pos size mh t l rest).
  { unfold at_pos, mh; cbn. repeat split; try assumption; try lia. }
  exists mh. split; [|split; [exact Hh|repeat split]].
  intros [|f]; [reflexivity|].
  rewrite !nextaspath_eq.
  rewrite (checkflags_ok m), (checkflags_ok mh) by
    (try assumption; apply Hh).
  cbn [negb].
  assert (E1 : next_segment (S (length (asptr m))) m
               = next_segment (S (length (asptr mh))) mh).
  { rewrite Hp at 1. cbn [length]. rewrite next_segment_eq.
    replace (segi m =? seglen m) with true by (symmetry; apply Z.eqb_eq; lia).
    rewrite Hp. cbv zeta. fold mh.
    apply next_segment_fuel; unfold mh; cbn [asptr set_iter]; lia. }
  rewrite E1. reflexivity.
Qed.

Lemma land_drop_real fl :
  Z.land fl F_ASPATH = F_ASPATH ->
  Z.land (Z.land fl (Z.lnot F_REALASPATH)) F_ASPATH = F_ASPATH.
Proof.
  intros H. rewrite <- Z.land_assoc.
  change (Z.land (Z.lnot F_REALASPATH) F_ASPATH) with F_ASPATH. exact H.
Qed.

Lemma read_step size m ty a l rest :
  size = 2 \/ size = 4 -> in_range size a ->
  at_pos size m ty (a :: l) rest ->
  if ascount m =? 0 then
    exists msw, (forall f, nextaspath (S f) m = nextaspath f msw)
      /\ err msw = 0 /\ Z.land (flags msw) F_ASPATH = F_ASPATH
      /\ as_size (asp msw) = 4 /\ asptr msw = as4ptr m
      /\ seglen msw = 0 /\ segi msw = 0 /\ ascount msw = -1
  else
    exists e m', (forall f, nextaspath (S f) m = Some (Some e, m'))
      /\ as_ e = a /\ at_pos size m' ty l rest
      /\ segi m' = segi m + 1
      /\ ascount m' =
           int16 (ascount m -
                  (if negb (ty =? AS_SEGMENT_SET) || (segi m =? 0) then 1 else 0))
      /\ as4ptr m' = as4ptr m.
Proof.
  intros Hsize Ha (He & Hf & Hs & Hp & Hl & H0 & H1 & Ht).
  specialize (Ht ltac:(discriminate)).
  assert (E1 : next_segment (S (length (asptr m))) m = Some (inr m)).
  { cbn [next_segment].
    replace (segi m =? seglen m) with false; [reflexivity|].
    symmetry; apply Z.eqb_neq. cbn [length] in Hl. lia. }
  assert (Eread :
    (if as_size (asp m) =? 2 then
       match asptr m with
       | b0 :: b1 :: rest => Some (beswap16 (load16 b0 b1), rest)
       | _ => None
       end
     else
       match asptr m with
       | b0 :: b1 :: b2 :: b3 :: rest => Some (beswap32 (load32 b0 b1 b2 b3), rest)
       | _ => None
       end) = Some (a, members size l ++ encode size rest)).
  { rewrite Hs, Hp. unfold in_range in Ha.
    destruct Hsize as [-> | ->].
    - change (members 2 (a :: l)) with ([a / 256; a mod 256] ++ members 2 l).
      cbn [app Z.eqb Pos.eqb]. rewrite beswap16_load by (cbn in Ha; lia). reflexivity.
    - change (members 4 (a :: l)) with
        ([a / 16777216; (a / 65536) mod 256; (a / 256) mod 256; a mod 256] ++ members 4 l).
      cbn [app Z.eqb Pos.eqb]. rewrite beswap32_load by (cbn in Ha; lia). reflexivity. }
  assert (Esi : uint8 (segi m + 1) = segi m + 1).
  { unfold uint8, wrap. cbn [length] in Hl. apply Z.mod_small. lia. }
  destruct (ascount m =? 0) eqn:Ec.
  - eexists. split.
    + intros f. rewrite nextaspath_eq, checkflags_ok by assumption.
      cbn [negb]. rewrite E1. cbv zeta. rewrite Eread, Ec. cbn [negb].
      reflexivity.
    + cbn. repeat split; try assumption. apply land_drop_real, Hf.
  - eexists _, _. split.
    + intros f. rewrite nextaspath_eq, checkflags_ok by assumption.
      cbn [negb]. rewrite E1. cbv zeta. rewrite Eread, Ec. cbn [negb].
      reflexivity.
    + cbn [as_ type asp set_iter segi ascount as4ptr]. rewrite Esi, Ht.
      replace (segi m + 1 =? 1) with (segi m =? 0)
        by (destruct (Z.eqb_spec (segi m) 0), (Z.eqb_spec (segi m + 1) 1); lia).
      cbn [length] in Hl.
      repeat split; try reflexivity;
        cbn [err flags asp as_size asptr seglen segi type set_iter];
        try assumption; try lia.
Qed.

Lemma collect_eq f m :
  collect_aspath (S f) m =
  match nextaspath 3 m with
  | None => None
  | Some (None, m') => Some ([], m')
  | Some (Some e, m') =>
      match collect_aspath f m' with
      | None => None
      | Some (l, m'') => Some (as_ e :: l, m'')
      end
  end.
Proof. reflexivity. Qed.

Lemma collect_congr m m' :
  (forall f, nextaspath f m = nextaspath f m') ->
  forall f, collect_aspath f m = collect_aspath f m'.
Proof.
  intros H [|f]; [reflexivity|]. rewrite !collect_eq, H. reflexivity.
Qed.

Lemma int16_small x : -32768 <= x <= 32767 -> int16 x = x.
Proof.
  intros H. unfold int16. cbv zeta.
  destruct (Z.leb_spec 32768 (x mod 65536)); Z.div_mod_to_equations; lia.
Qed.

Lemma units_nonneg s : 0 <= units s.
Proof. unfold units. destruct (_ =? _); lia. Qed.

Lemma count_cons s segs : count (s :: segs) = units s + count segs.
Proof. reflexivity. Qed.

Lemma count_nonneg segs : 0 <= count segs.
Proof.
  induction segs as [|s segs IH]; [cbn; lia|].
  rewrite count_cons. pose proof (units_nonneg s). lia.
Qed.

Lemma count_zero segs : count segs <= 0 -> flat segs = [].
Proof.
  induction segs as [|s segs IH]; intros H; [reflexivity|].
  rewrite count_cons in H.
  pose proof (units_nonneg s). pose proof (count_nonneg segs).
  change (flat (s :: segs)) with (snd s ++ flat segs).
  rewrite IH by lia. unfold units in H.
  destruct (fst s =? AS_SEGMENT_SET); [lia|].
  destruct (snd s); [reflexivity|cbn [length] in H; lia].
Qed.

Lemma units_left_read m m' ty a l rest :
  0 <= segi m -> segi m' = segi m + 1 ->
  units_left m ty (a :: l) rest =
  (if negb (ty =? AS_SEGMENT_SET) || (segi m =? 0) then 1 else 0)
  + units_left m' ty l rest.
Proof.
  intros H0 H1. unfold units_left. rewrite H1.
  destruct (ty =? AS_SEGMENT_SET); cbn [negb orb].
  - replace (segi m + 1 =? 0) with false by (symmetry; apply Z.eqb_neq; lia).
    destruct (segi m =? 0), l; lia.
  - destruct l; cbn [length]; lia.
Qed.

Lemma units_left_header m mh (s : segment) (rest : list segment) ty :
  (fst s = AS_SEGMENT_SET -> snd s <> []) -> segi mh = 0 ->
  units_left m ty [] (s :: rest) = units_left mh (fst s) (snd s) rest.
Proof.
  intros Hl H0. unfold units_left. rewrite H0, count_cons.
  unfold units.
  destruct (snd s) eqn:E.
  - destruct (Z.eqb_spec (fst s) AS_SEGMENT_SET) as [Es|Es]; [|cbn; lia].
    destruct (Hl Es). reflexivity.
  - destruct (fst s =? AS_SEGMENT_SET); cbn; lia.
Qed.

Lemma units_left_header_le m mh (s : segment) (rest : list segment) ty :
  segi mh = 0 ->
  units_left mh (fst s) (snd s) rest <= units_left m ty [] (s :: rest).
Proof.
  intros H0. unfold units_left. rewrite H0, count_cons.
  unfold units. pose proof (count_nonneg rest).
  destruct (snd s) eqn:E.
  - destruct (fst s =? AS_SEGMENT_SET); cbn; lia.
  - destruct (fst s =? AS_SEGMENT_SET); cbn; lia.
Qed.

Section iteration.
Variable size : Z.
Hypothesis Hsize : size = 2 \/ size = 4.

(** Iteration with a negative count walks the whole path. *)
Lemma collect_plain rest :
  wf_path size rest ->
  forall l m ty,
    Forall (in_range size) l -> at_pos size m ty l rest ->
    ascount m < 0 -> -32768 <= ascount m - units_left m ty l rest ->
    forall fuel, (length l + length (flat rest) < fuel)%nat ->
    exists m', collect_aspath fuel m = Some (l ++ flat rest, m').
Proof.
  assert (Hread : forall rest,
    (forall m ty, at_pos size m ty [] rest ->
       ascount m < 0 -> -32768 <= ascount m - units_left m ty [] rest ->
       forall fuel, (length (flat rest) < fuel)%nat ->
       exists m', collect_aspath fuel m = Some (flat rest, m')) ->
    forall l m ty,
      Forall (in_range size) l -> at_pos size m ty l rest ->
      ascount m < 0 -> -32768 <= ascount m - units_left m ty l rest ->
      forall fuel, (length l + length (flat rest) < fuel)%nat ->
      exists m', collect_aspath fuel m = Some (l ++ flat rest, m')).
  { clear rest. intros rest Hbase.
    induction l as [|a l IHl]; intros m ty Hr Hpos Hneg Hlow fuel Hfuel.
    - apply (Hbase m ty); assumption.
    - apply Forall_cons in Hr as [Ha Hr].
      pose proof (read_step size m ty a l rest Hsize Ha Hpos) as Hstep.
      replace (ascount m =? 0) with false in Hstep
        by (symmetry; apply Z.eqb_neq; lia).
      destruct Hstep as (e & m' & Hnext & Hae & Hpos' & Hsi & Hac & _).
      assert (H0 : 0 <= segi m) by apply Hpos.
      pose proof (units_left_read m m' ty a l rest H0 Hsi) as Hu.
      set (dec := if negb (ty =? AS_SEGMENT_SET) || (segi m =? 0) then 1 else 0) in *.
      assert (Hd : 0 <= dec <= 1) by (unfold dec; destruct (_ || _); lia).
      assert (Hul : 0 <= units_left m' ty l rest).
      { unfold units_left. pose proof (count_nonneg rest).
        destruct l; [lia|].
        destruct (ty =? AS_SEGMENT_SET); [destruct (segi m' =? 0)|]; lia. }
      rewrite int16_small in Hac by lia.
      destruct fuel as [|fuel]; [lia|].
      destruct (IHl m' ty Hr Hpos' ltac:(lia) ltac:(lia) fuel) as (m'' & Hc).
      { cbn [length] in Hfuel. lia. }
      exists m''. rewrite collect_eq, Hnext, Hc, Hae. reflexivity. }
  induction rest as [|s rest IH]; intros Hwf; apply Hread.
  - intros m ty Hpos _ _ [|fuel] Hfuel; [lia|].
    exists m. rewrite collect_eq, (end_of_path size m ty) by assumption.
    reflexivity.
  - apply Forall_cons in Hwf as [Hs Hwf].
    intros m ty Hpos Hneg Hlow fuel Hfuel.
    destruct (header_skip size m ty s rest Hpos Hs)
      as (mh & Hsame & Hposh & Hsi & Hac & _).
    rewrite (collect_congr m mh Hsame).
    pose proof (units_left_header_le m mh s rest ty Hsi) as Hle.
    change (flat (s :: rest)) with (snd s ++ flat rest) in *.
    apply (IH Hwf (snd s) mh (fst s)); try lia.
    + apply Hs.
    + exact Hposh.
    + rewrite length_app in Hfuel. lia.
Qed.
End iteration.

Lemma lead_nonpos k segs : k <= 0 -> lead k segs = [].
Proof.
  intros H. destruct segs as [|s segs]; [reflexivity|].
  cbn [lead]. replace (k <=? 0) with true by (symmetry; apply Z.leb_le; lia).
  reflexivity.
Qed.

Lemma lead_cur_read k ty fresh a l rest :
  0 < k ->
  lead_cur k ty fresh (a :: l) rest =
  a :: lead_cur (k - (if negb (ty =? AS_SEGMENT_SET) || fresh then 1 else 0))
         ty false l rest.
Proof.
  intros Hk. unfold lead_cur. cbn [lead fst snd].
  replace (k <=? 0) with false by (symmetry; apply Z.leb_gt; lia).
  destruct (ty =? AS_SEGMENT_SET); [destruct fresh|]; cbn [negb andb orb].
  - destruct (Z.eqb_spec k 1) as [->|Hk1].
    + change (1 - 1) with 0. cbn [take]. f_equal.
      destruct l; [rewrite lead_nonpos by lia|]; reflexivity.
    + replace (k - 1 <=? 0) with false by (symmetry; apply Z.leb_gt; lia).
      destruct l; reflexivity.
  - rewrite Z.sub_0_r.
    replace (k <=? 0) with false by (symmetry; apply Z.leb_gt; lia).
    destruct l; reflexivity.
  - cbn [length]. rewrite Nat2Z.inj_succ.
    destruct (Z.leb_spec k (Z.succ (Z.of_nat (length l)))) as [Hle|Hgt].
    + replace (Z.to_nat k) with (S (Z.to_nat (k - 1))) by lia. cbn [take].
      f_equal. destruct l as [|b l].
      * cbn [length] in Hle. replace (k - 1) with 0 by lia.
        rewrite lead_nonpos by lia. reflexivity.
      * destruct (Z.leb_spec (k - 1) 0).
        { replace (k - 1) with 0 by lia. reflexivity. }
        replace (k - 1 <=? Z.of_nat (length (b :: l))) with true
          by (symmetry; apply Z.leb_le; lia).
        reflexivity.
    + cbn [app]. f_equal.
      replace (k - Z.succ (Z.of_nat (length l)))
        with (k - 1 - Z.of_nat (length l)) by lia.
      destruct l as [|b l].
      * cbn [length app]. f_equal. lia.
      * replace (k - 1 <=? 0) with false by (symmetry; apply Z.leb_gt; lia).
        replace (k - 1 <=? Z.of_nat (length (b :: l))) with false
          by (symmetry; apply Z.leb_gt; lia).
        reflexivity.
Qed.

Lemma first_entry_fuel segs : forall m ty,
  at_pos 4 m ty [] segs -> wf_path 4 segs -> ascount m <> 0 ->
  forall f f', nextaspath (S f) m = nextaspath (S f') m.
Proof.
  induction segs as [|s segs IH]; intros m ty Hpos Hwf Hac f f'.
  - rewrite !(end_of_path 4 m ty) by assumption. reflexivity.
  - apply Forall_cons in Hwf as [Hs Hwf].
    destruct (header_skip 4 m ty s segs Hpos Hs)
      as (mh & Hsame & Hposh & Hsi & Hach & _).
    rewrite !Hsame.
    destruct (snd s) as [|a l] eqn:El.
    { apply (IH mh (fst s) Hposh Hwf). lia. }
    assert (Ha : in_range 4 a).
    { destruct Hs as (_ & _ & Hr). rewrite El in Hr.
      apply Forall_cons in Hr as [Ha _]. exact Ha. }
    pose proof (read_step 4 mh (fst s) a l segs (or_intror eq_refl) Ha Hposh)
      as Hstep.
    replace (ascount mh =? 0) with false in Hstep
      by (symmetry; apply Z.eqb_neq; lia).
    destruct Hstep as (e & m' & Hnext & _).
    rewrite !Hnext. reflexivity.
Qed.

Lemma lead_empty_sequence k t rest :
  t <> AS_SEGMENT_SET -> lead k ((t, []) :: rest) = lead k rest.
Proof.
  intros Ht. cbn [lead fst snd length].
  replace (t =? AS_SEGMENT_SET) with false by (symmetry; apply Z.eqb_neq; exact Ht).
  destruct (Z.leb_spec k 0); [rewrite lead_nonpos by lia; reflexivity|].
  change (Z.of_nat 0) with 0.
  replace (k <=? 0) with false by (symmetry; apply Z.leb_gt; lia).
  rewrite Z.sub_0_r. reflexivity.
Qed.

(** Iteration with a count [k >= 0] gives the leading part of AS_PATH
    that [k] covers, then the whole AS4_PATH. *)
Lemma collect_leading segs4 rest :
  wf_path 4 segs4 -> count segs4 <= 32767 -> wf_path 2 rest ->
  no_empty_set rest ->
  forall l m ty,
    Forall (in_range 2) l -> at_pos 2 m ty l rest ->
    0 <= ascount m <= 32767 -> as4ptr m = encode 4 segs4 ->
    count segs4 = units_left m ty l rest - ascount m ->
    forall fuel,
      (length l + length (flat rest) + length (flat segs4) + 1 < fuel)%nat ->
      exists m', collect_aspath fuel m =
        Some (lead_cur (ascount m) ty (segi m =? 0) l rest ++ flat segs4, m').
Proof.
  intros Hwf4 Hc4.
  assert (Hread : forall rest,
    (forall m ty, at_pos 2 m ty [] rest ->
       0 <= ascount m <= 32767 -> as4ptr m = encode 4 segs4 ->
       count segs4 = units_left m ty [] rest - ascount m ->
       forall fuel, (length (flat rest) + length (flat segs4) + 1 < fuel)%nat ->
       exists m', collect_aspath fuel m =
         Some (lead (ascount m) rest ++ flat segs4, m')) ->
    forall l m ty,
      Forall (in_range 2) l -> at_pos 2 m ty l rest ->
      0 <= ascount m <= 32767 -> as4ptr m = encode 4 segs4 ->
      count segs4 = units_left m ty l rest - ascount m ->
      forall fuel,
        (length l + length (flat rest) + length (flat segs4) + 1 < fuel)%nat ->
        exists m', collect_aspath fuel m =
          Some (lead_cur (ascount m) ty (segi m =? 0) l rest ++ flat segs4, m')).
  { clear rest. intros rest Hbase.
    induction l as [|a l IHl]; intros m ty Hr Hpos Hk Hp4 Hcount fuel Hfuel.
    - apply (Hbase m ty); assumption.
    - apply Forall_cons in Hr as [Ha Hr].
      pose proof (read_step 2 m ty a l rest (or_introl eq_refl) Ha Hpos) as Hstep.
      destruct fuel as [|fuel]; [lia|].
      destruct (Z.eqb_spec (ascount m) 0) as [E0|E0].
      + destruct Hstep as (msw & Hnext & He & Hf & Hs & Hp & Hsl & Hsi & Hac).
        assert (Hposw : at_pos 4 msw ty [] segs4).
        { unfold at_pos. rewrite Hp, Hp4, Hsl, Hsi.
          repeat split; try assumption; try reflexivity; try lia. congruence. }
        assert (Hsame : collect_aspath (S fuel) m = collect_aspath (S fuel) msw).
        { rewrite !collect_eq, (Hnext 2%nat).
          rewrite (first_entry_fuel segs4 msw ty Hposw Hwf4 ltac:(lia) 1%nat 2%nat).
          reflexivity. }
        destruct (collect_plain 4 (or_intror eq_refl) segs4 Hwf4 [] msw ty
                    (List.Forall_nil _) Hposw ltac:(lia)) with (fuel := S fuel)
          as (m' & Hc).
        { unfold units_left. lia. }
        { cbn [length]. lia. }
        exists m'. rewrite Hsame, Hc, E0. f_equal. f_equal.
        unfold lead_cur. cbn [lead]. destruct (_ && _); reflexivity.
      + destruct Hstep as (e & m' & Hnext & Hae & Hpos' & Hsi & Hac & Hp4').
        assert (H0 : 0 <= segi m) by apply Hpos.
        pose proof (units_left_read m m' ty a l rest H0 Hsi) as Hu.
        rewrite lead_cur_read by lia.
        set (dec := if negb (ty =? AS_SEGMENT_SET) || (segi m =? 0) then 1 else 0) in *.
        assert (Hd : 0 <= dec <= 1) by (unfold dec; destruct (_ || _); lia).
        rewrite int16_small in Hac by lia.
        destruct (IHl m' ty Hr Hpos' ltac:(lia) ltac:(congruence) ltac:(lia) fuel)
          as (m'' & Hc).
        { cbn [length] in Hfuel. lia. }
        exists m''. rewrite collect_eq, Hnext, Hc, Hae, Hac.
        replace (segi m' =? 0) with false by (symmetry; apply Z.eqb_neq; lia).
        reflexivity. }
  induction rest as [|s rest IH]; intros Hwf Hne; apply Hread.
  - intros m ty Hpos Hk Hp4 Hcount [|fuel] Hfuel; [lia|].
    exists m. rewrite collect_eq, (end_of_path 2 m ty) by assumption.
    unfold units_left in Hcount. cbn [count foldr] in Hcount.
    rewrite (count_zero segs4) by lia. reflexivity.
  - apply Forall_cons in Hwf as [Hs Hwf]. apply Forall_cons in Hne as [Hns Hne].
    intros m ty Hpos Hk Hp4 Hcount fuel Hfuel.
    destruct (header_skip 2 m ty s rest Hpos Hs)
      as (mh & Hsame & Hposh & Hsi & Hac & Hp4h).
    rewrite (collect_congr m mh Hsame).
    rewrite (units_left_header m mh s rest ty Hns Hsi) in Hcount.
    change (flat (s :: rest)) with (snd s ++ flat rest) in *.
    assert (Hr' : Forall (in_range 2) (snd s)) by apply Hs.
    assert (Hk' : 0 <= ascount mh <= 32767) by lia.
    assert (Hp4' : as4ptr mh = encode 4 segs4) by congruence.
    assert (Hcount' : count segs4 = units_left mh (fst s) (snd s) rest - ascount mh)
      by lia.
    assert (Hfuel' : (length (snd s) + length (flat rest) + length (flat segs4) + 1
                      < fuel)%nat) by (rewrite length_app in Hfuel; lia).
    destruct (IH Hwf Hne (snd s) mh (fst s) Hr' Hposh Hk' Hp4' Hcount' fuel Hfuel')
      as (m' & Hc).
    exists m'. rewrite Hc, Hsi, Hac. f_equal. f_equal. f_equal.
    unfold lead_cur. destruct s as [t l]. cbn [fst snd] in *.
    destruct l.
    + symmetry. apply lead_empty_sequence. intros ->. apply Hns; reflexivity.
    + rewrite andb_false_r. reflexivity.
Qed.

(** ** The counting loops on a well-formed path *)

Lemma members_length size l :
  size = 2 \/ size = 4 ->
  length (members size l) = (Z.to_nat size * length l)%nat.
Proof.
  intros Hsize. induction l as [|a l IH]; [cbn; lia|].
  change (members size (a :: l)) with (as_bytes size a ++ members size l).
  rewrite length_app, IH. cbn [length].
  destruct Hsize as [-> | ->]; cbn; lia.
Qed.

Lemma count_ases_encode size segs :
  size = 2 \/ size = 4 -> wf_path size segs ->
  forall fuel acc, (length segs < fuel)%nat ->
    count_ases fuel size (encode size segs) acc = Some (acc + count segs, false).
Proof.
  intros Hsize. induction segs as [|s segs IH]; intros Hwf fuel acc Hfuel.
  - destruct fuel; [cbn in Hfuel; lia|]. cbn. f_equal. f_equal. lia.
  - apply Forall_cons in Hwf as [Hs Hwf].
    destruct fuel as [|fuel]; [cbn in Hfuel; lia|].
    change (encode size (s :: segs))
      with (fst s :: Z.of_nat (length (snd s))
              :: (members size (snd s) ++ encode size segs)).
    cbn [count_ases].
    assert (Hskip : Z.to_nat (Z.of_nat (length (snd s)) * size)
                    = length (members size (snd s))).
    { rewrite members_length by assumption. destruct Hsize as [-> | ->]; lia. }
    rewrite Hskip.
    replace (length (members size (snd s) ++ encode size segs)
             <? length (members size (snd s)))%nat with false
      by (symmetry; apply Nat.ltb_ge; rewrite length_app; lia).
    rewrite drop_app_length.
    rewrite IH by (try assumption; cbn [length] in Hfuel; lia).
    rewrite count_cons. unfold units. f_equal. f_equal. lia.
Qed.

Lemma encode_length size segs :
  size = 2 \/ size = 4 -> wf_path size segs ->
  2 * count segs <= Z.of_nat (length (encode size segs))
  /\ 2 * Z.of_nat (length segs) <= Z.of_nat (length (encode size segs)).
Proof.
  intros Hsize. induction segs as [|s segs IH]; intros Hwf; [cbn; lia|].
  apply Forall_cons in Hwf as [Hs Hwf]. specialize (IH Hwf).
  change (encode size (s :: segs))
    with (fst s :: Z.of_nat (length (snd s))
            :: (members size (snd s) ++ encode size segs)).
  cbn [length]. rewrite length_app, members_length, count_cons by assumption.
  unfold units.
  destruct (fst s =? AS_SEGMENT_SET); destruct Hsize as [-> | ->]; lia.
Qed.

Lemma count_path_encode size segs :
  size = 2 \/ size = 4 -> wf_path size segs ->
  count_path size (encode size segs) = Some (count segs, false).
Proof.
  intros Hsize Hwf. unfold count_path.
  rewrite count_ases_encode; try assumption; [reflexivity|].
  pose proof (encode_length size segs Hsize Hwf).
  pose proof (count_nonneg segs). lia.
Qed.

(** ** Paths of AS_SEQUENCE segments *)

Definition only_sequences (segs : list segment) : Prop :=
  Forall (fun s => fst s <> AS_SEGMENT_SET) segs.

Lemma count_sequences segs :
  only_sequences segs -> count segs = Z.of_nat (length (flat segs)).
Proof.
  induction segs as [|s segs IH]; intros H; [reflexivity|].
  apply Forall_cons in H as [Hs H].
  change (flat (s :: segs)) with (snd s ++ flat segs).
  rewrite count_cons, length_app, IH by assumption. unfold units.
  replace (fst s =? AS_SEGMENT_SET) with false
    by (symmetry; apply Z.eqb_neq; assumption).
  lia.
Qed.

Lemma lead_sequences segs :
  only_sequences segs ->
  forall k, lead k segs = take (Z.to_nat k) (flat segs).
Proof.
  induction segs as [|s segs IH]; intros H k.
  - cbn. rewrite take_nil. reflexivity.
  - apply Forall_cons in H as [Hs H].
    change (flat (s :: segs)) with (snd s ++ flat segs).
    cbn [lead].
    replace (fst s =? AS_SEGMENT_SET) with false
      by (symmetry; apply Z.eqb_neq; assumption).
    destruct (Z.leb_spec k 0).
    { replace (Z.to_nat k) with 0%nat by lia. reflexivity. }
    destruct (Z.leb_spec k (Z.of_nat (length (snd s)))).
    + rewrite take_app_le by lia. reflexivity.
    + rewrite IH by assumption.
      rewrite take_app_ge by lia. do 2 f_equal. lia.
Qed.

(** ** [startrealaspath] followed by the iteration *)

(** The flags of the iterations that [endpending] terminates. *)
Definition ITER_FLAGS : Z :=
  Z.lor F_PM (Z.lor F_WITHDRN (Z.lor F_PATTR (Z.lor F_NLRI
    (Z.lor F_ASPATH (Z.lor F_NHOP F_COMMUNITY))))).

(** AGGREGATOR and AS4_AGGREGATOR are both present and the AS of
    AGGREGATOR is not AS_TRANS. *)
Definition aggregator_veto (m : ubgp_msg_s) : bool :=
  match attr_aggregator m, attr_as4_aggregator m with
  | Some aggr, Some _ => negb (getaggregatoras aggr =? AS_TRANS)
  | _, _ => false
  end.

(** The ASes the iteration emits after [startrealaspath]. *)
Definition real_path (veto : bool) (segs segs4 : list segment) : list Z :=
  if veto || (count segs <? count segs4) then flat segs
  else lead (count segs - count segs4) segs ++ flat segs4.

(** An UPDATE, read, with no error and no iteration open, decoded without
    ASN32BIT, whose AS_PATH and AS4_PATH hold the segments [segs] and
    [segs4]. *)
Record as4_update (m : ubgp_msg_s) (segs segs4 : list segment) : Prop := {
  upd_type : msgtype m = BGP_UPDATE;
  upd_err : err m = 0;
  upd_read : Z.land (flags m) F_RD = F_RD;
  upd_idle : Z.land (flags m) ITER_FLAGS = 0;
  upd_as16 : Z.land (flags m) F_ASN32BIT = 0;
  upd_path : attr_as_path m = Some (encode 2 segs);
  upd_path4 : attr_as4_path m = Some (encode 4 segs4);
  upd_wf : wf_path 2 segs;
  upd_wf4 : wf_path 4 segs4;
  upd_len : Z.of_nat (length (encode 2 segs)) <= 65535;
  upd_len4 : Z.of_nat (length (encode 4 segs4)) <= 65535
}.

Lemma land_lor_keep a b c : Z.land a c = c -> Z.land (Z.lor a b) c = c.
Proof.
  intros H. rewrite Z.land_lor_distr_l, H. apply Z.bits_inj'. intros n Hn.
  rewrite Z.lor_spec, Z.land_spec. destruct (Z.testbit c n), (Z.testbit b n); reflexivity.
Qed.

Lemma land_lor_self a c : Z.land (Z.lor a c) c = c.
Proof.
  apply Z.bits_inj'. intros n Hn.
  rewrite Z.land_spec, Z.lor_spec. destruct (Z.testbit c n), (Z.testbit a n); reflexivity.
Qed.

Lemma checktype_ok m :
  msgtype m = BGP_UPDATE -> err m = 0 -> Z.land (flags m) F_RD = F_RD ->
  checktypeandflags BGP_UPDATE F_RD m = (m, true).
Proof.
  intros Ht He Hf. unfold checktypeandflags, has_flags.
  rewrite Ht, Z.eqb_refl. cbn [negb]. rewrite Hf, Z.eqb_refl. cbn [negb].
  rewrite He. reflexivity.
Qed.

Section start.
Variable end_other : ubgp_msg_s -> ubgp_msg_s.
Variables (m : ubgp_msg_s) (segs segs4 : list segment).
Hypothesis Hm : as4_update m segs segs4.

(** The message after the common part of [startrealaspath]. *)
Definition started : ubgp_msg_s :=
  set_iter (encode 2 segs) (as4ptr m) 0 0 (-1)
    (mk_pathent 2 (type (asp m)) (-1) (as_ (asp m)))
    (set_flags (Z.lor (flags m) F_ASPATH) m).

(** The message when the two paths are to be merged. *)
Definition merging : ubgp_msg_s :=
  set_flags (Z.lor (Z.lor (flags m) F_ASPATH) F_REALASPATH)
    (set_iter (encode 2 segs) (encode 4 segs4) 0 0
       (int16 (count segs - count segs4)) (asp started) started).

Lemma startrealaspath_result :
  startrealaspath end_other m =
  Some (if aggregator_veto m || (count segs <? count segs4)
        then started else merging, BGP_ENOERR).
Proof.
  destruct Hm. unfold startrealaspath.
  rewrite checktype_ok by assumption. cbn [negb].
  assert (Hend : endpending end_other m = m).
  { unfold endpending. cbv zeta. fold ITER_FLAGS. rewrite upd_idle0. reflexivity. }
  rewrite Hend. cbv zeta. cbn [flags set_flags attr_as_path asp as4ptr].
  assert (H16 : Z.land (Z.lor (flags m) F_ASPATH) F_ASN32BIT = 0).
  { rewrite Z.land_lor_distr_l, upd_as17. reflexivity. }
  rewrite H16, upd_path0. cbn [Z.eqb negb Pos.eqb].
  fold started.
  change (attr_aggregator started) with (attr_aggregator m).
  change (attr_as4_aggregator started) with (attr_as4_aggregator m).
  change (attr_as4_path started) with (attr_as4_path m).
  fold (aggregator_veto m).
  destruct (aggregator_veto m); [reflexivity|]. cbn [orb].
  rewrite upd_path5.
  rewrite !count_path_encode by (auto).
  destruct (count segs <? count segs4); reflexivity.
Qed.
End start.

(** What a caller collects: [startrealaspath], then [nextaspath] until it
    returns [NULL]. *)
Definition emitted (end_other : ubgp_msg_s -> ubgp_msg_s) (fuel : nat)
    (m : ubgp_msg_s) : option (list Z) :=
  match startrealaspath end_other m with
  | Some (m1, e) =>
      if e =? BGP_ENOERR then option_map fst (collect_aspath fuel m1) else None
  | None => None
  end.

(** An UPDATE with AS_PATH = SEQ 1 23456 23456, AS4_PATH = SEQ 70000 80000
    and the given AGGREGATOR and AS4_AGGREGATOR. *)
Definition as4_sample (aggr aggr4 : option (list Z)) : ubgp_msg_s :=
  mk_msg F_RD 0 BGP_UPDATE
    (Some [2; 3; 0; 1; 91; 160; 91; 160])
    (Some [2; 2; 0; 1; 17; 112; 0; 1; 56; 128])
    aggr aggr4 [] [] 0 0 0 (mk_pathent 0 0 0 0).

Definition sample_path : list segment := [(AS_SEGMENT_SEQ, [1; 23456; 23456])].
Definition sample_path4 : list segment := [(AS_SEGMENT_SEQ, [70000; 80000])].

(** AGGREGATOR with AS 65000 and AS4_AGGREGATOR with AS 70000, both of
    10.0.0.1. *)
Definition aggr_65000 : list Z := [253; 232; 10; 0; 0; 1].
Definition aggr4_70000 : list Z := [0; 1; 17; 112; 10; 0; 0; 1].

Lemma as4_sample_update aggr aggr4 :
  as4_update (as4_sample aggr aggr4) sample_path sample_path4.
Proof.
  constructor.
  - reflexivity.
  - reflexivity.
  - reflexivity.
  - reflexivity.
  - reflexivity.
  - reflexivity.
  - reflexivity.
  - apply List.Forall_cons; [|apply List.Forall_nil].
    split; [vm_compute; split; [discriminate|reflexivity]|].
    split; [cbn; lia|]. cbn [snd].
    repeat (apply List.Forall_cons; [vm_compute; split; [discriminate|reflexivity]|]).
    apply List.Forall_nil.
  - apply List.Forall_cons; [|apply List.Forall_nil].
    split; [vm_compute; split; [discriminate|reflexivity]|].
    split; [cbn; lia|]. cbn [snd].
    repeat (apply List.Forall_cons; [vm_compute; split; [discriminate|reflexivity]|]).
    apply List.Forall_nil.
  - vm_compute. discriminate.
  - vm_compute. discriminate.
Qed.

Lemma started_at m segs :
  err m = 0 -> at_pos 2 (started m segs) 0 [] segs.
Proof.
  intros He. unfold at_pos, started.
  cbn [err flags asp as_size asptr seglen segi type set_iter set_flags length].
  repeat split; try assumption; try reflexivity; try lia.
  - apply land_lor_self.
  - intros H. contradiction.
Qed.

Lemma merging_at m segs segs4 :
  err m = 0 -> at_pos 2 (merging m segs segs4) 0 [] segs.
Proof.
  intros He. unfold at_pos, merging, started.
  cbn [err flags asp as_size asptr seglen segi type set_iter set_flags length].
  repeat split; try assumption; try reflexivity; try lia.
  - apply land_lor_keep, land_lor_self.
  - intros H. contradiction.
Qed.

(** C1 (as stated) fails: with AGGREGATOR and AS4_AGGREGATOR present and
    the AS of AGGREGATOR other than AS_TRANS, AS4_PATH is ignored although
    count(AS_PATH) = 3 >= count(AS4_PATH) = 2: the path emitted is AS_PATH,
    not its first AS followed by AS4_PATH. *)
Lemma aggregator_veto_keeps_as_path :
  count sample_path4 <= count sample_path
  /\ emitted (fun m => m) 8 (as4_sample (Some aggr_65000) (Some aggr4_70000))
     = Some [1; 23456; 23456]
  /\ take (Z.to_nat (count sample_path - count sample_path4)) (flat sample_path)
       ++ flat sample_path4 = [1; 70000; 80000].
Proof. vm_compute. repeat split; try reflexivity. discriminate. Qed.

(** What the iteration emits, in full: [startrealaspath] succeeds and
    [nextaspath] called until [NULL] gives [real_path]. *)
Lemma real_aspath_emitted end_other m segs segs4 fuel :
  as4_update m segs segs4 ->
  aggregator_veto m || (count segs <? count segs4) = true \/ no_empty_set segs ->
  (length (flat segs) + length (flat segs4) + 1 < fuel)%nat ->
  exists m1 m2,
    startrealaspath end_other m = Some (m1, BGP_ENOERR)
    /\ collect_aspath fuel m1
       = Some (real_path (aggregator_veto m) segs segs4, m2).
Proof.
  intros Hm Hne Hfuel.
  pose proof (encode_length 2 segs (or_introl eq_refl) (upd_wf _ _ _ Hm)) as Hb.
  pose proof (encode_length 4 segs4 (or_intror eq_refl) (upd_wf4 _ _ _ Hm)) as Hb4.
  pose proof (upd_len _ _ _ Hm) as Hl. pose proof (upd_len4 _ _ _ Hm) as Hl4.
  pose proof (count_nonneg segs) as Hc. pose proof (count_nonneg segs4) as Hc4.
  rewrite (startrealaspath_result end_other m segs segs4 Hm).
  unfold real_path.
  destruct (aggregator_veto m || (count segs <? count segs4)) eqn:E.
  - destruct (collect_plain 2 (or_introl eq_refl) segs (upd_wf _ _ _ Hm) []
                (started m segs) 0 (List.Forall_nil _)
                (started_at m segs (upd_err _ _ _ Hm))) with (fuel := fuel)
      as (m2 & Hc2).
    + cbn. lia.
    + unfold units_left. cbn [ascount started set_iter]. lia.
    + cbn [length]. lia.
    + eexists _, m2. split; [reflexivity|exact Hc2].
  - destruct Hne as [Hne|Hne]; [discriminate|].
    apply orb_false_iff in E as [_ E]. apply Z.ltb_ge in E.
    assert (Hk : ascount (merging m segs segs4) = count segs - count segs4).
    { unfold merging. cbn [ascount set_flags set_iter].
      apply int16_small. lia. }
    destruct (collect_leading segs4 segs (upd_wf4 _ _ _ Hm) ltac:(lia)
                (upd_wf _ _ _ Hm) Hne [] (merging m segs segs4) 0
                (List.Forall_nil _) (merging_at m segs segs4 (upd_err _ _ _ Hm)))
      with (fuel := fuel) as (m2 & Hc2).
    + rewrite Hk. lia.
    + reflexivity.
    + rewrite Hk. unfold units_left. lia.
    + cbn [length]. lia.
    + eexists _, m2. split; [reflexivity|].
      rewrite Hc2, Hk. reflexivity.
Qed.

(** ** The reconciled path, in the claim's words *)

(** The first [k] entries of a path, as segments: an AS of an AS_SEQUENCE
    is one entry, an AS_SET is one entry as a whole. *)
Fixpoint first_entries (k : Z) (segs : list segment) : list segment :=
  match segs with
  | [] => []
  | s :: rest =>
      if k <=? 0 then []
      else if fst s =? AS_SEGMENT_SET then s :: first_entries (k - 1) rest
      else if k <=? Z.of_nat (length (snd s))
      then [(fst s, take (Z.to_nat k) (snd s))]
      else s :: first_entries (k - Z.of_nat (length (snd s))) rest
  end.

(** The real AS path: AS_PATH when AS4_PATH is to be ignored, else the
    first count(AS_PATH) - count(AS4_PATH) entries of AS_PATH followed by
    AS4_PATH. *)
Definition reconciled (veto : bool) (segs segs4 : list segment) : list segment :=
  if veto || (count segs <? count segs4) then segs
  else first_entries (count segs - count segs4) segs ++ segs4.

(** The [k]-th entry of the path is an AS_SET of more than one AS. *)
Fixpoint ends_on_set (k : Z) (segs : list segment) : bool :=
  match segs with
  | [] => false
  | s :: rest =>
      if k <=? 0 then false
      else if fst s =? AS_SEGMENT_SET then
        if k =? 1 then 1 <? Z.of_nat (length (snd s))
        else ends_on_set (k - 1) rest
      else if k <=? Z.of_nat (length (snd s)) then false
      else ends_on_set (k - Z.of_nat (length (snd s))) rest
  end.

Lemma flat_cons s segs : flat (s :: segs) = snd s ++ flat segs.
Proof. reflexivity. Qed.

Lemma flat_app segs segs' : flat (segs ++ segs') = flat segs ++ flat segs'.
Proof.
  induction segs as [|s segs IH]; [reflexivity|].
  cbn [app]. rewrite !flat_cons, IH, app_assoc. reflexivity.
Qed.

Lemma count_app segs segs' : count (segs ++ segs') = count segs + count segs'.
Proof.
  induction segs as [|s segs IH]; [reflexivity|].
  cbn [app]. rewrite !count_cons, IH. lia.
Qed.

Lemma first_entries_nonpos k segs : k <= 0 -> first_entries k segs = [].
Proof.
  intros Hk. destruct segs as [|s rest]; [reflexivity|].
  cbn [first_entries]. destruct (Z.leb_spec k 0); [reflexivity|lia].
Qed.

(** The entries are counted as the claim counts them. *)
Lemma count_first_entries segs : forall k,
  0 <= k <= count segs -> count (first_entries k segs) = k.
Proof.
  induction segs as [|s rest IH]; intros k Hk.
  - cbn in Hk |- *. lia.
  - rewrite count_cons in Hk. cbn [first_entries].
    destruct (Z.leb_spec k 0); [cbn; lia|].
    unfold units in Hk.
    destruct (fst s =? AS_SEGMENT_SET) eqn:Es.
    + rewrite count_cons, IH by lia. unfold units. rewrite Es. lia.
    + destruct (Z.leb_spec k (Z.of_nat (length (snd s)))).
      * rewrite count_cons. unfold units at 1. cbn [fst snd]. rewrite Es.
        rewrite length_take. change (count []) with 0. lia.
      * rewrite count_cons, IH by lia. unfold units. rewrite Es. lia.
Qed.

(** Where the count does not end on an AS_SET of several ASes, the
    iterator emits the first [k] entries. *)
Lemma lead_first_entries segs : forall k,
  ends_on_set k segs = false -> lead k segs = flat (first_entries k segs).
Proof.
  induction segs as [|s rest IH]; intros k; [reflexivity|].
  cbn [lead first_entries ends_on_set].
  destruct (Z.leb_spec k 0) as [Hk|Hk]; [reflexivity|].
  destruct (fst s =? AS_SEGMENT_SET).
  - destruct (Z.eqb_spec k 1) as [Hk1|Hk1]; intros H.
    + apply Z.ltb_ge in H.
      rewrite flat_cons, first_entries_nonpos by lia.
      change (flat []) with (@nil Z). rewrite app_nil_r.
      apply take_ge. lia.
    + rewrite flat_cons, IH by exact H. reflexivity.
  - destruct (Z.leb_spec k (Z.of_nat (length (snd s)))) as [Hl|Hl]; intros H.
    + rewrite flat_cons. cbn [snd]. change (flat []) with (@nil Z).
      rewrite app_nil_r. reflexivity.
    + rewrite flat_cons, IH by exact H. reflexivity.
Qed.

Lemma first_entries_sequences segs :
  only_sequences segs ->
  forall k, flat (first_entries k segs) = take (Z.to_nat k) (flat segs).
Proof.
  intros Hseq k. rewrite <- lead_sequences by exact Hseq.
  symmetry. apply lead_first_entries.
  revert k. induction segs as [|s rest IH]; intros k; [reflexivity|].
  apply Forall_cons in Hseq as [Hs Hseq]. cbn [ends_on_set].
  replace (fst s =? AS_SEGMENT_SET) with false
    by (symmetry; apply Z.eqb_neq; assumption).
  destruct (k <=? 0); [reflexivity|].
  destruct (k <=? Z.of_nat (length (snd s))); [reflexivity|].
  apply IH. exact Hseq.
Qed.

(** An UPDATE that was read, carrying the two paths and neither
    AGGREGATOR nor AS4_AGGREGATOR. *)
Definition as4_message (segs segs4 : list segment) : ubgp_msg_s :=
  mk_msg F_RD 0 BGP_UPDATE (Some (encode 2 segs)) (Some (encode 4 segs4))
    None None [] [] 0 0 0 (mk_pathent 0 0 0 0).

(** AS_PATH = SET {1, 2}, SEQ 23456 23456 with AS4_PATH = SEQ 70000: the
    two leading entries are the set and the first AS of the sequence. *)
Definition set_path : list segment :=
  [(AS_SEGMENT_SET, [1; 2]); (AS_SEGMENT_SEQ, [23456; 23456])].
Definition set_path4 : list segment := [(AS_SEGMENT_SEQ, [70000])].

(** AS_PATH = SET {1, 2, 3}, SEQ 4 with AS4_PATH = SEQ 70000: the one
    leading entry is the set. *)
Definition cut_path : list segment :=
  [(AS_SEGMENT_SET, [1; 2; 3]); (AS_SEGMENT_SEQ, [4])].

Ltac wf_sample :=
  repeat (apply List.Forall_cons;
          [split; [vm_compute; split; [discriminate|reflexivity]|];
           split; [cbn; lia|]; cbn [snd];
           repeat (apply List.Forall_cons;
                   [vm_compute; split; [discriminate|reflexivity]|]);
           apply List.Forall_nil|]);
  apply List.Forall_nil.

Lemma set_sample_update : as4_update (as4_message set_path set_path4) set_path set_path4.
Proof.
  constructor; try reflexivity.
  - wf_sample.
  - wf_sample.
  - vm_compute. discriminate.
  - vm_compute. discriminate.
Qed.

(** On an AS_SET of several ASes on which the count ends, the iteration
    emits the first AS of the set only: with AS_PATH = SET {1, 2, 3}, SEQ 4
    and AS4_PATH = SEQ 70000 it gives 1 70000, where the first entry of
    AS_PATH followed by AS4_PATH is 1 2 3 70000. *)
Lemma boundary_set_is_cut :
  emitted (fun m => m) 8 (as4_message cut_path set_path4) = Some [1; 70000]
  /\ flat (reconciled false cut_path set_path4) = [1; 2; 3; 70000]
  /\ ends_on_set (count cut_path - count set_path4) cut_path = true.
Proof. vm_compute. repeat split; reflexivity. Qed.

(** An empty AS_SET, which no well-formed AS_PATH holds, is counted 1 by
    [startrealaspath] and passed over by [nextaspath] without a count: with
    AS_PATH = SET {}, SEQ 1 2 and AS4_PATH = SEQ 70000 the iteration gives
    1 2 and never reaches AS4_PATH. *)
Lemma empty_set_is_not_counted_down :
  emitted (fun m => m) 8
    (as4_message [(AS_SEGMENT_SET, []); (AS_SEGMENT_SEQ, [1; 2])] set_path4)
  = Some [1; 2]
  /\ flat (reconciled false [(AS_SEGMENT_SET, []); (AS_SEGMENT_SEQ, [1; 2])]
             set_path4) = [1; 70000].
Proof. vm_compute. split; reflexivity. Qed.

(** C1 (amended): for an UPDATE that was read, with no error and no
    iteration in progress, decoded without ASN32BIT, that carries AS_PATH
    and AS4_PATH (at most 65535 bytes each), [startrealaspath] succeeds
    and [nextaspath] called until [NULL] emits the ASes of the reconciled
    path.  With an AS_SET counted 1, that path is AS_PATH when AGGREGATOR
    and AS4_AGGREGATOR are both present with an AGGREGATOR AS other than
    AS_TRANS, or when count(AS_PATH) < count(AS4_PATH); otherwise it is
    the first count(AS_PATH) - count(AS4_PATH) entries of AS_PATH followed
    by AS4_PATH, its count is count(AS_PATH) and its tail is AS4_PATH.
    This last case holds provided no AS_SET of AS_PATH is empty and the
    last of those first entries is not an AS_SET of several ASes.  For
    paths of AS_SEQUENCE segments the first entries are the first
    count(AS_PATH) - count(AS4_PATH) ASes. *)
Theorem real_aspath_reconciled end_other m segs segs4 fuel :
  as4_update m segs segs4 ->
  aggregator_veto m = true \/ count segs < count segs4
  \/ (no_empty_set segs
      /\ ends_on_set (count segs - count segs4) segs = false) ->
  (length (flat segs) + length (flat segs4) + 1 < fuel)%nat ->
  exists m1 m2,
    startrealaspath end_other m = Some (m1, BGP_ENOERR)
    /\ collect_aspath fuel m1
       = Some (flat (reconciled (aggregator_veto m) segs segs4), m2)
    /\ (aggregator_veto m = true \/ count segs < count segs4 ->
        reconciled (aggregator_veto m) segs segs4 = segs)
    /\ (aggregator_veto m = false -> count segs4 <= count segs ->
        reconciled (aggregator_veto m) segs segs4
        = first_entries (count segs - count segs4) segs ++ segs4
        /\ count (first_entries (count segs - count segs4) segs)
           = count segs - count segs4
        /\ count (reconciled (aggregator_veto m) segs segs4) = count segs
        /\ (only_sequences segs ->
            flat (first_entries (count segs - count segs4) segs)
            = take (Z.to_nat (count segs - count segs4)) (flat segs))).
Proof.
  intros Hm Hset Hfuel.
  pose proof (count_nonneg segs) as Hc. pose proof (count_nonneg segs4) as Hc4.
  destruct (real_aspath_emitted end_other m segs segs4 fuel Hm) as
    (m1 & m2 & Hs & Hcol); [|exact Hfuel|].
  { destruct Hset as [Hv|[Hlt|[Hne _]]].
    - left. rewrite Hv. reflexivity.
    - left. apply orb_true_iff. right. apply Z.ltb_lt. exact Hlt.
    - right. exact Hne. }
  exists m1, m2. split; [exact Hs|]. split; [|split].
  - rewrite Hcol. do 2 f_equal. unfold real_path, reconciled.
    destruct (aggregator_veto m) eqn:Ev; [reflexivity|]. cbn [orb].
    destruct (Z.ltb_spec (count segs) (count segs4)) as [Hlt|Hge]; [reflexivity|].
    destruct Hset as [Hv|[Hlt|[_ Hset]]]; [discriminate|lia|].
    rewrite flat_app, lead_first_entries by exact Hset. reflexivity.
  - intros [Hv|Hlt]; unfold reconciled.
    + rewrite Hv. reflexivity.
    + replace (count segs <? count segs4) with true
        by (symmetry; apply Z.ltb_lt; lia).
      rewrite orb_true_r. reflexivity.
  - intros Hv Hle. unfold reconciled. rewrite Hv. cbn [orb].
    replace (count segs <? count segs4) with false
      by (symmetry; apply Z.ltb_ge; lia).
    split; [reflexivity|].
    assert (Hk : count (first_entries (count segs - count segs4) segs)
                 = count segs - count segs4)
      by (apply count_first_entries; lia).
    split; [exact Hk|]. split.
    + rewrite count_app, Hk. lia.
    + intros Hseq. apply first_entries_sequences. exact Hseq.
Qed.

Lemma real_aspath_reconciled_witness :
  as4_update (as4_message set_path set_path4) set_path set_path4
  /\ exists m1 m2,
       startrealaspath (fun m => m) (as4_message set_path set_path4)
       = Some (m1, BGP_ENOERR)
       /\ collect_aspath 8 m1 = Some ([1; 2; 23456; 70000], m2).
Proof.
  split; [apply set_sample_update|].
  destruct (real_aspath_reconciled (fun m => m) (as4_message set_path set_path4)
              set_path set_path4 8 set_sample_update)
    as (m1 & m2 & Hs & Hc & _).
  - right. right. split; [|vm_compute; reflexivity].
    repeat (apply List.Forall_cons; [intros _; discriminate|]).
    apply List.Forall_nil.
  - vm_compute. lia.
  - exists m1, m2. split; [exact Hs|exact Hc].
Defined.
End AsPathFacts.

(** * Facts: comparison of prefixes (netaddr.h, [patcompwithmask]) *)

Module PrefixBits.
Import NetAddr Patricia.

(** The mask of a partial byte: [0xffffffff << (8 - k)] as a [uint]. *)
Definition byte_mask (k : Z) : Z := uint32 (Z.shiftl (2 ^ 32 - 1) (8 - k)).

(** The [k] most significant bits of two bytes agree. *)
Definition bits_agree (x y k : Z) : bool :=
  forallb (fun j => Bool.eqb (Z.testbit x (7 - j)) (Z.testbit y (7 - j)))
          (seqZ 0 k).

(** The first [n] bytes of two payloads agree. *)
Definition bytes_agree (a b : netaddr_t) (n : Z) : Prop :=
  forall i, 0 <= i < n -> byte_at a i = byte_at b i.

Lemma forallb_seqZ (f : Z -> bool) n :
  forallb f (seqZ 0 n) = true <-> forall i, 0 <= i < n -> f i = true.
Proof.
  rewrite forallb_forall. split.
  - intros H i Hi. apply H. apply list_elem_of_In, elem_of_seqZ. lia.
  - intros H i Hi. apply list_elem_of_In, elem_of_seqZ in Hi. apply H. lia.
Qed.

(** The [k] most significant bits of a byte are 0. *)
Definition zero_top (z k : Z) : bool :=
  forallb (fun j => negb (Z.testbit z (7 - j))) (seqZ 0 k).

Lemma zero_top_table :
  forallb (fun k =>
    forallb (fun z => Bool.eqb (Z.land z (byte_mask k) =? 0) (zero_top z k))
            (seqZ 0 256)) (seqZ 0 9) = true.
Proof. vm_compute. reflexivity. Qed.

Lemma lxor_byte_table :
  forallb (fun x => forallb (fun y => Z.lxor x y <? 256) (seqZ 0 256))
          (seqZ 0 256) = true.
Proof. vm_compute. reflexivity. Qed.

Lemma lxor_byte x y :
  0 <= x < 256 -> 0 <= y < 256 -> 0 <= Z.lxor x y < 256.
Proof.
  intros Hx Hy. split; [apply Z.lxor_nonneg; lia|].
  pose proof lxor_byte_table as H.
  rewrite forallb_seqZ in H. specialize (H x Hx).
  rewrite forallb_seqZ in H. specialize (H y Hy).
  apply Z.ltb_lt in H. exact H.
Qed.

Lemma land_eq_lxor x y m :
  (Z.land x m =? Z.land y m) = (Z.land (Z.lxor x y) m =? 0).
Proof.
  assert (E : Z.land (Z.lxor x y) m = Z.lxor (Z.land x m) (Z.land y m)).
  { apply Z.bits_inj'. intros n Hn.
    rewrite Z.land_spec, !Z.lxor_spec, !Z.land_spec.
    destruct (Z.testbit x n), (Z.testbit y n), (Z.testbit m n); reflexivity. }
  rewrite E.
  destruct (Z.eqb_spec (Z.land x m) (Z.land y m)) as [H|H];
    destruct (Z.eqb_spec (Z.lxor (Z.land x m) (Z.land y m)) 0) as [H'|H'];
    try reflexivity.
  - rewrite H, Z.lxor_nilpotent in H'. contradiction.
  - apply Z.lxor_eq in H'. contradiction.
Qed.

Lemma forallb_same {A} (f g : A -> bool) l :
  (forall x, f x = g x) -> forallb f l = forallb g l.
Proof.
  intros H. induction l as [|x l IH]; [reflexivity|].
  cbn [forallb]. rewrite H, IH. reflexivity.
Qed.

Lemma masked_bytes x y k :
  0 <= x < 256 -> 0 <= y < 256 -> 0 <= k <= 8 ->
  (Z.land x (byte_mask k) =? Z.land y (byte_mask k)) = bits_agree x y k.
Proof.
  intros Hx Hy Hk. rewrite land_eq_lxor.
  pose proof zero_top_table as H.
  rewrite forallb_seqZ in H. specialize (H k ltac:(lia)).
  rewrite forallb_seqZ in H. specialize (H (Z.lxor x y) (lxor_byte x y Hx Hy)).
  apply Bool.eqb_prop in H. rewrite H.
  unfold zero_top, bits_agree. apply forallb_same. intros j.
  rewrite Z.lxor_spec.
  destruct (Z.testbit x (7 - j)), (Z.testbit y (7 - j)); reflexivity.
Qed.

Lemma bits_agree_spec x y k :
  bits_agree x y k = true <->
  forall j, 0 <= j < k -> Z.testbit x (7 - j) = Z.testbit y (7 - j).
Proof.
  unfold bits_agree. rewrite forallb_seqZ. split; intros H j Hj.
  - apply Bool.eqb_prop, H, Hj.
  - rewrite (H j Hj). apply Bool.eqb_reflx.
Qed.

Lemma byte_eq_bits x y :
  0 <= x < 256 -> 0 <= y < 256 ->
  (forall j, 0 <= j < 8 -> Z.testbit x (7 - j) = Z.testbit y (7 - j)) ->
  x = y.
Proof.
  intros Hx Hy H. apply bits_agree_spec in H.
  rewrite <- masked_bytes in H by lia.
  apply Z.eqb_eq in H. change (byte_mask 8) with (Z.ones 32) in H.
  rewrite !Z.land_ones in H by lia.
  rewrite !Z.mod_small in H by lia. exact H.
Qed.

Lemma byte_at_range a i :
  wf_bytes a -> 0 <= i < 16 -> 0 <= byte_at a i < 256.
Proof.
  intros [Hl Hr] Hi. unfold byte_at.
  rewrite List.Forall_forall in Hr. apply Hr. apply nth_In. lia.
Qed.

Lemma first_bits_split a b n :
  wf_bytes a -> wf_bytes b -> 0 <= n <= 128 ->
  first_bits_eq a b n <->
  bytes_agree a b (n / 8)
  /\ (forall j, 0 <= j < n mod 8 ->
      Z.testbit (byte_at a (n / 8)) (7 - j) = Z.testbit (byte_at b (n / 8)) (7 - j)).
Proof.
  intros Ha Hb Hn. unfold first_bits_eq, bytes_agree, addr_bit. split.
  - intros H. split.
    + intros i Hi. apply byte_eq_bits.
      * apply byte_at_range; [assumption|]. Z.div_mod_to_equations; lia.
      * apply byte_at_range; [assumption|]. Z.div_mod_to_equations; lia.
      * intros j Hj. specialize (H (8 * i + j)).
        replace ((8 * i + j) / 8) with i in H by (Z.div_mod_to_equations; lia).
        replace ((8 * i + j) mod 8) with j in H by (Z.div_mod_to_equations; lia).
        apply H. Z.div_mod_to_equations; lia.
    + intros j Hj. specialize (H (8 * (n / 8) + j)).
      replace ((8 * (n / 8) + j) / 8) with (n / 8) in H
        by (Z.div_mod_to_equations; lia).
      replace ((8 * (n / 8) + j) mod 8) with j in H
        by (Z.div_mod_to_equations; lia).
      apply H. Z.div_mod_to_equations; lia.
  - intros [Hbytes Hbits] i Hi.
    destruct (Z.lt_ge_cases (i / 8) (n / 8)) as [Hlt|Hge].
    + rewrite (Hbytes (i / 8)) by (Z.div_mod_to_equations; lia). reflexivity.
    + assert (E : i / 8 = n / 8) by (Z.div_mod_to_equations; lia).
      rewrite E. apply Hbits. Z.div_mod_to_equations; lia.
Qed.


Lemma land7 n : 0 <= n -> Z.land n 7 = n mod 8.
Proof. intros H. change 7 with (Z.ones 3). rewrite Z.land_ones by lia. reflexivity. Qed.

Lemma byte_chk_ok a i :
  wf_bytes a -> 0 <= i < 16 -> byte_chk a i = Ok (byte_at a i).
Proof.
  intros [Hl _] Hi. unfold byte_chk, byte_at.
  replace ((0 <=? i) && (i <? 16)) with true
    by (symmetry; apply andb_true_iff; split; [apply Z.leb_le|apply Z.ltb_lt]; lia).
  destruct (bytes a !! Z.to_nat i) as [x|] eqn:E.
  - rewrite (nth_lookup_Some _ _ 0 _ E). reflexivity.
  - apply lookup_ge_None in E. lia.
Qed.

Lemma memcmp_agree a b n :
  0 <= n ->
  forallb (fun i => nth i (bytes a) 0 =? nth i (bytes b) 0) (seq 0 (Z.to_nat n)) = true
  <-> bytes_agree a b n.
Proof.
  intros Hn. rewrite forallb_forall. unfold bytes_agree, byte_at. split.
  - intros H i Hi. apply Z.eqb_eq, H, in_seq. lia.
  - intros H i Hi. apply in_seq in Hi. apply Z.eqb_eq.
    specialize (H (Z.of_nat i) ltac:(lia)). rewrite Nat2Z.id in H. exact H.
Qed.

Lemma patcompwithmask_bits a b mask :
  wf_bytes a -> wf_bytes b -> 0 <= mask <= 128 ->
  exists r, patcompwithmask a b mask = Ok r
            /\ (r = true <-> first_bits_eq a b mask).
Proof.
  intros Ha Hb Hm. unfold patcompwithmask. cbv zeta.
  assert (Hn : 0 <= mask / 8 <= 16) by (Z.div_mod_to_equations; lia).
  replace (16 <? mask / 8) with false by (symmetry; apply Z.ltb_ge; lia).
  pose proof (first_bits_split a b mask Ha Hb Hm) as Hsplit.
  pose proof (memcmp_agree a b (mask / 8) ltac:(lia)) as Hcmp.
  destruct (forallb _ _).
  - rewrite land7 by lia. destruct (Z.eqb_spec (mask mod 8) 0) as [E|E].
    + exists true. split; [reflexivity|]. split; [|reflexivity].
      intros _. apply Hsplit.
      split; [apply Hcmp; reflexivity|]. intros j Hj. lia.
    + assert (Hlt : mask / 8 < 16) by (Z.div_mod_to_equations; lia).
      rewrite !byte_chk_ok by (try assumption; lia).
      eexists. split; [reflexivity|].
      fold (byte_mask (mask mod 8)).
      rewrite masked_bytes;
        try (apply byte_at_range; [assumption|lia]);
        try (Z.div_mod_to_equations; lia).
      rewrite bits_agree_spec. split.
      * intros H. apply Hsplit. split; [apply Hcmp; reflexivity|exact H].
      * intros H. apply Hsplit in H. apply H.
  - exists false. split; [reflexivity|]. split; [discriminate|].
    intros H. apply Hsplit in H. destruct H as [H _].
    apply Hcmp in H. discriminate H.
Qed.


(** The first [n] bytes agree, as a truth value. *)
Definition bytes_eqb (a b : netaddr_t) (n : Z) : bool :=
  forallb (fun i => byte_at a i =? byte_at b i) (seqZ 0 n).

Lemma bytes_eqb_spec a b n : bytes_eqb a b n = true <-> bytes_agree a b n.
Proof.
  unfold bytes_eqb, bytes_agree. rewrite forallb_seqZ. split; intros H i Hi.
  - apply Z.eqb_eq, H, Hi.
  - apply Z.eqb_eq, H, Hi.
Qed.

Section words.
Variables a b : netaddr_t.
Hypothesis Ha : wf_bytes a.
Hypothesis Hb : wf_bytes b.

Lemma u16_eq k :
  0 <= k < 8 ->
  (u16_at a k =? u16_at b k)
  = (byte_at a (2 * k) =? byte_at b (2 * k))
    && (byte_at a (2 * k + 1) =? byte_at b (2 * k + 1)).
Proof.
  intros Hk. unfold u16_at.
  pose proof (byte_at_range a (2 * k) Ha ltac:(lia)).
  pose proof (byte_at_range a (2 * k + 1) Ha ltac:(lia)).
  pose proof (byte_at_range b (2 * k) Hb ltac:(lia)).
  pose proof (byte_at_range b (2 * k + 1) Hb ltac:(lia)).
  destruct (Z.eqb_spec (byte_at a (2 * k)) (byte_at b (2 * k)));
    destruct (Z.eqb_spec (byte_at a (2 * k + 1)) (byte_at b (2 * k + 1)));
    cbn [andb]; [apply Z.eqb_eq|apply Z.eqb_neq..]; lia.
Qed.

Lemma u32_eq k :
  0 <= k < 4 ->
  (u32_at a k =? u32_at b k)
  = (byte_at a (4 * k) =? byte_at b (4 * k))
    && (byte_at a (4 * k + 1) =? byte_at b (4 * k + 1))
    && (byte_at a (4 * k + 2) =? byte_at b (4 * k + 2))
    && (byte_at a (4 * k + 3) =? byte_at b (4 * k + 3)).
Proof.
  intros Hk. unfold u32_at.
  pose proof (byte_at_range a (4 * k) Ha ltac:(lia)).
  pose proof (byte_at_range a (4 * k + 1) Ha ltac:(lia)).
  pose proof (byte_at_range a (4 * k + 2) Ha ltac:(lia)).
  pose proof (byte_at_range a (4 * k + 3) Ha ltac:(lia)).
  pose proof (byte_at_range b (4 * k) Hb ltac:(lia)).
  pose proof (byte_at_range b (4 * k + 1) Hb ltac:(lia)).
  pose proof (byte_at_range b (4 * k + 2) Hb ltac:(lia)).
  pose proof (byte_at_range b (4 * k + 3) Hb ltac:(lia)).
  destruct (Z.eqb_spec (byte_at a (4 * k)) (byte_at b (4 * k)));
    destruct (Z.eqb_spec (byte_at a (4 * k + 1)) (byte_at b (4 * k + 1)));
    destruct (Z.eqb_spec (byte_at a (4 * k + 2)) (byte_at b (4 * k + 2)));
    destruct (Z.eqb_spec (byte_at a (4 * k + 3)) (byte_at b (4 * k + 3)));
    cbn [andb]; [apply Z.eqb_eq|apply Z.eqb_neq..]; lia.
Qed.
End words.

(** Settles the tests of the [switch] on a mask within known bounds. *)
Ltac switch_on_mask :=
  repeat match goal with
  | |- context [if (?x =? ?n) then _ else _] =>
      first [ replace (x =? n) with false by (symmetry; apply Z.eqb_neq; lia)
            | replace (x =? n) with true by (symmetry; apply Z.eqb_eq; lia) ];
      cbv iota
  | |- context [if (?n <=? ?x) then _ else _] =>
      first [ replace (n <=? x) with false by (symmetry; apply Z.leb_gt; lia)
            | replace (n <=? x) with true by (symmetry; apply Z.leb_le; lia) ];
      cbv iota
  end.

Lemma prefixeqwithmask_bytes a b q r :
  wf_bytes a -> wf_bytes b ->
  0 <= q <= 16 -> 0 <= r < 8 -> 8 * q + r <= 128 -> q <> 7 ->
  prefixeqwithmask a b (8 * q + r)
  = Some (bits_agree (byte_at a q) (byte_at b q) r && bytes_eqb a b q).
Proof.
  intros Ha Hb Hq Hr Hm Hq7.
  assert (Hland : Z.land (8 * q + r) 7 = r).
  { rewrite land7 by lia. Z.div_mod_to_equations; lia. }
  unfold prefixeqwithmask. cbv zeta. rewrite Hland.
  replace ((8 * q + r <? 0) || (128 <? 8 * q + r)) with false
    by (symmetry; apply orb_false_iff; split; apply Z.ltb_ge; lia).
  fold (byte_mask r). f_equal.
  assert (Hq' : q = 0 \/ q = 1 \/ q = 2 \/ q = 3 \/ q = 4 \/ q = 5 \/ q = 6
                \/ q = 8 \/ q = 9 \/ q = 10 \/ q = 11 \/ q = 12 \/ q = 13
                \/ q = 14 \/ q = 15 \/ q = 16) by lia.
  destruct (Z.eq_dec r 0) as [->|Hr0].
  - change (bits_agree (byte_at a q) (byte_at b q) 0) with true. cbn [andb].
    repeat (destruct Hq' as [->|Hq']); try subst q;
      switch_on_mask;
      rewrite ?(u32_eq a b Ha Hb), ?(u16_eq a b Ha Hb) by lia;
      unfold bytes_eqb;
      match goal with |- context [seqZ 0 ?n] =>
        let l := eval vm_compute in (seqZ 0 n) in change (seqZ 0 n) with l end;
      cbn [forallb]; rewrite ?andb_true_r, ?andb_assoc; reflexivity.
  - repeat (destruct Hq' as [->|Hq']); try subst q; try lia;
      switch_on_mask;
      rewrite ?masked_bytes
        by (try (apply byte_at_range; [assumption|lia]); lia);
      rewrite ?(u32_eq a b Ha Hb), ?(u16_eq a b Ha Hb) by lia;
      unfold bytes_eqb;
      match goal with |- context [seqZ 0 ?n] =>
        let l := eval vm_compute in (seqZ 0 n) in change (seqZ 0 n) with l end;
      cbn [forallb];
      destruct (bits_agree _ _ r); cbn [negb andb];
      rewrite ?andb_true_r, ?andb_assoc; reflexivity.
Qed.


Lemma prefixeqwithmask_bytes56 a b r :
  wf_bytes a -> wf_bytes b -> 0 <= r < 8 ->
  prefixeqwithmask a b (56 + r)
  = Some (bits_agree (byte_at a 7) (byte_at b 7) r && bytes_eqb a b 6).
Proof.
  intros Ha Hb Hr.
  assert (Hland : Z.land (56 + r) 7 = r).
  { rewrite land7 by lia. Z.div_mod_to_equations; lia. }
  unfold prefixeqwithmask. cbv zeta. rewrite Hland.
  replace ((56 + r <? 0) || (128 <? 56 + r)) with false
    by (symmetry; apply orb_false_iff; split; apply Z.ltb_ge; lia).
  fold (byte_mask r). f_equal. rewrite Z.eqb_refl, andb_true_r.
  destruct (Z.eq_dec r 0) as [->|Hr0].
  - change (bits_agree (byte_at a 7) (byte_at b 7) 0) with true. cbn [andb].
    switch_on_mask.
    rewrite ?(u32_eq a b Ha Hb), ?(u16_eq a b Ha Hb) by lia.
    unfold bytes_eqb.
    change (seqZ 0 6) with [0; 1; 2; 3; 4; 5].
    cbn [forallb]. rewrite ?andb_true_r, ?andb_assoc. reflexivity.
  - switch_on_mask.
    rewrite ?masked_bytes
      by (try (apply byte_at_range; [assumption|lia]); lia).
    rewrite ?(u32_eq a b Ha Hb), ?(u16_eq a b Ha Hb) by lia.
    unfold bytes_eqb.
    change (seqZ 0 6) with [0; 1; 2; 3; 4; 5].
    cbn [forallb].
    destruct (bits_agree _ _ r); cbn [negb andb];
      rewrite ?andb_true_r, ?andb_assoc; reflexivity.
Qed.

Lemma first_bits_bool a b mask r :
  wf_bytes a -> wf_bytes b -> 0 <= mask <= 128 ->
  r = bits_agree (byte_at a (mask / 8)) (byte_at b (mask / 8)) (mask mod 8)
      && bytes_eqb a b (mask / 8) ->
  (r = true <-> first_bits_eq a b mask).
Proof.
  intros Ha Hb Hm ->.
  rewrite (first_bits_split a b mask Ha Hb Hm), andb_true_iff,
    bits_agree_spec, bytes_eqb_spec.
  tauto.
Qed.

Lemma prefixeqwithmask_bits a b mask :
  wf_bytes a -> wf_bytes b -> 0 <= mask <= 128 -> ~ 56 <= mask <= 63 ->
  exists r, prefixeqwithmask a b mask = Some r
            /\ (r = true <-> first_bits_eq a b mask).
Proof.
  intros Ha Hb Hm H56.
  pose proof (prefixeqwithmask_bytes a b (mask / 8) (mask mod 8) Ha Hb) as H.
  replace (8 * (mask / 8) + mask mod 8) with mask in H
    by (Z.div_mod_to_equations; lia).
  rewrite H by (Z.div_mod_to_equations; lia).
  eexists. split; [reflexivity|].
  apply first_bits_bool; try assumption. reflexivity.
Qed.

(** [patcompwithmask] decides whether the first [mask] bits of the two
    payloads agree. *)
Theorem patcompwithmask_first_bits a b mask :
  wf_bytes a -> wf_bytes b -> 0 <= mask <= 128 ->
  exists r, patcompwithmask a b mask = Ok r
            /\ (r = true <-> first_bits_eq a b mask).
Proof. apply patcompwithmask_bits. Qed.

(** [prefixeqwithmask] decides whether the first [mask] bits of the two
    payloads agree, for every mask from 0 to 128 outside 56..63. *)
Theorem prefixeqwithmask_first_bits a b mask :
  wf_bytes a -> wf_bytes b -> 0 <= mask <= 128 -> ~ 56 <= mask <= 63 ->
  exists r, prefixeqwithmask a b mask = Some r
            /\ (r = true <-> first_bits_eq a b mask).
Proof. apply prefixeqwithmask_bits. Qed.

Definition addr_10_1 : netaddr_t :=
  mk_netaddr AF_INET 32 ([10; 1; 2; 3] ++ repeat 0 12%nat).
Definition addr_10_9 : netaddr_t :=
  mk_netaddr AF_INET 32 ([10; 9; 2; 3] ++ repeat 0 12%nat).

Lemma addr_10_1_wf : wf_bytes addr_10_1.
Proof. split; [reflexivity|repeat constructor; lia]. Qed.
Lemma addr_10_9_wf : wf_bytes addr_10_9.
Proof. split; [reflexivity|repeat constructor; lia]. Qed.

Lemma prefixeqwithmask_first_bits_witness :
  exists r, prefixeqwithmask addr_10_1 addr_10_9 12 = Some r
            /\ (r = true <-> first_bits_eq addr_10_1 addr_10_9 12).
Proof.
  apply prefixeqwithmask_first_bits.
  - exact addr_10_1_wf.
  - exact addr_10_9_wf.
  - lia.
  - lia.
Defined.

Lemma patcompwithmask_first_bits_witness :
  exists r, patcompwithmask addr_10_1 addr_10_9 12 = Ok r
            /\ (r = true <-> first_bits_eq addr_10_1 addr_10_9 12).
Proof.
  apply patcompwithmask_first_bits.
  - exact addr_10_1_wf.
  - exact addr_10_9_wf.
  - lia.
Defined.

(** For the masks 56 to 63 [prefixeqwithmask] does not look at byte 6: the
    outcome is that of the first 6 bytes and of the leading bits of byte
    7. *)
Theorem prefixeqwithmask_skips_byte6 a b mask :
  wf_bytes a -> wf_bytes b -> 56 <= mask <= 63 ->
  prefixeqwithmask a b mask
  = Some (bits_agree (byte_at a 7) (byte_at b 7) (mask - 56) && bytes_eqb a b 6).
Proof.
  intros Ha Hb Hm.
  replace mask with (56 + (mask - 56)) at 1 by lia.
  apply prefixeqwithmask_bytes56; try assumption. lia.
Qed.

Lemma prefixeqwithmask_skips_byte6_witness :
  prefixeqwithmask addr_10_1 addr_10_9 60
  = Some (bits_agree (byte_at addr_10_1 7) (byte_at addr_10_9 7) (60 - 56)
          && bytes_eqb addr_10_1 addr_10_9 6).
Proof.
  apply prefixeqwithmask_skips_byte6.
  - exact addr_10_1_wf.
  - exact addr_10_9_wf.
  - lia.
Defined.

(** The two prefix comparisons of the library, [prefixeqwithmask] of
    netaddr.h and [patcompwithmask] of the trie, give the same answer on
    every mask from 0 to 128 outside 56..63. *)
Theorem prefix_comparisons_agree a b mask :
  wf_bytes a -> wf_bytes b -> 0 <= mask <= 128 -> ~ 56 <= mask <= 63 ->
  exists r, prefixeqwithmask a b mask = Some r /\ patcompwithmask a b mask = Ok r.
Proof.
  intros Ha Hb Hm H56.
  destruct (prefixeqwithmask_bits a b mask Ha Hb Hm H56) as (r & Hr & Hiff).
  destruct (patcompwithmask_bits a b mask Ha Hb Hm) as (r' & Hr' & Hiff').
  exists r. split; [exact Hr|]. rewrite Hr'. f_equal.
  destruct r, r'; try reflexivity.
  - apply (proj2 Hiff'), (proj1 Hiff). reflexivity.
  - symmetry. apply (proj2 Hiff), (proj1 Hiff'). reflexivity.
Qed.

Lemma prefix_comparisons_agree_witness :
  exists r, prefixeqwithmask addr_10_1 addr_10_9 12 = Some r
            /\ patcompwithmask addr_10_1 addr_10_9 12 = Ok r.
Proof.
  apply prefix_comparisons_agree.
  - exact addr_10_1_wf.
  - exact addr_10_9_wf.
  - lia.
  - lia.
Defined.

(** [naddrsize] is the number of bytes that hold [bitlen] bits. *)
Theorem naddrsize_bytes bitlen :
  0 <= bitlen -> naddrsize bitlen = (bitlen + 7) / 8.
Proof.
  intros H. unfold naddrsize. rewrite Z.shiftr_div_pow2, land7 by lia.
  change (2 ^ 3) with 8.
  destruct (Z.eqb_spec (bitlen mod 8) 0); Z.div_mod_to_equations; lia.
Qed.

Lemma naddrsize_bytes_witness : naddrsize 21 = (21 + 7) / 8.
Proof. apply naddrsize_bytes. lia. Defined.

End PrefixBits.

(** * Facts: starting and ending an AS path iteration *)

Module AsPathMore.
Import Bgp BgpStart AsPathFacts.

(** An UPDATE that was read, with no error and no iteration open. *)
Record idle_update (m : ubgp_msg_s) : Prop := {
  idle_type : msgtype m = BGP_UPDATE;
  idle_err : err m = 0;
  idle_read : Z.land (flags m) F_RD = F_RD;
  idle_flags : Z.land (flags m) ITER_FLAGS = 0
}.

Lemma endpending_idle end_other m :
  Z.land (flags m) ITER_FLAGS = 0 -> endpending end_other m = m.
Proof.
  intros H. unfold endpending. cbv zeta. fold ITER_FLAGS. rewrite H. reflexivity.
Qed.

Lemma dostartaspath_at end_other m size segs :
  err m = 0 -> Z.land (flags m) ITER_FLAGS = 0 ->
  at_pos size (fst (dostartaspath end_other m (Some (encode size segs)) size))
         0 [] segs
  /\ ascount (fst (dostartaspath end_other m (Some (encode size segs)) size)) = -1
  /\ segi (fst (dostartaspath end_other m (Some (encode size segs)) size)) = 0.
Proof.
  intros He Hi. unfold dostartaspath. rewrite endpending_idle by assumption.
  cbv zeta. cbn [fst]. split; [|split; reflexivity].
  unfold at_pos.
  cbn [err flags asp as_size asptr seglen segi type set_iter set_flags length].
  repeat split; try assumption; try reflexivity; try lia.
  - apply land_lor_self.
  - intros H. contradiction.
Qed.

Lemma walk_from_start end_other m size segs fuel :
  size = 2 \/ size = 4 ->
  err m = 0 -> Z.land (flags m) ITER_FLAGS = 0 ->
  wf_path size segs -> Z.of_nat (length (encode size segs)) <= 65535 ->
  (length (flat segs) < fuel)%nat ->
  exists m2,
    collect_aspath fuel
      (fst (dostartaspath end_other m (Some (encode size segs)) size))
    = Some (flat segs, m2).
Proof.
  intros Hsize He Hi Hwf Hlen Hfuel.
  destruct (dostartaspath_at end_other m size segs He Hi) as (Hpos & Hac & Hsi).
  pose proof (encode_length size segs Hsize Hwf) as Hb.
  pose proof (count_nonneg segs) as Hc.
  destruct (collect_plain size Hsize segs Hwf [] _ 0 (List.Forall_nil _) Hpos)
    with (fuel := fuel) as (m2 & Hc2).
  - rewrite Hac. lia.
  - rewrite Hac. unfold units_left. lia.
  - cbn [length]. lia.
  - exists m2. exact Hc2.
Qed.

(** [startaspath] followed by [nextaspath] until [NULL] gives the ASes of
    AS_PATH in order, read as 4-byte ASes when the message was decoded with
    ASN32BIT and as 2-byte ASes otherwise; AS4_PATH plays no part. *)
Theorem startaspath_walks_as_path end_other m size segs fuel :
  idle_update m ->
  (size = 4 /\ Z.land (flags m) F_ASN32BIT = F_ASN32BIT)
  \/ (size = 2 /\ Z.land (flags m) F_ASN32BIT = 0) ->
  attr_as_path m = Some (encode size segs) ->
  wf_path size segs -> Z.of_nat (length (encode size segs)) <= 65535 ->
  (length (flat segs) < fuel)%nat ->
  exists m1 m2,
    startaspath end_other m = (m1, BGP_ENOERR)
    /\ collect_aspath fuel m1 = Some (flat segs, m2).
Proof.
  intros [Ht He Hr Hi] Hsize Hp Hwf Hlen Hfuel.
  unfold startaspath. rewrite checktype_ok by assumption. cbn [negb]. rewrite Hp.
  assert (Hs : (if negb (Z.land (flags m) F_ASN32BIT =? 0) then 4 else 2) = size).
  { destruct Hsize as [[-> ->]|[-> ->]]; reflexivity. }
  rewrite Hs.
  destruct (walk_from_start end_other m size segs fuel) as (m2 & Hc);
    try assumption.
  { destruct Hsize as [[-> _]|[-> _]]; [right|left]; reflexivity. }
  eexists _, m2. split; [reflexivity|exact Hc].
Qed.

(** [startas4path] followed by [nextaspath] until [NULL] gives the ASes of
    AS4_PATH in order, whatever AS_PATH holds. *)
Theorem startas4path_walks_as4_path end_other m segs4 fuel :
  idle_update m ->
  attr_as4_path m = Some (encode 4 segs4) ->
  wf_path 4 segs4 -> Z.of_nat (length (encode 4 segs4)) <= 65535 ->
  (length (flat segs4) < fuel)%nat ->
  exists m1 m2,
    startas4path end_other m = (m1, BGP_ENOERR)
    /\ collect_aspath fuel m1 = Some (flat segs4, m2).
Proof.
  intros [Ht He Hr Hi] Hp Hwf Hlen Hfuel.
  unfold startas4path. rewrite checktype_ok by assumption. cbn [negb]. rewrite Hp.
  destruct (walk_from_start end_other m 4 segs4 fuel) as (m2 & Hc);
    try assumption.
  { right. reflexivity. }
  eexists _, m2. split; [reflexivity|exact Hc].
Qed.

(** When the message was decoded with ASN32BIT, or carries no AS4_PATH,
    [startrealaspath] leaves the message exactly as [startaspath] does. *)
Theorem real_path_without_as4 end_other m :
  idle_update m ->
  Z.land (flags m) F_ASN32BIT = F_ASN32BIT
  \/ (Z.land (flags m) F_ASN32BIT = 0 /\ attr_as4_path m = None) ->
  startrealaspath end_other m = Some (startaspath end_other m).
Proof.
  intros [Ht He Hr Hi] Hcase.
  unfold startrealaspath, startaspath, dostartaspath.
  rewrite checktype_ok by assumption. cbn [negb].
  rewrite endpending_idle by assumption. cbv zeta.
  cbn [flags set_flags attr_as_path asp as4ptr set_iter attr_aggregator
       attr_as4_aggregator attr_as4_path].
  destruct Hcase as [H32|[H16 H4]].
  - rewrite (land_lor_keep _ F_ASPATH _ H32), H32. cbn [Z.eqb negb Pos.eqb].
    destruct (attr_as_path m); reflexivity.
  - assert (E : Z.land (Z.lor (flags m) F_ASPATH) F_ASN32BIT = 0).
    { rewrite Z.land_lor_distr_l, H16. reflexivity. }
    rewrite E, H16, H4. cbn [Z.eqb negb Pos.eqb].
    destruct (attr_as_path m); [|reflexivity].
    destruct (attr_aggregator m), (attr_as4_aggregator m);
      try reflexivity.
    destruct (negb _); reflexivity.
Qed.


Lemma idle_sample aggr aggr4 : idle_update (as4_sample aggr aggr4).
Proof. constructor; reflexivity. Qed.

Lemma startaspath_walks_as_path_witness :
  exists m1 m2,
    startaspath (fun m => m) (as4_sample None None) = (m1, BGP_ENOERR)
    /\ collect_aspath 4 m1 = Some ([1; 23456; 23456], m2).
Proof.
  apply (startaspath_walks_as_path (fun m => m) (as4_sample None None) 2
           sample_path 4).
  - constructor; reflexivity.
  - right. split; reflexivity.
  - reflexivity.
  - exact (upd_wf _ _ _ (as4_sample_update None None)).
  - vm_compute. discriminate.
  - vm_compute. lia.
Defined.

Lemma startas4path_walks_as4_path_witness :
  exists m1 m2,
    startas4path (fun m => m) (as4_sample None None) = (m1, BGP_ENOERR)
    /\ collect_aspath 4 m1 = Some ([70000; 80000], m2).
Proof.
  apply (startas4path_walks_as4_path (fun m => m) (as4_sample None None)
           sample_path4 4).
  - constructor; reflexivity.
  - reflexivity.
  - exact (upd_wf4 _ _ _ (as4_sample_update None None)).
  - vm_compute. discriminate.
  - vm_compute. lia.
Defined.

(** An UPDATE decoded with ASN32BIT: AS_PATH = SEQ 70000 80000 in 4-byte
    ASes, and a stray AS4_PATH. *)
Definition as32_sample : ubgp_msg_s :=
  mk_msg (Z.lor F_RD F_ASN32BIT) 0 BGP_UPDATE
    (Some [2; 2; 0; 1; 17; 112; 0; 1; 56; 128])
    (Some [2; 1; 0; 0; 0; 9])
    None None [] [] 0 0 0 (mk_pathent 0 0 0 0).

Lemma real_path_without_as4_witness :
  startrealaspath (fun m => m) as32_sample
  = Some (startaspath (fun m => m) as32_sample).
Proof.
  apply real_path_without_as4.
  - constructor; reflexivity.
  - left. reflexivity.
Defined.

(** On a message that is not an UPDATE, or was not read, the iterators do
    not start: [startrealaspath] and [startaspath] answer [BGP_EINVOP],
    which stays in the message, and [nextaspath] returns [NULL]. *)
Theorem iteration_refused end_other m fuel :
  err m = 0 ->
  msgtype m <> BGP_UPDATE \/ Z.land (flags m) F_RD <> F_RD ->
  startrealaspath end_other m = Some (set_err BGP_EINVOP m, BGP_EINVOP)
  /\ startaspath end_other m = (set_err BGP_EINVOP m, BGP_EINVOP)
  /\ startas4path end_other m = (set_err BGP_EINVOP m, BGP_EINVOP)
  /\ nextaspath (S fuel) (set_err BGP_EINVOP m)
     = Some (None, set_err BGP_EINVOP m).
Proof.
  intros He Hbad.
  assert (Hchk : checktypeandflags BGP_UPDATE F_RD m
                 = (set_err BGP_EINVOP m, false)).
  { unfold checktypeandflags, has_flags.
    destruct (Z.eqb_spec (msgtype m) BGP_UPDATE) as [Ht|Ht]; cbn [negb].
    - destruct Hbad as [Hbad|Hbad]; [contradiction|].
      destruct (Z.eqb_spec (Z.land (flags m) F_RD) F_RD); [contradiction|].
      cbn [negb]. rewrite He. reflexivity.
    - rewrite He. cbn [Z.eqb negb flags set_err err].
      destruct (Z.land (flags m) F_RD =? F_RD); reflexivity. }
  unfold startrealaspath, startaspath, startas4path. rewrite Hchk. cbn [negb].
  repeat split; try reflexivity.
  rewrite nextaspath_eq. unfold checkflags, has_flags.
  cbn [flags set_err err].
  destruct (Z.land (flags m) F_ASPATH =? F_ASPATH); reflexivity.
Qed.

(** A KEEPALIVE (type 4) that was read. *)
Definition keepalive : ubgp_msg_s :=
  mk_msg F_RD 0 4 None None None None [] [] 0 0 0 (mk_pathent 0 0 0 0).

Lemma iteration_refused_witness :
  startrealaspath (fun m => m) keepalive = Some (set_err BGP_EINVOP keepalive, BGP_EINVOP)
  /\ startaspath (fun m => m) keepalive = (set_err BGP_EINVOP keepalive, BGP_EINVOP)
  /\ startas4path (fun m => m) keepalive = (set_err BGP_EINVOP keepalive, BGP_EINVOP)
  /\ nextaspath 1 (set_err BGP_EINVOP keepalive)
     = Some (None, set_err BGP_EINVOP keepalive).
Proof.
  apply (iteration_refused (fun m => m) keepalive 0).
  - reflexivity.
  - left. discriminate.
Defined.

Lemma land_sub a b c : Z.land a b = 0 -> Z.land b c = c -> Z.land a c = 0.
Proof.
  intros H1 H2. rewrite <- H2, Z.land_assoc, H1. reflexivity.
Qed.

Lemma clear_added fl a c :
  Z.land fl c = 0 -> Z.land a (Z.lnot c) = 0 ->
  Z.land (Z.lor fl a) (Z.lnot c) = fl.
Proof.
  intros H1 H2. rewrite Z.land_lor_distr_l, H2, Z.lor_0_r.
  apply Z.bits_inj'. intros n Hn.
  assert (Hb : Z.testbit (Z.land fl c) n = false) by (rewrite H1; apply Z.bits_0).
  rewrite Z.land_spec in Hb. rewrite Z.land_spec, Z.lnot_spec by lia.
  destruct (Z.testbit fl n), (Z.testbit c n); try reflexivity; discriminate.
Qed.

(** [endaspath] after [startrealaspath] gives the flags of the message
    back: the iteration leaves no trace in them. *)
Theorem endaspath_restores_flags end_other m segs segs4 :
  as4_update m segs segs4 -> Z.land (flags m) F_REALASPATH = 0 ->
  exists m1,
    startrealaspath end_other m = Some (m1, BGP_ENOERR)
    /\ snd (endaspath m1) = BGP_ENOERR
    /\ flags (fst (endaspath m1)) = flags m.
Proof.
  intros Hm Hreal.
  rewrite (startrealaspath_result end_other m segs segs4 Hm).
  pose proof (upd_err _ _ _ Hm) as He. pose proof (upd_idle _ _ _ Hm) as Hi.
  assert (HA : Z.land (flags m) F_ASPATH = 0)
    by (apply (land_sub _ _ _ Hi); reflexivity).
  assert (HAR : Z.land (flags m) (Z.lor F_ASPATH F_REALASPATH) = 0).
  { rewrite Z.land_lor_distr_r, HA, Hreal. reflexivity. }
  eexists. split; [reflexivity|].
  destruct (aggregator_veto m || (count segs <? count segs4)).
  - unfold endaspath. rewrite checkflags_ok; [|exact He|apply land_lor_self].
    cbn [fst snd flags set_flags started set_iter]. split; [reflexivity|].
    apply clear_added; [exact HAR|reflexivity].
  - unfold endaspath.
    rewrite checkflags_ok; [|exact He|apply land_lor_keep, land_lor_self].
    cbn [fst snd flags set_flags merging started set_iter]. split; [reflexivity|].
    rewrite <- Z.lor_assoc. apply clear_added; [exact HAR|reflexivity].
Qed.

Lemma endaspath_restores_flags_witness :
  exists m1,
    startrealaspath (fun m => m) (as4_sample None None) = Some (m1, BGP_ENOERR)
    /\ snd (endaspath m1) = BGP_ENOERR
    /\ flags (fst (endaspath m1)) = flags (as4_sample None None).
Proof.
  apply (endaspath_restores_flags (fun m => m) (as4_sample None None)
           sample_path sample_path4).
  - apply as4_sample_update.
  - reflexivity.
Defined.


Lemma count_ases_prefix size segs :
  size = 2 \/ size = 4 -> wf_path size segs ->
  forall fuel acc suffix,
    count_ases (length segs + fuel) size (encode size segs ++ suffix) acc
    = count_ases fuel size suffix (acc + count segs).
Proof.
  intros Hsize. induction segs as [|s segs IH]; intros Hwf fuel acc suffix.
  - cbn [length encode flat_map app count foldr Nat.add].
    rewrite Z.add_0_r. reflexivity.
  - apply Forall_cons in Hwf as [Hs Hwf].
    change (encode size (s :: segs) ++ suffix)
      with (fst s :: Z.of_nat (length (snd s))
              :: ((members size (snd s) ++ encode size segs) ++ suffix)).
    cbn [length Nat.add count_ases].
    assert (Hskip : Z.to_nat (Z.of_nat (length (snd s)) * size)
                    = length (members size (snd s))).
    { rewrite members_length by assumption. destruct Hsize as [-> | ->]; lia. }
    rewrite Hskip, <- app_assoc.
    replace (length (members size (snd s) ++ encode size segs ++ suffix)
             <? length (members size (snd s)))%nat with false
      by (symmetry; apply Nat.ltb_ge; rewrite length_app; lia).
    rewrite drop_app_length, IH by assumption.
    rewrite count_cons. unfold units. f_equal. lia.
Qed.

(** A segment of AS_PATH that announces more ASes than the attribute
    holds: once the counting loop of [startrealaspath] runs (no ASN32BIT,
    AS4_PATH present, no aggregator veto) the call answers
    [BGP_EBADATTR], which stays in the message, and [nextaspath] returns
    [NULL]. *)
Theorem truncated_as_path_is_bad end_other m segs ty n tail p4 fuel :
  idle_update m -> Z.land (flags m) F_ASN32BIT = 0 ->
  aggregator_veto m = false -> attr_as4_path m = Some p4 ->
  attr_as_path m = Some (encode 2 segs ++ ty :: Z.of_nat n :: tail) ->
  wf_path 2 segs -> (length tail < 2 * n)%nat ->
  exists m1,
    startrealaspath end_other m = Some (m1, BGP_EBADATTR)
    /\ err m1 = BGP_EBADATTR
    /\ nextaspath (S fuel) m1 = Some (None, m1).
Proof.
  intros [Ht He Hr Hi] H16 Hveto Hp4 Hp Hwf Hshort.
  unfold startrealaspath. rewrite checktype_ok by assumption. cbn [negb].
  rewrite endpending_idle by assumption. cbv zeta.
  cbn [flags set_flags attr_as_path asp as4ptr set_iter attr_aggregator
       attr_as4_aggregator attr_as4_path].
  assert (E : Z.land (Z.lor (flags m) F_ASPATH) F_ASN32BIT = 0).
  { rewrite Z.land_lor_distr_l, H16. reflexivity. }
  rewrite E, Hp. cbn [Z.eqb negb Pos.eqb].
  unfold aggregator_veto in Hveto. rewrite Hveto, Hp4.
  assert (Hcount : count_path 2 (encode 2 segs ++ ty :: Z.of_nat n :: tail)
                   = Some (count segs + (if ty =? AS_SEGMENT_SET then 1
                                         else Z.of_nat n), true)).
  { unfold count_path.
    pose proof (encode_length 2 segs (or_introl eq_refl) Hwf) as Hb.
    pose proof (count_nonneg segs) as Hc.
    assert (Hle : (length segs
                   <= length (encode 2 segs ++ ty :: Z.of_nat n :: tail))%nat)
      by (rewrite length_app; lia).
    replace (S (length (encode 2 segs ++ ty :: Z.of_nat n :: tail)))
      with (length segs
            + S (length (encode 2 segs ++ ty :: Z.of_nat n :: tail)
                 - length segs))%nat by lia.
    rewrite count_ases_prefix by (try assumption; left; reflexivity).
    cbn [count_ases]. rewrite Z.add_0_l.
    replace (length tail <? Z.to_nat (Z.of_nat n * 2))%nat with true
      by (symmetry; apply Nat.ltb_lt; lia).
    reflexivity. }
  rewrite Hcount.
  eexists. split; [reflexivity|]. split; [reflexivity|].
  rewrite nextaspath_eq. unfold checkflags, has_flags.
  cbn [flags set_err err set_iter set_flags].
  rewrite land_lor_self, Z.eqb_refl. reflexivity.
Qed.

(** AS_PATH = SEQ 1, then a segment that announces 3 ASes and holds 2. *)
Definition truncated_sample : ubgp_msg_s :=
  mk_msg F_RD 0 BGP_UPDATE
    (Some [2; 1; 0; 1; 2; 3; 0; 7; 0; 8])
    (Some [2; 1; 0; 0; 0; 9])
    None None [] [] 0 0 0 (mk_pathent 0 0 0 0).

Lemma truncated_as_path_is_bad_witness :
  exists m1,
    startrealaspath (fun m => m) truncated_sample = Some (m1, BGP_EBADATTR)
    /\ err m1 = BGP_EBADATTR
    /\ nextaspath 1 m1 = Some (None, m1).
Proof.
  apply (truncated_as_path_is_bad (fun m => m) truncated_sample
           [(AS_SEGMENT_SEQ, [1])] 2 3%nat [0; 7; 0; 8] [2; 1; 0; 0; 0; 9] 0).
  - constructor; reflexivity.
  - reflexivity.
  - reflexivity.
  - reflexivity.
  - reflexivity.
  - apply List.Forall_cons; [|apply List.Forall_nil].
    split; [vm_compute; split; [discriminate|reflexivity]|].
    split; [cbn; lia|]. cbn [snd].
    apply List.Forall_cons; [vm_compute; split; [discriminate|reflexivity]|].
    apply List.Forall_nil.
  - cbn. lia.
Defined.

(** ** endian.h *)

(** Swapping the bytes of a word twice gives the word back. *)
Theorem byteswap_involutive :
  (forall w, 0 <= w < 65536 -> byteswap16 (byteswap16 w) = w)
  /\ (forall w, 0 <= w < 4294967296 -> byteswap32 (byteswap32 w) = w).
Proof.
  split; intros w Hw.
  - pose proof (beswap16_load (256 * (w mod 256) + w / 256)) as H1.
    unfold beswap16, load16 in H1.
    replace ((256 * (w mod 256) + w / 256) / 256) with (w mod 256) in H1
      by (Z.div_mod_to_equations; lia).
    replace ((256 * (w mod 256) + w / 256) mod 256) with (w / 256) in H1
      by (Z.div_mod_to_equations; lia).
    replace (w mod 256 + 256 * (w / 256)) with w in H1
      by (Z.div_mod_to_equations; lia).
    rewrite H1 by (Z.div_mod_to_equations; lia).
    pose proof (beswap16_load w Hw) as H2. unfold beswap16, load16 in H2.
    replace (256 * (w mod 256) + w / 256) with (w / 256 + 256 * (w mod 256)) by lia.
    exact H2.
  - set (b0 := w mod 256). set (b1 := (w / 256) mod 256).
    set (b2 := (w / 65536) mod 256). set (b3 := w / 16777216).
    assert (H0 : 0 <= b0 < 256) by (unfold b0; Z.div_mod_to_equations; lia).
    assert (H1 : 0 <= b1 < 256) by (unfold b1; Z.div_mod_to_equations; lia).
    assert (H2 : 0 <= b2 < 256) by (unfold b2; Z.div_mod_to_equations; lia).
    assert (H3 : 0 <= b3 < 256) by (unfold b3; Z.div_mod_to_equations; lia).
    assert (Ew : w = b0 + 256 * b1 + 65536 * b2 + 16777216 * b3)
      by (unfold b0, b1, b2, b3; Z.div_mod_to_equations; lia).
    set (v := 16777216 * b0 + 65536 * b1 + 256 * b2 + b3).
    assert (Hv : 0 <= v < 4294967296) by (unfold v; lia).
    assert (Esw : byteswap32 w = v).
    { pose proof (beswap32_load v Hv) as H. unfold beswap32, load32 in H.
      replace (v / 16777216) with b0 in H by (unfold v; Z.div_mod_to_equations; lia).
      replace ((v / 65536) mod 256) with b1 in H by (unfold v; Z.div_mod_to_equations; lia).
      replace ((v / 256) mod 256) with b2 in H by (unfold v; Z.div_mod_to_equations; lia).
      replace (v mod 256) with b3 in H by (unfold v; Z.div_mod_to_equations; lia).
      rewrite Ew. exact H. }
    rewrite Esw.
    pose proof (beswap32_load w Hw) as H. unfold beswap32, load32 in H.
    fold b3 b2 b1 b0 in H.
    replace (b3 + 256 * b2 + 65536 * b1 + 16777216 * b0) with v in H
      by (unfold v; lia).
    exact H.
Qed.

Lemma byteswap_involutive_witness :
  byteswap16 (byteswap16 4660) = 4660
  /\ byteswap32 (byteswap32 305419896) = 305419896.
Proof.
  split.
  - apply (proj1 byteswap_involutive). lia.
  - apply (proj2 byteswap_involutive). lia.
Defined.

End AsPathMore.

(** * Facts: searches, iterator and allocator of the Patricia trie *)

Module PatriciaMore.
Import NetAddr Patricia PatriciaQueries.

Lemma res_bind_inv {A B} (m : res A) (f : A -> res B) b :
  (m ≫= f) = Ok b -> exists a, m = Ok a /\ f a = Ok b.
Proof. destruct m as [a| | |]; try discriminate. intros H. exists a. auto. Qed.

Lemma node_inv pt a nd : node pt a = Ok nd -> mem pt !! a = Some nd.
Proof. unfold node. destruct (mem pt !! a); cbn; congruence. Qed.

Lemma search_walk_stops fuel : forall pt pfx n0 n,
  search_walk fuel pt pfx n0 = Ok n -> n <> 0 ->
  exists nd, mem pt !! n = Some nd /\ bitlen pfx <= bitlen (prefix nd).
Proof.
  induction fuel as [|fuel IH]; intros pt pfx n0 n H Hn; [discriminate|].
  cbn [search_walk] in H.
  apply res_bind_inv in H as (nd & Hnd & H).
  destruct (Z.ltb_spec (bitlen (prefix nd)) (bitlen pfx)).
  - apply res_bind_inv in H as (bit & _ & H).
    destruct (child bit nd =? 0).
    + injection H as <-. contradiction.
    + apply (IH _ _ _ _ H Hn).
  - injection H as <-. exists nd. split; [apply node_inv, Hnd|lia].
Qed.

(** What [patsearchexact] returns, unless [NULL], is a node of the trie
    that is not glue, has the length of the key, and whose prefix
    [patcompwithmask] finds equal to the key on that length. *)
Theorem patsearchexact_sound fuel pt pfx n :
  patsearchexact fuel pt pfx = Ok n -> n <> 0 ->
  exists nd, mem pt !! n = Some nd /\ ispnodeglue nd = false
    /\ bitlen (prefix nd) = bitlen pfx
    /\ patcompwithmask (prefix nd) pfx (bitlen pfx) = Ok true.
Proof.
  intros H Hn. unfold patsearchexact in H.
  destruct (head pt =? 0); [injection H as <-; contradiction|].
  apply res_bind_inv in H as (n' & Hw & H).
  destruct (Z.eqb_spec n' 0); [injection H as <-; contradiction|].
  destruct (search_walk_stops _ _ _ _ _ Hw ltac:(assumption)) as (nd & Hnd & Hlen).
  unfold node in H. rewrite Hnd in H. cbn [of_option] in H.
  rewrite CoverageFacts.res_bind_ok in H.
  destruct (Z.ltb_spec (bitlen pfx) (bitlen (prefix nd))); cbn [orb] in H;
    [injection H as <-; contradiction|].
  destruct (ispnodeglue nd) eqn:Eg; [injection H as <-; contradiction|].
  apply res_bind_inv in H as (same & Hsame & H).
  destruct same; injection H as <-; [|contradiction].
  exists nd. repeat split; try assumption. lia.
Qed.

(** The nodes of the trie: those reached from [head] through the child
    pointers. *)
Inductive in_trie (pt : patricia_trie_t) : Z -> Prop :=
  | in_trie_head : head pt <> 0 -> in_trie pt (head pt)
  | in_trie_child a nd b :
      in_trie pt a -> mem pt !! a = Some nd -> child b nd <> 0 ->
      in_trie pt (child b nd).

(** The node at [a] is a node of the trie, is not glue and holds the
    prefix [p]. *)
Definition stored_at (pt : patricia_trie_t) (a : Z) (p : netaddr_t) : Prop :=
  in_trie pt a
  /\ exists nd, mem pt !! a = Some nd /\ ispnodeglue nd = false /\ prefix nd = p.

(** The iterator stands on a node of the trie, or at the end, and its
    stack holds nodes of the trie. *)
Definition it_ok (pt : patricia_trie_t) (st : patiterator_t) : Prop :=
  (curr st = 0 \/ in_trie pt (curr st)) /\ Forall (in_trie pt) (it_stack st).

Lemma movenext_ok pt st st' :
  patiteratormovenext pt st = Ok st' ->
  in_trie pt (curr st) -> Forall (in_trie pt) (it_stack st) -> it_ok pt st'.
Proof.
  intros H Hc Hs. unfold patiteratormovenext in H.
  apply res_bind_inv in H as (c & Hn & H). apply node_inv in Hn.
  cbv zeta in H.
  destruct (Z.eqb_spec (child0 c) 0) as [E0|E0]; cbn [negb] in H.
  - destruct (Z.eqb_spec (child1 c) 0) as [E1|E1]; cbn [negb] in H.
    + destruct (it_stack st) as [|top stack'] eqn:Es; injection H as <-.
      * split; [left; reflexivity|constructor].
      * apply Forall_cons in Hs as [Ht Hs']. split; [right; exact Ht|exact Hs'].
    + injection H as <-. split; [right|exact Hs].
      apply (in_trie_child pt (curr st) c true Hc Hn E1).
  - apply res_bind_inv in H as (stack' & Hp & H). injection H as <-.
    split; [right; apply (in_trie_child pt (curr st) c false Hc Hn E0)|].
    destruct (Z.eqb_spec (child1 c) 0) as [E1|E1]; cbn [negb] in Hp.
    + injection Hp as <-. exact Hs.
    + unfold push in Hp. destruct (_ <? _); [|discriminate].
      injection Hp as <-. apply Forall_cons. split; [|exact Hs].
      apply (in_trie_child pt (curr st) c true Hc Hn E1).
Qed.

Lemma skipglue_stops fuel : forall pt st st',
  patiteratorskipglue fuel pt st = Ok st' -> it_ok pt st ->
  it_ok pt st'
  /\ (curr st' = 0
      \/ exists nd, mem pt !! curr st' = Some nd /\ ispnodeglue nd = false).
Proof.
  induction fuel as [|fuel IH]; intros pt st st' H Hok; [discriminate|].
  cbn [patiteratorskipglue] in H.
  destruct (Z.eqb_spec (curr st) 0) as [E|E].
  - injection H as <-. split; [exact Hok|left; exact E].
  - apply res_bind_inv in H as (c & Hc & H).
    destruct (ispnodeglue c) eqn:Eg.
    + apply res_bind_inv in H as (st1 & Hmove & H).
      apply (IH _ _ _ H). destruct Hok as [[Hz|Hin] Hs]; [contradiction|].
      apply (movenext_ok _ _ _ Hmove Hin Hs).
    + injection H as <-. split; [exact Hok|].
      right. exists c. split; [apply node_inv, Hc|exact Eg].
Qed.

Lemma iterate_from_stored fuel : forall pt st l,
  iterate_from fuel pt st = Ok l -> it_ok pt st ->
  (curr st = 0
   \/ exists nd, mem pt !! curr st = Some nd /\ ispnodeglue nd = false) ->
  exists ns, nodes_from fuel pt st = Ok ns /\ Forall2 (stored_at pt) ns l.
Proof.
  induction fuel as [|fuel IH]; intros pt st l H Hok Hinv; [discriminate|].
  cbn [iterate_from nodes_from] in *. unfold patiteratorend, patiteratorget in *.
  destruct (Z.eqb_spec (curr st) 0) as [E|E].
  - injection H as <-. exists []. split; [reflexivity|constructor].
  - apply res_bind_inv in H as (n & Hn & H).
    apply res_bind_inv in H as (st' & Hnext & H).
    apply res_bind_inv in H as (rest & Hrest & H).
    injection H as <-.
    destruct Hok as [[Hz|Hin] Hs]; [contradiction|].
    destruct Hinv as [Hinv|(nd & Hnd & Hg)]; [contradiction|].
    apply node_inv in Hn. rewrite Hnd in Hn. injection Hn as <-.
    assert (Hok' : it_ok pt st'
                   /\ (curr st' = 0
                       \/ exists nd', mem pt !! curr st' = Some nd'
                                      /\ ispnodeglue nd' = false)).
    { unfold patiteratornext in Hnext.
      apply res_bind_inv in Hnext as (st1 & Hmove & Hskip).
      apply (skipglue_stops _ _ _ _ Hskip).
      apply (movenext_ok _ _ _ Hmove Hin Hs). }
    destruct (IH _ _ _ Hrest (proj1 Hok') (proj2 Hok')) as (ns & Hns & Hall).
    exists (curr st :: ns). rewrite Hnext, CoverageFacts.res_bind_ok, Hns.
    split; [reflexivity|]. constructor; [|exact Hall].
    split; [exact Hin|]. exists nd. auto.
Qed.

(** The iterator never emits a glue node: each prefix of a successful
    iteration is that of the very node [patiteratorget] returned at that
    step, and this node is a node of the trie (reached from the head
    through child pointers) that is not glue. *)
Theorem iterator_skips_glue fuel pt l :
  iterate fuel pt = Ok l ->
  exists ns, iterate_nodes fuel pt = Ok ns /\ Forall2 (stored_at pt) ns l.
Proof.
  intros H. unfold iterate in H. unfold iterate_nodes.
  apply res_bind_inv in H as (st & Hinit & H). rewrite Hinit.
  rewrite CoverageFacts.res_bind_ok.
  assert (Hok0 : it_ok pt (mk_iter [] (head pt))).
  { split; [|constructor]. cbn [curr].
    destruct (Z.eq_dec (head pt) 0); [left; assumption|right].
    apply in_trie_head. assumption. }
  destruct (skipglue_stops _ _ _ _ Hinit Hok0) as [Hok Hinv].
  apply (iterate_from_stored _ _ _ _ H Hok Hinv).
Qed.

Lemma land_lnot_one w : Z.land (Z.land w (Z.lnot 1)) 1 = 0.
Proof. rewrite <- Z.land_assoc. change (Z.land (Z.lnot 1) 1) with 0. apply Z.land_0_r. Qed.

Lemma land_even p : Z.land p 1 = 0 -> Z.land p (Z.lnot 1) = p.
Proof.
  intros H. apply Z.bits_inj'. intros n Hn.
  assert (Hb : Z.testbit (Z.land p 1) n = false) by (rewrite H; apply Z.bits_0).
  rewrite Z.land_spec in Hb. rewrite Z.land_spec, Z.lnot_spec by lia.
  destruct (Z.testbit p n), (Z.testbit 1 n); try reflexivity; discriminate.
Qed.

(** The glue flag lives in the least significant bit of the parent
    pointer: setting and clearing it leaves the parent as it is, and
    storing an (even) parent pointer leaves the flag as it is. *)
Theorem glue_flag_and_parent n p :
  Z.land p 1 = 0 ->
  ispnodeglue (setpnodeglue n) = true
  /\ ispnodeglue (resetpnodeglue n) = false
  /\ getpnodeparent (setpnodeglue n) = getpnodeparent n
  /\ getpnodeparent (resetpnodeglue n) = getpnodeparent n
  /\ getpnodeparent (setpnodeparent p n) = p
  /\ ispnodeglue (setpnodeparent p n) = ispnodeglue n.
Proof.
  intros Hp.
  unfold ispnodeglue, getpnodeparent, setpnodeglue, resetpnodeglue,
    setpnodeparent, set_parent_word, PATRICIA_GLUE_NODE.
  cbn [parent]. repeat split.
  - rewrite Z.land_lor_distr_l. change (Z.land 1 1) with 1.
    destruct (Z.eqb_spec (Z.lor (Z.land (parent n) 1) 1) 0) as [E|E];
      [|reflexivity].
    apply Z.lor_eq_0_iff in E as [_ E]. discriminate E.
  - rewrite land_lnot_one. reflexivity.
  - rewrite Z.land_lor_distr_l. change (Z.land 1 (Z.lnot 1)) with 0.
    apply Z.lor_0_r.
  - rewrite <- Z.land_assoc, Z.land_diag. reflexivity.
  - rewrite Z.land_lor_distr_l, <- (Z.land_assoc (parent n) 1 (Z.lnot 1)).
    change (Z.land 1 (Z.lnot 1)) with 0.
    rewrite Z.land_0_r, Z.lor_0_l. apply land_even, Hp.
  - rewrite Z.land_lor_distr_l, Hp, Z.lor_0_r, <- Z.land_assoc.
    change (Z.land 1 1) with 1. reflexivity.
Qed.

Lemma glue_flag_and_parent_witness :
  ispnodeglue (setpnodeglue (pnodeinit None)) = true
  /\ ispnodeglue (resetpnodeglue (pnodeinit None)) = false
  /\ getpnodeparent (setpnodeglue (pnodeinit None)) = getpnodeparent (pnodeinit None)
  /\ getpnodeparent (resetpnodeglue (pnodeinit None)) = getpnodeparent (pnodeinit None)
  /\ getpnodeparent (setpnodeparent 65544 (pnodeinit None)) = 65544
  /\ ispnodeglue (setpnodeparent 65544 (pnodeinit None)) = ispnodeglue (pnodeinit None).
Proof. apply glue_flag_and_parent. reflexivity. Defined.


Lemma patsearchexact_sound_witness :
  exists nd,
    mem CoverageFacts.sample_trie !! 72488 = Some nd /\ ispnodeglue nd = false
    /\ bitlen (prefix nd) = bitlen (PatriciaFacts.v4 9 0 0 0 8)
    /\ patcompwithmask (prefix nd) (PatriciaFacts.v4 9 0 0 0 8)
         (bitlen (PatriciaFacts.v4 9 0 0 0 8)) = Ok true.
Proof.
  apply (patsearchexact_sound 64 CoverageFacts.sample_trie
           (PatriciaFacts.v4 9 0 0 0 8) 72488).
  - vm_compute. reflexivity.
  - lia.
Defined.

Lemma iterator_skips_glue_witness :
  exists ns,
    iterate_nodes 64 CoverageFacts.sample_trie = Ok ns
    /\ Forall2 (stored_at CoverageFacts.sample_trie) ns
         [PatriciaFacts.v4 0 0 0 0 0; PatriciaFacts.v4 8 0 0 0 8;
          PatriciaFacts.v4 8 2 0 0 16; PatriciaFacts.v4 9 0 0 0 8].
Proof.
  apply (iterator_skips_glue 64 CoverageFacts.sample_trie
           [PatriciaFacts.v4 0 0 0 0 0; PatriciaFacts.v4 8 0 0 0 8;
            PatriciaFacts.v4 8 2 0 0 16; PatriciaFacts.v4 9 0 0 0 8]).
  vm_compute. reflexivity.
Defined.

(** The [next] pointer written over a node reads back. *)
Lemma next_round_trip v n :
  0 <= v < 2 ^ 64 -> get_next (set_next v n) = v.
Proof.
  intros Hv. unfold get_next, set_next. cbv zeta. cbn [prefix family bitlen].
  unfold byte_at. cbn [bytes].
  change (Z.to_nat 0) with 0%nat. change (Z.to_nat 1) with 1%nat.
  change (Z.to_nat 2) with 2%nat. change (Z.to_nat 3) with 3%nat.
  cbn [app nth].
  assert (E16 : int16 v mod 65536 = v mod 65536).
  { unfold int16. cbv zeta. destruct (32768 <=? v mod 65536);
      Z.div_mod_to_equations; lia. }
  rewrite E16. change (2 ^ 64) with 18446744073709551616 in Hv.
  Z.div_mod_to_equations. lia.
Qed.

(** A node put on the free list is the next one taken from it, and the
    free list is then as before. *)
Theorem freenode_round_trip malloc pt n pt1 :
  putfreenode n pt = Ok pt1 -> n <> 0 -> 0 <= freenodes pt < 2 ^ 64 ->
  getfreenode malloc pt1 = Ok (n, set_freenodes (freenodes pt) pt1).
Proof.
  intros H Hn Hf. unfold putfreenode, store in H.
  apply res_bind_inv in H as (nd & Hnd & H). injection H as <-.
  set (pt1 := set_mem _ _).
  assert (E : freenodes pt1 = n) by reflexivity.
  assert (Em : mem pt1 !! n = Some (set_next (freenodes pt) nd))
    by apply lookup_insert_eq.
  unfold getfreenode. rewrite E.
  replace (n =? 0) with false by (symmetry; apply Z.eqb_neq; exact Hn).
  rewrite E. replace (n =? 0) with false by (symmetry; apply Z.eqb_neq; exact Hn).
  unfold node. rewrite Em. cbn [of_option]. rewrite CoverageFacts.res_bind_ok.
  rewrite next_round_trip by exact Hf. reflexivity.
Qed.

Lemma freenode_round_trip_witness :
  exists pt1,
    putfreenode 72488 CoverageFacts.sample_trie = Ok pt1
    /\ getfreenode PatriciaFacts.page_at pt1
       = Ok (72488, set_freenodes (freenodes CoverageFacts.sample_trie) pt1).
Proof.
  eexists. split; [vm_compute; reflexivity|].
  apply (freenode_round_trip PatriciaFacts.page_at CoverageFacts.sample_trie).
  - vm_compute. reflexivity.
  - lia.
  - vm_compute. split; [discriminate|reflexivity].
Defined.

(** The fields [putfreenode] leaves alone. *)
Definition same_shape (pt pt' : patricia_trie_t) : Prop :=
  head pt' = head pt /\ nprefs pt' = nprefs pt
  /\ maxbitlen pt' = maxbitlen pt /\ pages pt' = pages pt.

Lemma putfreenode_shape n pt pt' : putfreenode n pt = Ok pt' -> same_shape pt pt'.
Proof.
  unfold putfreenode, store. intros H.
  apply res_bind_inv in H as (nd & _ & H). injection H as <-.
  repeat split.
Qed.

Lemma free_blocks_shape p l : forall acc pt',
  foldl (fun acc i => pt ← acc; putfreenode (block_addr p i) pt) acc l = Ok pt' ->
  exists pt0, acc = Ok pt0 /\ same_shape pt0 pt'.
Proof.
  induction l as [|i l IH]; intros acc pt' H.
  - cbn in H. exists pt'. split; [exact H|repeat split].
  - cbn [foldl] in H. apply IH in H as (pt1 & H1 & S1).
    apply res_bind_inv in H1 as (pt0 & -> & H1).
    exists pt0. split; [reflexivity|].
    apply putfreenode_shape in H1.
    destruct H1 as (a1 & a2 & a3 & a4), S1 as (b1 & b2 & b3 & b4).
    repeat split; congruence.
Qed.

Lemma free_pages_shape l : forall acc pt',
  foldl (fun acc p =>
           foldl (fun acc i => pt ← acc; putfreenode (block_addr p i) pt)
                 acc (seqZ 0 page_nodes)) acc l = Ok pt' ->
  exists pt0, acc = Ok pt0 /\ same_shape pt0 pt'.
Proof.
  induction l as [|p l IH]; intros acc pt' H.
  - cbn in H. exists pt'. split; [exact H|repeat split].
  - cbn [foldl] in H. apply IH in H as (pt1 & H1 & S1).
    apply free_blocks_shape in H1 as (pt0 & -> & S0).
    exists pt0. split; [reflexivity|].
    destruct S0 as (a1 & a2 & a3 & a4), S1 as (b1 & b2 & b3 & b4).
    repeat split; congruence.
Qed.

(** [patclear] leaves an empty trie that keeps its pages: no prefix is
    found, the iterator is at its end at once and the coverage is 0. *)
Theorem patclear_empties pt pt' :
  patclear pt = Ok pt' ->
  head pt' = 0 /\ nprefs pt' = 0
  /\ maxbitlen pt' = maxbitlen pt /\ pages pt' = pages pt
  /\ (forall fuel pfx, patsearchexact fuel pt' pfx = Ok 0)
  /\ (forall fuel, iterate (S fuel) pt' = Ok [])
  /\ (forall fuel, patcoverage (S fuel) pt' = Ok 0).
Proof.
  intros H. unfold patclear in H.
  apply free_pages_shape in H as (pt0 & E & Hh & Hn & Hm & Hp).
  injection E as <-. cbn in Hh, Hn, Hm, Hp.
  repeat split; try assumption.
  - intros fuel pfx. unfold patsearchexact. rewrite Hh. reflexivity.
  - intros fuel. unfold iterate, patiteratorinit.
    cbn [patiteratorskipglue curr]. rewrite Hh. cbn [Z.eqb].
    rewrite CoverageFacts.res_bind_ok. reflexivity.
  - intros fuel. unfold patcoverage. cbn [coverage_loop]. rewrite Hh. reflexivity.
Qed.

(** The sample trie after [patclear]. *)
Definition cleared_sample : patricia_trie_t :=
  match patclear CoverageFacts.sample_trie with
  | Ok pt => pt
  | _ => patinit AF_INET
  end.

Lemma patclear_empties_witness :
  head cleared_sample = 0 /\ nprefs cleared_sample = 0
  /\ maxbitlen cleared_sample = maxbitlen CoverageFacts.sample_trie
  /\ pages cleared_sample = pages CoverageFacts.sample_trie
  /\ (forall fuel pfx, patsearchexact fuel cleared_sample pfx = Ok 0)
  /\ (forall fuel, iterate (S fuel) cleared_sample = Ok [])
  /\ (forall fuel, patcoverage (S fuel) cleared_sample = Ok 0).
Proof.
  apply (patclear_empties CoverageFacts.sample_trie).
  vm_compute. reflexivity.
Defined.


Section fresh_page.
Variable malloc : nat -> Z.

(** Linking the blocks of a page into the free list, as [patallocpage]
    does. *)
Definition link_block (p : Z) (pt : patricia_trie_t) (i : Z) : patricia_trie_t :=
  set_freenodes (block_addr p i)
    (set_mem (<[block_addr p i := set_next (freenodes pt) (pnodeinit None)]> (mem pt))
       pt).

Lemma link_blocks_shape p l : forall pt,
  same_shape pt (fold_left (link_block p) l pt).
Proof.
  induction l as [|i l IH]; intros pt; [repeat split|].
  cbn [fold_left]. destruct (IH (link_block p pt i)) as (a1 & a2 & a3 & a4).
  repeat split; [rewrite a1|rewrite a2|rewrite a3|rewrite a4]; reflexivity.
Qed.

Lemma patallocpage_last pt :
  malloc (length (pages pt)) <> 0 ->
  let p := malloc (length (pages pt)) in
  let pt' := patallocpage malloc pt in
  freenodes pt' = block_addr p 127
  /\ (exists nd, mem pt' !! block_addr p 127 = Some nd)
  /\ head pt' = head pt /\ nprefs pt' = nprefs pt
  /\ maxbitlen pt' = maxbitlen pt /\ pages pt' = p :: pages pt.
Proof.
  intros Hp p pt'. unfold pt', patallocpage. fold p.
  replace (p =? 0) with false by (symmetry; apply Z.eqb_neq; exact Hp).
  cbv zeta. fold (link_block p).
  change (seqZ 0 page_nodes) with (seqZ 0 127 ++ [127]).
  rewrite fold_left_app. cbn [fold_left].
  set (pt0 := fold_left (link_block p) (seqZ 0 127) pt).
  destruct (link_blocks_shape p (seqZ 0 127) pt) as (a1 & a2 & a3 & a4).
  fold pt0 in a1, a2, a3, a4.
  cbn [freenodes mem head nprefs maxbitlen pages link_block set_freenodes set_mem].
  split; [reflexivity|]. split; [eexists; apply lookup_insert_eq|].
  split; [exact a1|]. split; [exact a2|]. split; [exact a3|].
  rewrite a4. reflexivity.
Qed.

(** [patinsert] into a trie that holds nothing, with memory at hand. *)
Lemma insert_first fuel fam pfx :
  0 < malloc 0 ->
  exists n pt',
    patinsert malloc fuel (patinit fam) pfx = Ok (n, PREFIX_INSERTED, pt')
    /\ n <> 0 /\ head pt' = n /\ nprefs pt' = 1
    /\ maxbitlen pt' = maxbitlen (patinit fam)
    /\ mem pt' !! n = Some (pnodeinit (Some pfx)).
Proof.
  intros Hp.
  destruct (patallocpage_last (patinit fam)) as (Hf & (nd & Hnd) & Hh & Hn & Hm & _).
  { cbn [pages patinit length]. lia. }
  cbn [pages patinit length] in Hf, Hnd.
  set (n := block_addr (malloc 0) 127) in *.
  assert (Hn0 : n <> 0) by (unfold n, block_addr, sizeof_pnode; lia).
  set (pt0 := patallocpage malloc (patinit fam)) in *.
  set (pt1 := set_freenodes (get_next nd) pt0).
  set (pt2 := set_mem (<[n := pnodeinit (Some pfx)]> (mem pt1)) pt1).
  exists n, (set_nprefs 1 (set_head n pt2)).
  split; [|repeat split; try assumption; apply lookup_insert_eq].
  unfold patinsert. cbn [head patinit Z.eqb].
  unfold getfreenode. cbn [freenodes patinit Z.eqb]. fold pt0.
  rewrite Hf. replace (n =? 0) with false by (symmetry; apply Z.eqb_neq; exact Hn0).
  unfold node at 1. rewrite Hnd. cbn [of_option].
  rewrite !CoverageFacts.res_bind_ok. fold pt1.
  replace (n =? 0) with false by (symmetry; apply Z.eqb_neq; exact Hn0).
  unfold store, node. change (mem pt1) with (mem pt0). rewrite Hnd.
  cbn [of_option]. rewrite !CoverageFacts.res_bind_ok.
  change (mem pt0) with (mem pt1). fold pt2.
  change (nprefs pt2) with (nprefs pt0). rewrite Hn. reflexivity.
Qed.

End fresh_page.

Lemma patcompwithmask_same pfx :
  wf_bytes pfx -> 0 <= bitlen pfx <= 128 ->
  patcompwithmask pfx pfx (bitlen pfx) = Ok true.
Proof.
  intros Hw Hb.
  destruct (PrefixBits.patcompwithmask_bits pfx pfx (bitlen pfx) Hw Hw Hb)
    as (r & Hr & Hiff).
  rewrite Hr. f_equal. apply Hiff. intros i _. reflexivity.
Qed.

Lemma search_single pt pfx n fuel :
  head pt = n -> n <> 0 -> mem pt !! n = Some (pnodeinit (Some pfx)) ->
  wf_bytes pfx -> 0 <= bitlen pfx <= 128 ->
  patsearchexact (S fuel) pt pfx = Ok n.
Proof.
  intros Hh Hn Hm Hw Hb. unfold patsearchexact. rewrite Hh.
  replace (n =? 0) with false by (symmetry; apply Z.eqb_neq; exact Hn).
  cbn [search_walk]. unfold node. rewrite Hm. cbn [of_option].
  rewrite !CoverageFacts.res_bind_ok. cbn [pnodeinit prefix].
  rewrite Z.ltb_irrefl. rewrite CoverageFacts.res_bind_ok.
  replace (n =? 0) with false by (symmetry; apply Z.eqb_neq; exact Hn).
  rewrite Hm. cbn [of_option].
  rewrite CoverageFacts.res_bind_ok. cbn [pnodeinit prefix]. rewrite Z.ltb_irrefl.
  change (ispnodeglue (mk_pnode pfx 0 0 0 0)) with false. cbn [orb].
  rewrite patcompwithmask_same by assumption. reflexivity.
Qed.

(** The first prefix put into an empty trie is found by [patsearchexact],
    at the node [patinsert] returned, and the trie counts one prefix. *)
Theorem insert_into_empty_found (malloc : nat -> Z) fam pfx fuel fuel' :
  0 < malloc 0%nat -> wf_bytes pfx -> 0 <= bitlen pfx <= 128 ->
  exists n pt',
    patinsert malloc fuel (patinit fam) pfx = Ok (n, PREFIX_INSERTED, pt')
    /\ n <> 0 /\ nprefs pt' = 1
    /\ patsearchexact (S fuel') pt' pfx = Ok n.
Proof.
  intros Hp Hw Hb.
  destruct (insert_first malloc fuel fam pfx Hp)
    as (n & pt' & Hi & Hn & Hh & Hc & _ & Hm).
  exists n, pt'. repeat split; try assumption.
  apply search_single; assumption.
Qed.

Lemma insert_into_empty_found_witness :
  exists n pt',
    patinsert PatriciaFacts.page_at 0 (patinit AF_INET) (PatriciaFacts.v4 10 0 0 0 8)
    = Ok (n, PREFIX_INSERTED, pt')
    /\ n <> 0 /\ nprefs pt' = 1
    /\ patsearchexact 1 pt' (PatriciaFacts.v4 10 0 0 0 8) = Ok n.
Proof.
  apply (insert_into_empty_found PatriciaFacts.page_at AF_INET
           (PatriciaFacts.v4 10 0 0 0 8) 0 0).
  - vm_compute. reflexivity.
  - split; [reflexivity|repeat constructor; lia].
  - vm_compute. split; discriminate.
Defined.

(** Removing the only prefix of a trie empties it: the node goes back to
    the free list, no prefix is counted, and the prefix is found no
    more. *)
Theorem insert_then_remove_empties (malloc : nat -> Z) fam pfx fuel fuel' :
  0 < malloc 0%nat -> wf_bytes pfx -> 0 <= bitlen pfx <= 128 ->
  exists n pt' pt'',
    patinsert malloc fuel (patinit fam) pfx = Ok (n, PREFIX_INSERTED, pt')
    /\ patremove (S fuel') pt' pfx = Ok (0, pt'')
    /\ head pt'' = 0 /\ nprefs pt'' = 0 /\ freenodes pt'' = n
    /\ forall f, patsearchexact f pt'' pfx = Ok 0.
Proof.
  intros Hp Hw Hb.
  destruct (insert_first malloc fuel fam pfx Hp)
    as (n & pt' & Hi & Hn & Hh & Hc & _ & Hm).
  pose proof (search_single pt' pfx n fuel' Hh Hn Hm Hw Hb) as Hs.
  set (pta := set_nprefs (uint32 (nprefs pt' - 1)) pt').
  set (ptb := set_mem (<[n := set_next (freenodes pta) (pnodeinit (Some pfx))]>
                         (mem (set_freenodes n pta))) (set_freenodes n pta)).
  exists n, pt', (set_head 0 ptb).
  split; [exact Hi|]. split.
  - unfold patremove. rewrite Hs, CoverageFacts.res_bind_ok. cbv zeta.
    replace (n =? 0) with false by (symmetry; apply Z.eqb_neq; exact Hn).
    fold pta.
    assert (Hnode : node pta n = Ok (pnodeinit (Some pfx))).
    { unfold node. change (mem pta) with (mem pt'). rewrite Hm. reflexivity. }
    rewrite Hnode, CoverageFacts.res_bind_ok.
    cbn [pnodeinit child0 child1 payload Z.eqb negb andb].
    change (getpnodeparent (mk_pnode pfx 0 0 0 0)) with 0. cbn [Z.eqb].
    assert (Hput : putfreenode n pta = Ok ptb).
    { unfold putfreenode, store, node.
      change (mem (set_freenodes n pta)) with (mem pt'). rewrite Hm.
      cbn [of_option]. rewrite CoverageFacts.res_bind_ok. reflexivity. }
    rewrite Hput, CoverageFacts.res_bind_ok. reflexivity.
  - split; [reflexivity|]. split; [|split; [reflexivity|]].
    + cbn [nprefs set_head ptb set_mem set_freenodes pta set_nprefs].
      rewrite Hc. reflexivity.
    + intros f. unfold patsearchexact. reflexivity.
Qed.

Lemma insert_then_remove_empties_witness :
  exists n pt' pt'',
    patinsert PatriciaFacts.page_at 0 (patinit AF_INET) (PatriciaFacts.v4 10 0 0 0 8)
    = Ok (n, PREFIX_INSERTED, pt')
    /\ patremove 1 pt' (PatriciaFacts.v4 10 0 0 0 8) = Ok (0, pt'')
    /\ head pt'' = 0 /\ nprefs pt'' = 0 /\ freenodes pt'' = n
    /\ forall f, patsearchexact f pt'' (PatriciaFacts.v4 10 0 0 0 8) = Ok 0.
Proof.
  apply (insert_then_remove_empties PatriciaFacts.page_at AF_INET
           (PatriciaFacts.v4 10 0 0 0 8) 0 0).
  - vm_compute. reflexivity.
  - split; [reflexivity|repeat constructor; lia].
  - vm_compute. split; discriminate.
Defined.


Lemma differ_loop_equal pfx check fuel : forall i z,
  wf_bytes pfx -> check <= 128 -> z = 8 * i -> 0 <= i ->
  (0 < fuel)%nat -> check - z <= 8 * (Z.of_nat fuel - 1) ->
  exists d, differ_loop fuel pfx pfx check i z z = Ok d /\ check <= d.
Proof.
  induction fuel as [|fuel IH]; intros i z Hw Hc Hz Hi Hpos Hf; [lia|].
  cbn [differ_loop].
  destruct (Z.ltb_spec z check) as [Hlt|Hge].
  - rewrite PrefixBits.byte_chk_ok by (try assumption; lia).
    rewrite !CoverageFacts.res_bind_ok. cbv zeta.
    rewrite Z.lxor_nilpotent. cbn [Z.eqb].
    destruct (IH (i + 1) (z + 8) Hw Hc ltac:(lia) ltac:(lia) ltac:(lia)
                ltac:(lia)) as (d & Hd & Hcase).
    exists d. split; [exact Hd|exact Hcase].
  - exists z. split; [reflexivity|lia].
Qed.

(** Inserting the prefix a trie already holds as its only one returns the
    node it is stored at and reports [PREFIX_ALREADY_PRESENT], the node is
    as before, and [nprefs] counts the prefix a second time. *)
Theorem reinsert_counts_again (malloc : nat -> Z) fam pfx fuel fuel' :
  0 < malloc 0%nat -> wf_bytes pfx -> 0 <= bitlen pfx <= 128 ->
  exists n pt' pt'',
    patinsert malloc fuel (patinit fam) pfx = Ok (n, PREFIX_INSERTED, pt')
    /\ patinsert malloc (S fuel') pt' pfx = Ok (n, PREFIX_ALREADY_PRESENT, pt'')
    /\ mem pt'' !! n = mem pt' !! n
    /\ nprefs pt' = 1 /\ nprefs pt'' = 2.
Proof.
  intros Hp Hw Hb.
  destruct (insert_first malloc fuel fam pfx Hp)
    as (n & pt' & Hi & Hn & Hh & Hc & _ & Hm).
  assert (Hnode : node pt' n = Ok (pnodeinit (Some pfx))).
  { unfold node. rewrite Hm. reflexivity. }
  destruct (differ_loop_equal pfx (bitlen pfx) 17 0 0 Hw ltac:(lia) eq_refl
              ltac:(lia) ltac:(lia) ltac:(lia)) as (d & Hd & Hcase).
  set (ptc := set_nprefs (uint32 (nprefs pt' + 1)) pt').
  exists n, pt', (set_mem (<[n := pnodeinit (Some pfx)]> (mem ptc)) ptc).
  split; [exact Hi|]. split.
  - unfold patinsert. rewrite Hh.
    replace (n =? 0) with false by (symmetry; apply Z.eqb_neq; exact Hn).
    cbv zeta. cbn [insert_walk]. rewrite Hnode, !CoverageFacts.res_bind_ok.
    cbn [pnodeinit prefix]. rewrite Z.ltb_irrefl.
    change (ispnodeglue (mk_pnode pfx 0 0 0 0)) with false. cbn [orb].
    rewrite !CoverageFacts.res_bind_ok, Hnode, !CoverageFacts.res_bind_ok.
    change (prefix (pnodeinit (Some pfx))) with pfx.
    rewrite Z.min_id, Hd, CoverageFacts.res_bind_ok.
    assert (Ed : (if bitlen pfx <? d then bitlen pfx else d) = bitlen pfx).
    { destruct (Z.ltb_spec (bitlen pfx) d); lia. }
    rewrite Ed. cbn [insert_backup].
    rewrite Hnode, !CoverageFacts.res_bind_ok.
    change (getpnodeparent (pnodeinit (Some pfx))) with 0. cbn [Z.eqb].
    rewrite !CoverageFacts.res_bind_ok, Hnode, !CoverageFacts.res_bind_ok.
    change (prefix (pnodeinit (Some pfx))) with pfx.
    rewrite Z.eqb_refl. cbn [andb].
    change (ispnodeglue (pnodeinit (Some pfx))) with false. cbv iota.
    fold ptc. unfold store, node. change (mem ptc) with (mem pt').
    rewrite Hm. cbn [of_option]. rewrite !CoverageFacts.res_bind_ok.
    reflexivity.
  - split; [|split; [exact Hc|]].
    + cbn [mem set_mem]. rewrite lookup_insert_eq, Hm. reflexivity.
    + cbn [nprefs set_mem ptc set_nprefs]. rewrite Hc. reflexivity.
Qed.

Lemma reinsert_counts_again_witness :
  exists n pt' pt'',
    patinsert PatriciaFacts.page_at 0 (patinit AF_INET) (PatriciaFacts.v4 10 0 0 0 8)
    = Ok (n, PREFIX_INSERTED, pt')
    /\ patinsert PatriciaFacts.page_at 1 pt' (PatriciaFacts.v4 10 0 0 0 8)
       = Ok (n, PREFIX_ALREADY_PRESENT, pt'')
    /\ mem pt'' !! n = mem pt' !! n
    /\ nprefs pt' = 1 /\ nprefs pt'' = 2.
Proof.
  apply (reinsert_counts_again PatriciaFacts.page_at AF_INET
           (PatriciaFacts.v4 10 0 0 0 8) 0 0).
  - vm_compute. reflexivity.
  - split; [reflexivity|repeat constructor; lia].
  - vm_compute. split; discriminate.
Defined.

End PatriciaMore.

(** * Facts: longest match and subnet test *)

Module PatriciaQueryFacts.
Import NetAddr Patricia PatriciaQueries PatriciaMore.

(** The node at [a] holds a prefix, shorter than the key when [strict],
    that [patcompwithmask] finds to cover the key. *)
Definition covering_node (pt : patricia_trie_t) (pfx : netaddr_t)
    (strict : bool) (a : Z) : Prop :=
  exists nd, mem pt !! a = Some nd /\ ispnodeglue nd = false
    /\ (if strict then bitlen (prefix nd) < bitlen pfx
        else bitlen (prefix nd) <= bitlen pfx)
    /\ patcompwithmask (prefix nd) pfx (bitlen (prefix nd)) = Ok true.

Lemma best_walk_sound fuel : forall pt pfx n last r,
  best_walk fuel pt pfx n last = Ok r ->
  last = 0 \/ covering_node pt pfx true last ->
  r = 0 \/ covering_node pt pfx true r.
Proof.
  induction fuel as [|fuel IH]; intros pt pfx n last r H Hl; [discriminate|].
  cbn [best_walk] in H.
  apply res_bind_inv in H as (nd & Hnd & H).
  destruct (Z.ltb_spec (bitlen (prefix nd)) (bitlen pfx)) as [Hlt|Hge];
    [|injection H as <-; exact Hl].
  apply res_bind_inv in H as (step & Hstep & H).
  assert (Hs : match step with
               | Some l' => l' = 0 \/ covering_node pt pfx true l'
               | None => True
               end).
  { destruct (ispnodeglue nd) eqn:Eg; cbn [negb] in Hstep.
    - injection Hstep as <-. exact Hl.
    - apply res_bind_inv in Hstep as (covers & Hc & Hstep).
      injection Hstep as <-. destruct covers; [|exact I].
      right. exists nd. split; [apply node_inv, Hnd|].
      split; [exact Eg|]. split; [exact Hlt|].
      destruct (bitlen (prefix nd) <=? bitlen pfx); [exact Hc|discriminate Hc]. }
  destruct step as [last'|]; [|injection H as <-; exact Hl].
  apply res_bind_inv in H as (bit & _ & H).
  destruct (child bit nd =? 0); [injection H as <-; exact Hs|].
  apply (IH _ _ _ _ _ H Hs).
Qed.

(** What [patsearchbest] returns, unless [NULL], is a node of the trie
    that is not glue, is shorter than the key (never of the key's own
    length) and covers it. *)
Theorem patsearchbest_sound fuel pt pfx r :
  patsearchbest fuel pt pfx = Ok r -> r <> 0 -> covering_node pt pfx true r.
Proof.
  intros H Hr. unfold patsearchbest in H.
  destruct (head pt =? 0); [injection H as <-; contradiction|].
  destruct (best_walk_sound _ _ _ _ _ _ H (or_introl eq_refl)); [contradiction|].
  assumption.
Qed.

Lemma subnet_walk_sound fuel : forall pt pfx n,
  subnet_walk fuel pt pfx n = Ok true -> n = 0 \/ in_trie pt n ->
  exists a, in_trie pt a /\ covering_node pt pfx false a.
Proof.
  induction fuel as [|fuel IH]; intros pt pfx n H Hin; [discriminate|].
  cbn [subnet_walk] in H.
  destruct (Z.eqb_spec n 0) as [E|E]; [discriminate|].
  destruct Hin as [Hin|Hin]; [contradiction|].
  apply res_bind_inv in H as (nd & Hnd & H). apply node_inv in Hnd.
  destruct (Z.ltb_spec (bitlen (prefix nd)) (bitlen pfx)) as [Hlt|Hge].
  - destruct (ispnodeglue nd) eqn:Eg; cbn [negb] in H.
    + apply res_bind_inv in H as (bit & _ & H). apply (IH _ _ _ H).
      destruct (Z.eq_dec (child bit nd) 0) as [E0|E0]; [left; exact E0|right].
      apply (in_trie_child pt n nd bit Hin Hnd E0).
    + destruct (bitlen (prefix nd) <? maxbitlen pt); [|discriminate].
      exists n. split; [exact Hin|]. exists nd. split; [exact Hnd|].
      split; [exact Eg|]. split; [lia|exact H].
  - destruct (ispnodeglue nd) eqn:Eg; cbn [negb andb] in H; [discriminate|].
    destruct (Z.leb_spec (bitlen (prefix nd)) (bitlen pfx)); [|discriminate].
    exists n. split; [exact Hin|]. exists nd. split; [exact Hnd|].
    split; [exact Eg|]. split; [lia|].
    replace (bitlen (prefix nd)) with (bitlen pfx) by lia. exact H.
Qed.

(** When [patissubnetof] answers true, the trie holds a covering prefix:
    a node reached from the head through child pointers that is not glue,
    whose prefix is not longer than the key and which [patcompwithmask]
    finds to cover the key. *)
Theorem patissubnetof_sound fuel pt pfx :
  patissubnetof fuel pt pfx = Ok true ->
  exists a, in_trie pt a /\ covering_node pt pfx false a.
Proof.
  intros H. apply (subnet_walk_sound _ _ _ _ H).
  destruct (Z.eq_dec (head pt) 0); [left; assumption|right].
  apply in_trie_head. assumption.
Qed.

Lemma patsearchbest_sound_witness :
  covering_node CoverageFacts.sample_trie (PatriciaFacts.v4 8 2 3 0 24) true 72544.
Proof.
  apply (patsearchbest_sound 64).
  - vm_compute. reflexivity.
  - lia.
Defined.

Lemma patissubnetof_sound_witness :
  exists a, in_trie CoverageFacts.sample_trie a
    /\ covering_node CoverageFacts.sample_trie (PatriciaFacts.v4 8 2 3 0 24) false a.
Proof.
  apply (patissubnetof_sound 64). vm_compute. reflexivity.
Defined.

End PatriciaQueryFacts.

(** * Facts: instruction words, heap and interpreter of the filter VM *)

Module VmMore.
Import FilterVm VmFacts.

(** ** Instruction words *)

Lemma opcode_table :
  forallb (fun op =>
    forallb (fun arg =>
      (vm_getopcode (vm_makeop op arg) =? op)
      && (vm_getarg (vm_makeop op arg) =? arg)
      && (vm_extendarg (vm_getarg (vm_makeop op arg)) 0 =? arg))
      (seqZ 0 256)) (seqZ 0 256) = true.
Proof. vm_compute. reflexivity. Qed.

(** An instruction word gives back the opcode and the argument it was
    made of, and an argument with no [EXARG] before it is itself. *)
Theorem makeop_round_trip op arg :
  0 <= op < 256 -> 0 <= arg < 256 ->
  vm_getopcode (vm_makeop op arg) = op
  /\ vm_getarg (vm_makeop op arg) = arg
  /\ vm_extendarg (vm_getarg (vm_makeop op arg)) 0 = arg.
Proof.
  intros Ho Ha. pose proof opcode_table as H.
  rewrite PrefixBits.forallb_seqZ in H. specialize (H op Ho).
  rewrite PrefixBits.forallb_seqZ in H. specialize (H arg Ha).
  apply andb_true_iff in H as [H H3]. apply andb_true_iff in H as [H1 H2].
  repeat split; apply Z.eqb_eq; assumption.
Qed.

Lemma makeop_round_trip_witness :
  vm_getopcode (vm_makeop FOPC_CALL 2) = FOPC_CALL
  /\ vm_getarg (vm_makeop FOPC_CALL 2) = 2
  /\ vm_extendarg (vm_getarg (vm_makeop FOPC_CALL 2)) 0 = 2.
Proof. apply makeop_round_trip; vm_compute; (split; [discriminate|reflexivity]). Defined.

(** ** The heap *)

(** A request is rounded up to the next multiple of the alignment. *)
Lemma align_size_rounds_up size :
  0 <= size < 2 ^ 63 ->
  align_size size mod max_align = 0
  /\ size <= align_size size < size + max_align.
Proof.
  intros Hs. unfold align_size, max_align, uint64, wrap. cbv zeta.
  change (32 - 1) with 31. change (2 ^ 63) with 9223372036854775808 in Hs.
  change (2 ^ 64) with 18446744073709551616.
  rewrite (Z.mod_small (size + 31)) by lia.
  assert (E : Z.land (size + 31) 31 = (size + 31) mod 32).
  { change 31 with (Z.ones 5) at 2. rewrite Z.land_ones by lia. reflexivity. }
  rewrite E.
  rewrite (Z.mod_small (size + 31 - (size + 31) mod 32))
    by (Z.div_mod_to_equations; lia).
  Z.div_mod_to_equations. lia.
Qed.

Lemma align_size_rounds_up_witness :
  align_size 16 mod max_align = 0 /\ 16 <= align_size 16 < 16 + max_align.
Proof. apply align_size_rounds_up. vm_compute. split; [discriminate|reflexivity]. Defined.

Section heap.
Variable realloc_ok : Z -> bool.
Variable NDEBUG : bool.

Lemma ensure_fields vm size vm' :
  vm_heap_ensure realloc_ok vm size = Some vm' ->
  highwater vm' = highwater vm /\ dynmarker vm' = dynmarker vm.
Proof. apply HeapFacts.vm_heap_ensure_marks. Qed.

(** A TEMP allocation that is served starts where the heap in use ends,
    and [vm_heap_return] of the same size takes it back: both marks are
    as before. *)
Theorem temp_alloc_return vm size vm0 :
  vm_heap_ensure realloc_ok vm (align_size size) = Some vm0 ->
  0 <= size -> 0 <= dynmarker vm -> dynmarker vm + size + 32 <= 2 ^ 32 ->
  exists vm1 vm2,
    vm_heap_alloc realloc_ok NDEBUG vm size VM_HEAP_TEMP
    = Ok (highwater vm + dynmarker vm, vm1)
    /\ dynmarker vm1 = dynmarker vm + align_size size
    /\ vm_heap_return NDEBUG vm1 size = Ok vm2
    /\ dynmarker vm2 = dynmarker vm /\ highwater vm2 = highwater vm.
Proof.
  intros He Hs Hd Hroom. change (2 ^ 32) with 4294967296 in Hroom.
  destruct (ensure_fields vm _ vm0 He) as [Hh Hm].
  destruct (align_size_rounds_up size) as [_ Ha].
  { change (2 ^ 63) with 9223372036854775808. lia. }
  unfold max_align in Ha.
  assert (E32 : uint32 (dynmarker vm + align_size size)
                = dynmarker vm + align_size size).
  { unfold uint32, wrap. apply Z.mod_small.
    change (2 ^ 32) with 4294967296. lia. }
  set (vm1 := set_heap (highwater vm) (dynmarker vm + align_size size)
                (heapsiz vm0) vm0).
  exists vm1, (set_heap (highwater vm) (dynmarker vm) (heapsiz vm0) vm1).
  split.
  { unfold vm_heap_alloc. cbv zeta. rewrite He. unfold VM_HEAP_TEMP.
    cbv iota. rewrite Hh, Hm, E32. reflexivity. }
  split; [reflexivity|]. split; [|split; reflexivity].
  unfold vm_heap_return. cbv zeta.
  change (dynmarker vm1) with (dynmarker vm + align_size size).
  change (highwater vm1) with (highwater vm).
  change (heapsiz vm1) with (heapsiz vm0).
  replace (align_size size <=? dynmarker vm + align_size size) with true
    by (symmetry; apply Z.leb_le; lia).
  unfold assert. cbn [orb]. rewrite CoverageFacts.res_bind_ok.
  replace (dynmarker vm + align_size size - align_size size)
    with (dynmarker vm) by lia.
  replace (uint32 (dynmarker vm)) with (dynmarker vm); [reflexivity|].
  unfold uint32, wrap. symmetry. apply Z.mod_small.
  change (2 ^ 32) with 4294967296. lia.
Qed.

(** A PERM allocation that is served, with no TEMP memory in use (the
    only state in which one is legal), starts at the high-water mark and
    moves it up by the aligned size. *)
Theorem perm_alloc_bumps_highwater vm size vm0 :
  vm_heap_ensure realloc_ok vm (align_size size) = Some vm0 ->
  dynmarker vm = 0 -> 0 <= size -> 0 <= highwater vm ->
  highwater vm + size + 32 <= 2 ^ 32 ->
  exists vm1,
    vm_heap_alloc realloc_ok NDEBUG vm size VM_HEAP_PERM = Ok (highwater vm, vm1)
    /\ highwater vm1 = highwater vm + align_size size
    /\ dynmarker vm1 = 0.
Proof.
  intros He Hdm Hs Hh Hroom. change (2 ^ 32) with 4294967296 in Hroom.
  destruct (ensure_fields vm _ vm0 He) as [Hh0 Hm0].
  destruct (align_size_rounds_up size) as [_ Ha].
  { change (2 ^ 63) with 9223372036854775808. lia. }
  unfold max_align in Ha.
  assert (E32 : uint32 (highwater vm + align_size size)
                = highwater vm + align_size size).
  { unfold uint32, wrap. apply Z.mod_small.
    change (2 ^ 32) with 4294967296. lia. }
  exists (set_heap (highwater vm + align_size size) 0 (heapsiz vm0) vm0).
  split; [|split; reflexivity].
  unfold vm_heap_alloc. cbv zeta. rewrite He. unfold VM_HEAP_PERM.
  cbv iota. rewrite Hm0, Hdm. cbn [Z.ltb Z.compare]. rewrite Hh0, E32.
  reflexivity.
Qed.

End heap.

Lemma temp_alloc_return_witness :
  exists vm1 vm2,
    vm_heap_alloc (fun _ => true) true (HeapFacts.heap_vm 32 32 512) 16 VM_HEAP_TEMP
    = Ok (highwater (HeapFacts.heap_vm 32 32 512)
          + dynmarker (HeapFacts.heap_vm 32 32 512), vm1)
    /\ dynmarker vm1 = dynmarker (HeapFacts.heap_vm 32 32 512) + align_size 16
    /\ vm_heap_return true vm1 16 = Ok vm2
    /\ dynmarker vm2 = dynmarker (HeapFacts.heap_vm 32 32 512)
    /\ highwater vm2 = highwater (HeapFacts.heap_vm 32 32 512).
Proof.
  apply (temp_alloc_return (fun _ => true) true (HeapFacts.heap_vm 32 32 512) 16
           (HeapFacts.heap_vm 32 32 512)).
  - vm_compute. reflexivity.
  - lia.
  - vm_compute. discriminate.
  - vm_compute. discriminate.
Defined.

Lemma perm_alloc_bumps_highwater_witness :
  exists vm1,
    vm_heap_alloc (fun _ => true) true (HeapFacts.heap_vm 32 0 512) 16 VM_HEAP_PERM
    = Ok (highwater (HeapFacts.heap_vm 32 0 512), vm1)
    /\ highwater vm1 = highwater (HeapFacts.heap_vm 32 0 512) + align_size 16
    /\ dynmarker vm1 = 0.
Proof.
  apply (perm_alloc_bumps_highwater (fun _ => true) true
           (HeapFacts.heap_vm 32 0 512) 16 (HeapFacts.heap_vm 32 0 512)).
  - vm_compute. reflexivity.
  - reflexivity.
  - lia.
  - vm_compute. discriminate.
  - vm_compute. discriminate.
Defined.


(** ** The interpreter *)

(** Whether a program of [NOP], [BLK] and [ENDBLK] instructions, run from
    depth [d], comes to an [ENDBLK] with no block open. *)
Fixpoint blk_spurious (c : list Z) (d : Z) : bool :=
  match c with
  | [] => false
  | ip :: c' =>
      if vm_getopcode ip =? FOPC_NOP then blk_spurious c' d
      else if vm_getopcode ip =? FOPC_BLK then blk_spurious c' (d + 1)
      else if vm_getopcode ip =? FOPC_ENDBLK then
        if d =? 0 then true else blk_spurious c' (d - 1)
      else false
  end.

Section run.
Variable realloc_ok : Z -> bool.
Variable malloc : nat -> Z.
Variable funcs : Z -> option (filter_vm_t -> vmres filter_vm_t).
Variable intrin : Z -> Z -> filter_vm_t -> vmres filter_vm_t.

Local Abbreviation run := (bgp_filter realloc_ok malloc funcs intrin).
Local Abbreviation body := (filter_body realloc_ok malloc funcs intrin).
Local Abbreviation loop := (exec_loop realloc_ok malloc funcs intrin).
Local Abbreviation insn := (exec_insn realloc_ok malloc funcs intrin).

Lemma bind_abort {A B} v (f : A -> vmres B) : (Abort v ≫= f) = Abort v.
Proof. reflexivity. Qed.

(** The part of the machine that [NOP], [BLK] and [ENDBLK] leave alone. *)
Definition same_stack (vm vm' : filter_vm_t) : Prop :=
  si vm' = si vm /\ sp vm' = sp vm /\ stacksiz vm' = stacksiz vm
  /\ settle_func vm' = settle_func vm.

Lemma loop_blocks_stack c : forall pre vm d ex fuel,
  code vm = pre ++ c -> pc vm = Z.of_nat (length pre) ->
  codesiz vm = Z.of_nat (length (pre ++ c)) -> codesiz vm < 65536 ->
  curblk vm = d -> 0 <= d <= Z.of_nat (length pre) ->
  (length c < fuel)%nat ->
  match blk_depth c d with
  | Some d' =>
      exists vm', loop fuel vm ex = Go vm' /\ curblk vm' = d' /\ same_stack vm vm'
  | None =>
      blk_spurious c d = true ->
      exists vm', loop fuel vm ex = Abort vm' /\ error vm' = VM_SPURIOUS_ENDBLK
                  /\ settle_func vm' = settle_func vm
  end.
Proof.
  induction c as [|ip c IH]; intros pre vm d ex fuel Hc Hpc Hsz Hlt Hd Hdr Hf.
  - destruct fuel as [|fuel]; [cbn in Hf; lia|].
    cbn [blk_depth].
    rewrite (loop_end realloc_ok malloc funcs intrin)
      by (rewrite Hsz, Hpc, app_nil_r; lia).
    exists vm. split; [reflexivity|]. split; [exact Hd|repeat split].
  - destruct fuel as [|fuel]; [cbn in Hf; lia|].
    rewrite length_app in Hsz. cbn [length] in Hsz, Hf.
    rewrite (loop_step realloc_ok malloc funcs intrin _ vm ex ip);
      [|lia|rewrite Hc, Hpc, Nat2Z.id, lookup_app_r, Nat.sub_diag by lia; reflexivity].
    assert (Hpc1 : uint16 (pc vm + 1) = Z.of_nat (length (pre ++ [ip]))).
    { rewrite uint16_small by lia. rewrite length_app. cbn [length]. lia. }
    assert (Hc1 : code vm = (pre ++ [ip]) ++ c) by (rewrite <- app_assoc; exact Hc).
    assert (Hsz1 : codesiz vm = Z.of_nat (length ((pre ++ [ip]) ++ c))).
    { rewrite !length_app. cbn [length]. lia. }
    assert (Hl1 : Z.of_nat (length (pre ++ [ip])) = Z.of_nat (length pre) + 1).
    { rewrite length_app. cbn [length]. lia. }
    cbn [blk_depth blk_spurious].
    destruct (Z.eqb_spec (vm_getopcode ip) FOPC_NOP) as [Hop|_].
    { rewrite insn_nop by exact Hop. rewrite bind_go. cbn match.
      specialize (IH (pre ++ [ip]) (set_pc (uint16 (pc vm + 1)) vm) d ex fuel).
      destruct (blk_depth c d) as [d'|].
      - destruct IH as (vm' & Hl & Hb & Hs);
          try (destruct vm; cbn in *; first [eassumption|lia]); try lia.
        exists vm'. split; [exact Hl|]. split; [exact Hb|].
        destruct vm; exact Hs.
      - intros Hsp. destruct IH as (vm' & Hl & He & Hs);
          try (destruct vm; cbn in *; first [eassumption|lia]); try lia.
        exists vm'. split; [exact Hl|]. split; [exact He|].
        destruct vm; exact Hs. }
    destruct (Z.eqb_spec (vm_getopcode ip) FOPC_BLK) as [Hop|_].
    { rewrite insn_blk by exact Hop. rewrite bind_go. cbn match.
      specialize (IH (pre ++ [ip])
                    (set_curblk (uint16 (curblk (set_pc (uint16 (pc vm + 1)) vm) + 1))
                       (set_pc (uint16 (pc vm + 1)) vm)) (d + 1) ex fuel).
      assert (Hb1 : uint16 (curblk vm + 1) = d + 1)
        by (rewrite uint16_small by lia; lia).
      destruct (blk_depth c (d + 1)) as [d'|].
      - destruct IH as (vm' & Hl & Hb & Hs);
          try (destruct vm; cbn in *; first [eassumption|lia]); try lia.
        exists vm'. split; [exact Hl|]. split; [exact Hb|].
        destruct vm; exact Hs.
      - intros Hsp. destruct IH as (vm' & Hl & He & Hs);
          try (destruct vm; cbn in *; first [eassumption|lia]); try lia.
        exists vm'. split; [exact Hl|]. split; [exact He|].
        destruct vm; exact Hs. }
    destruct (Z.eqb_spec (vm_getopcode ip) FOPC_ENDBLK) as [Hop|_];
      [|discriminate].
    rewrite insn_endblk by exact Hop.
    replace (curblk (set_pc (uint16 (pc vm + 1)) vm)) with d
      by (destruct vm; cbn in *; congruence).
    destruct (Z.eqb_spec d 0) as [Hd0|Hd0].
    { intros _. unfold vm_abort. rewrite bind_abort.
      eexists. split; [reflexivity|]. split; [reflexivity|].
      destruct vm; reflexivity. }
    rewrite bind_go. cbn match.
    specialize (IH (pre ++ [ip])
                  (set_curblk (uint16 (d - 1)) (set_pc (uint16 (pc vm + 1)) vm))
                  (d - 1) ex fuel).
    assert (Hb1 : uint16 (d - 1) = d - 1) by (rewrite uint16_small by lia; lia).
    destruct (blk_depth c (d - 1)) as [d'|].
    + destruct IH as (vm' & Hl & Hb & Hs);
        try (destruct vm; cbn in *; first [eassumption|lia]); try lia.
      exists vm'. split; [exact Hl|]. split; [exact Hb|].
      destruct vm; exact Hs.
    + intros Hsp. destruct IH as (vm' & Hl & He & Hs);
        try (destruct vm; cbn in *; first [eassumption|lia]); try lia.
      exists vm'. split; [exact Hl|]. split; [exact He|].
      destruct vm; exact Hs.
Qed.


Lemma spurious_is_no_depth c : forall d,
  blk_spurious c d = true -> blk_depth c d = None.
Proof.
  induction c as [|ip c IH]; intros d H; [discriminate|].
  cbn [blk_spurious blk_depth] in *.
  destruct (vm_getopcode ip =? FOPC_NOP); [apply IH, H|].
  destruct (vm_getopcode ip =? FOPC_BLK); [apply IH, H|].
  destruct (vm_getopcode ip =? FOPC_ENDBLK); [|reflexivity].
  destruct (d =? 0); [reflexivity|apply IH, H].
Qed.

(** A program of [NOP], [BLK] and [ENDBLK] in which an [ENDBLK] finds no
    block open is answered with [VM_SPURIOUS_ENDBLK]. *)
Theorem spurious_endblk msg vm fuel :
  ready vm -> codesiz vm = Z.of_nat (length (code vm)) -> codesiz vm < 65536 ->
  (length (code vm) < fuel)%nat ->
  blk_spurious (code vm) 0 = true ->
  exists vm', run fuel msg vm = Ok (VM_SPURIOUS_ENDBLK, vm').
Proof.
  intros Hr Hsz Hlt Hf Hsp.
  destruct (prologue_ready msg vm Hr)
    as (vm0 & Hp & Hr0 & Hpc & Hsi & Hblk & Hcode & Hcsz & Hsp0 & Hsf).
  pose proof (loop_blocks_stack (code vm) [] vm0 0 0 fuel) as Hl.
  rewrite (spurious_is_no_depth _ _ Hsp) in Hl.
  destruct Hl as (vm1 & Hl & He & _);
    try assumption; try (cbn [length app]; congruence || lia).
  unfold bgp_filter. rewrite filter_body_eq, Hp, bind_go, Hl, bind_abort.
  eexists. cbv zeta. rewrite settle_error, He. reflexivity.
Qed.

Lemma epilogue_underflow vm :
  curblk vm = 0 -> si vm = 0 ->
  epilogue vm = Abort (set_error VM_STACK_UNDERFLOW (vm_exec_settle vm)).
Proof.
  intros Hb Hsi. unfold epilogue. cbv zeta.
  destruct (settle_keeps vm) as (Eb & Es & _). rewrite Eb, Hb.
  cbn [Z.ltb Z.compare]. unfold vm_pop. rewrite Es, Hsi. reflexivity.
Qed.

(** A program of [NOP], [BLK] and [ENDBLK] whose blocks are all closed
    (the empty program among them) leaves nothing on the stack: the
    outcome is [VM_STACK_UNDERFLOW]. *)
Theorem balanced_blocks_underflow msg vm fuel :
  ready vm -> codesiz vm = Z.of_nat (length (code vm)) -> codesiz vm < 65536 ->
  (length (code vm) < fuel)%nat ->
  blk_depth (code vm) 0 = Some 0 ->
  exists vm', run fuel msg vm = Ok (VM_STACK_UNDERFLOW, vm').
Proof.
  intros Hr Hsz Hlt Hf Hb.
  destruct (prologue_ready msg vm Hr)
    as (vm0 & Hp & Hr0 & Hpc & Hsi & Hblk & Hcode & Hcsz & Hsp0 & Hsf).
  pose proof (loop_blocks_stack (code vm) [] vm0 0 0 fuel) as Hl.
  rewrite Hb in Hl.
  destruct Hl as (vm1 & Hl & Hb1 & Hs1 & _);
    try assumption; try (cbn [length app]; congruence || lia).
  unfold bgp_filter. rewrite filter_body_eq, Hp, bind_go, Hl, bind_go.
  rewrite epilogue_underflow by congruence.
  eexists. cbv zeta. rewrite settle_error. reflexivity.
Qed.

Lemma peek_go vm : 0 < si vm -> vm_peek vm = Go (si vm - 1).
Proof.
  intros H. unfold vm_peek.
  replace (si vm =? 0) with false by (symmetry; apply Z.eqb_neq; lia).
  reflexivity.
Qed.

Lemma cell_go vm i c :
  0 <= i -> sp vm !! Z.to_nat i = Some c -> cell_at vm i = Go c.
Proof.
  intros Hi Hc. unfold cell_at.
  replace (i <? 0) with false by (symmetry; apply Z.ltb_ge; lia).
  rewrite Hc. reflexivity.
Qed.

Lemma insn_not fuel vm ip ex :
  vm_getopcode ip = FOPC_NOT ->
  insn fuel vm ip ex = (vm ← vm_exec_not vm; Go (vm, ex, false)).
Proof. intros H. unfold exec_insn. rewrite H. reflexivity. Qed.

Lemma insn_cpass fuel vm ip ex :
  vm_getopcode ip = FOPC_CPASS ->
  insn fuel vm ip ex =
    (i ← vm_peek vm;
     c ← cell_at vm i;
     v ← lift (cell_value c);
     if negb (v =? 0) then
       if curblk vm =? 0 then Go (vm, ex, true)
       else vm ← vm_exec_break vm; Go (vm, ex, false)
     else Go (set_si (uint16 (si vm - 1)) vm, ex, false)).
Proof. intros H. unfold exec_insn. rewrite H. reflexivity. Qed.

Lemma insn_cfail fuel vm ip ex :
  vm_getopcode ip = FOPC_CFAIL ->
  insn fuel vm ip ex =
    (i ← vm_peek vm;
     c ← cell_at vm i;
     v ← lift (cell_value c);
     if negb (v =? 0) then
       vm ← set_cell i (CValue 0) vm;
       if curblk vm =? 0 then Go (vm, ex, true)
       else vm ← vm_exec_break vm; Go (vm, ex, false)
     else Go (set_si (uint16 (si vm - 1)) vm, ex, false)).
Proof. intros H. unfold exec_insn. rewrite H. reflexivity. Qed.

(** The machine with [pc] moved and the cell under the top replaced. *)
Definition with_top (pc' : Z) (c : stack_cell_t) (vm : filter_vm_t) : filter_vm_t :=
  set_stack (<[Z.to_nat (si vm - 1) := c]> (sp vm)) (stacksiz vm) (set_pc pc' vm).

(** After the prologue, [LOAD k] as the first instruction. *)
Lemma first_load vm0 k rest fuel :
  ready vm0 -> pc vm0 = 0 -> si vm0 = 0 -> curblk vm0 = 0 ->
  code vm0 = vm_makeop FOPC_LOAD k :: rest ->
  codesiz vm0 = Z.of_nat (length (code vm0)) -> codesiz vm0 < 65536 ->
  0 <= k < 256 ->
  exists vmA,
    loop (S fuel) vm0 0 = loop fuel vmA 0
    /\ pc vmA = 1 /\ si vmA = 1 /\ curblk vmA = 0
    /\ code vmA = code vm0 /\ codesiz vmA = codesiz vm0
    /\ sp vmA !! 0%nat = Some (CValue k)
    /\ stacksiz vmA = Z.of_nat (length (sp vmA))
    /\ settle_func vmA = settle_func vm0.
Proof.
  intros [Hn Ht [Hs Hs']] Hpc Hsi Hb Hc Hsz Hlt Hk.
  destruct (makeop_load k Hk) as [Hop Harg].
  rewrite Hc in Hsz. cbn [length] in Hsz.
  rewrite (loop_step realloc_ok malloc funcs intrin _ vm0 0 (vm_makeop FOPC_LOAD k));
    [|lia|rewrite Hpc, Hc; reflexivity].
  rewrite insn_load by exact Hop. rewrite Harg.
  rewrite pushvalue_go;
    [|destruct vm0; cbn in *; lia|destruct vm0; cbn in *; lia
     |destruct vm0; cbn in *; lia].
  rewrite !bind_go. cbn match.
  eexists. split; [reflexivity|].
  destruct vm0; cbn in *. subst.
  rewrite uint16_small by lia.
  repeat split; try reflexivity.
  - destruct sp0; [cbn in Hs'; lia|reflexivity].
  - rewrite length_insert. reflexivity.
Qed.

Lemma epilogue_top vm v :
  curblk vm = 0 -> si vm = 1 -> sp vm !! 0%nat = Some (CValue v) ->
  exists vm', epilogue vm = Go (if negb (v =? 0) then 1 else 0, vm').
Proof.
  intros Hb Hsi Hv. eexists.
  apply epilogue_value; [exact Hb|lia|].
  rewrite Hsi. exact Hv.
Qed.

(** [LOAD k; NOT]: the outcome is PASS when [k] is 0 and FAIL when it is
    not. *)
Theorem not_inverts msg vm fuel k :
  ready vm -> code vm = [vm_makeop FOPC_LOAD k; FOPC_NOT] -> codesiz vm = 2 ->
  0 <= k < 256 ->
  exists vm',
    run (S (S (S fuel))) msg vm
    = Ok (if k =? 0 then FILTER_PASS else FILTER_FAIL, vm').
Proof.
  intros Hr Hc Hz Hk.
  destruct (prologue_ready msg vm Hr)
    as (vm0 & Hp & Hr0 & Hpc & Hsi & Hblk & Hcode & Hcsz & Hsp & Hsf).
  destruct (first_load vm0 k [FOPC_NOT] (S (S fuel)))
    as (vmA & Hl & HpcA & HsiA & HbA & HcA & HzA & HtopA & HstA & HsfA);
    try assumption; try congruence.
  { rewrite Hcode, Hc, Hcsz, Hz. reflexivity. }
  { lia. }
  unfold bgp_filter. rewrite filter_body_eq, Hp, bind_go, Hl.
  rewrite (loop_step realloc_ok malloc funcs intrin _ vmA 0 FOPC_NOT);
    [|lia|rewrite HpcA, HcA, Hcode, Hc; reflexivity].
  rewrite insn_not by reflexivity.
  set (vmA' := set_pc (uint16 (pc vmA + 1)) vmA).
  assert (Hnot : vm_exec_not vmA'
                 = Go (with_top (uint16 (pc vmA + 1))
                         (CValue (if k =? 0 then 1 else 0)) vmA)).
  { unfold vm_exec_not. rewrite peek_go by (unfold vmA'; destruct vmA; cbn in *; lia).
    rewrite bind_go.
    rewrite (cell_go vmA' _ (CValue k));
      [|unfold vmA'; destruct vmA; cbn in *; lia
       |unfold vmA'; destruct vmA; cbn in *; subst; exact HtopA].
    rewrite bind_go. cbn [cell_value lift]. rewrite bind_go.
    unfold set_cell.
    replace ((0 <=? si vmA' - 1) && (si vmA' - 1 <? Z.of_nat (length (sp vmA'))))
      with true.
    - reflexivity.
    - symmetry. apply andb_true_iff.
      assert (0 < length (sp vmA))%nat
        by (destruct (sp vmA); [discriminate HtopA|cbn; lia]).
      unfold vmA'. destruct vmA; cbn in *. subst.
      split; [apply Z.leb_le|apply Z.ltb_lt]; lia. }
  rewrite Hnot, !bind_go. cbn match.
  set (vmB := with_top _ _ vmA).
  rewrite loop_end
    by (unfold vmB, with_top; destruct vmA; cbn in *; subst;
        rewrite uint16_small; lia).
  rewrite bind_go.
  destruct (epilogue_top vmB (if k =? 0 then 1 else 0)) as (vm' & He).
  - unfold vmB, with_top. destruct vmA; cbn in *. exact HbA.
  - unfold vmB, with_top. destruct vmA; cbn in *. exact HsiA.
  - unfold vmB, with_top. destruct vmA; cbn in *. subst.
    destruct sp0; [discriminate HtopA|reflexivity].
  - rewrite He. exists vm'. destruct (k =? 0); reflexivity.
Qed.

(** [LOAD k; CPASS; ...] and [LOAD k; CFAIL; ...] with [k] other than 0,
    outside any block: the filter ends there, with PASS and with FAIL,
    whatever instructions follow. *)
Theorem cpass_cfail_end_the_filter msg vm fuel k op rest :
  ready vm -> code vm = vm_makeop FOPC_LOAD k :: op :: rest ->
  codesiz vm = Z.of_nat (length (code vm)) -> codesiz vm < 65536 ->
  0 < k < 256 -> op = FOPC_CPASS \/ op = FOPC_CFAIL ->
  exists vm',
    run (S (S fuel)) msg vm
    = Ok (if op =? FOPC_CPASS then FILTER_PASS else FILTER_FAIL, vm').
Proof.
  intros Hr Hc Hz Hlt Hk Hop.
  destruct (prologue_ready msg vm Hr)
    as (vm0 & Hp & Hr0 & Hpc & Hsi & Hblk & Hcode & Hcsz & Hsp & Hsf).
  destruct (first_load vm0 k (op :: rest) (S fuel))
    as (vmA & Hl & HpcA & HsiA & HbA & HcA & HzA & HtopA & HstA & HsfA);
    try assumption; try congruence.
  { lia. }
  assert (Hlen : 2 <= codesiz vm) by (rewrite Hz, Hc; cbn [length]; lia).
  unfold bgp_filter. rewrite filter_body_eq, Hp, bind_go, Hl.
  rewrite (loop_step realloc_ok malloc funcs intrin _ vmA 0 op);
    [|lia|rewrite HpcA, HcA, Hcode, Hc; reflexivity].
  set (vmA' := set_pc (uint16 (pc vmA + 1)) vmA).
  assert (Hpeek : vm_peek vmA' = Go 0).
  { rewrite peek_go by (unfold vmA'; destruct vmA; cbn in *; lia).
    unfold vmA'. destruct vmA; cbn in *. subst. reflexivity. }
  assert (Hcell : cell_at vmA' 0 = Go (CValue k)).
  { apply cell_go; [lia|]. unfold vmA'. destruct vmA; cbn in *. exact HtopA. }
  assert (Hk0 : negb (k =? 0) = true).
  { apply negb_true_iff, Z.eqb_neq. lia. }
  assert (HbA' : curblk vmA' = 0) by (unfold vmA'; destruct vmA; exact HbA).
  destruct Hop as [-> | ->].
  - rewrite insn_cpass by reflexivity.
    rewrite Hpeek, bind_go, Hcell, bind_go. cbn [cell_value lift].
    rewrite bind_go, Hk0, HbA'. cbn [Z.eqb]. rewrite bind_go. cbn match.
    rewrite bind_go.
    destruct (epilogue_top vmA' k) as (vm' & He).
    + exact HbA'.
    + unfold vmA'. destruct vmA; exact HsiA.
    + unfold vmA'. destruct vmA; exact HtopA.
    + rewrite He, Hk0. exists vm'. reflexivity.
  - rewrite insn_cfail by reflexivity.
    rewrite Hpeek, bind_go, Hcell, bind_go. cbn [cell_value lift].
    rewrite bind_go, Hk0.
    assert (Hset : set_cell 0 (CValue 0) vmA'
                   = Go (set_stack (<[0%nat := CValue 0]> (sp vmA'))
                           (stacksiz vmA') vmA')).
    { unfold set_cell.
      assert (0 < length (sp vmA))%nat
        by (destruct (sp vmA); [discriminate HtopA|cbn; lia]).
      replace ((0 <=? 0) && (0 <? Z.of_nat (length (sp vmA')))) with true;
        [reflexivity|].
      symmetry. apply andb_true_iff. unfold vmA'. destruct vmA; cbn in *.
      split; [reflexivity|apply Z.ltb_lt; lia]. }
    rewrite Hset, bind_go.
    set (vmC := set_stack _ _ vmA').
    assert (HbC : curblk vmC = 0) by (unfold vmC; destruct vmA'; exact HbA').
    rewrite HbC. cbn [Z.eqb]. rewrite bind_go. cbn match. rewrite bind_go.
    destruct (epilogue_top vmC 0) as (vm' & He).
    + exact HbC.
    + unfold vmC, vmA'. destruct vmA; exact HsiA.
    + unfold vmC, vmA'. destruct vmA; cbn in *.
      destruct sp0; [discriminate HtopA|reflexivity].
    + rewrite He. exists vm'. reflexivity.
Qed.

End run.

Lemma spurious_endblk_witness :
  exists vm,
    program [FOPC_BLK; FOPC_ENDBLK; FOPC_ENDBLK] = Some vm
    /\ exists vm', bgp_filter (fun _ => true) page_at no_funcs no_intrin 4
                     HeapFacts.blank_msg vm = Ok (VM_SPURIOUS_ENDBLK, vm').
Proof.
  eexists. split; [vm_compute; reflexivity|].
  apply spurious_endblk.
  - split; [cbn; lia| |split; [reflexivity|reflexivity]].
    eexists _, _, []. repeat split.
  - reflexivity.
  - reflexivity.
  - cbn. lia.
  - reflexivity.
Defined.

Lemma balanced_blocks_underflow_witness :
  exists vm,
    program [FOPC_BLK; FOPC_NOP; FOPC_ENDBLK] = Some vm
    /\ exists vm', bgp_filter (fun _ => true) page_at no_funcs no_intrin 4
                     HeapFacts.blank_msg vm = Ok (VM_STACK_UNDERFLOW, vm').
Proof.
  eexists. split; [vm_compute; reflexivity|].
  apply balanced_blocks_underflow.
  - split; [cbn; lia| |split; [reflexivity|reflexivity]].
    eexists _, _, []. repeat split.
  - reflexivity.
  - reflexivity.
  - cbn. lia.
  - reflexivity.
Defined.

Lemma not_inverts_witness :
  exists vm,
    program [vm_makeop FOPC_LOAD 0; FOPC_NOT] = Some vm
    /\ exists vm', bgp_filter (fun _ => true) page_at no_funcs no_intrin 3
                     HeapFacts.blank_msg vm = Ok (FILTER_PASS, vm').
Proof.
  eexists. split; [vm_compute; reflexivity|].
  apply (not_inverts (fun _ => true) page_at no_funcs no_intrin
           HeapFacts.blank_msg _ 0 0).
  - split; [cbn; lia| |split; [reflexivity|reflexivity]].
    eexists _, _, []. repeat split.
  - reflexivity.
  - reflexivity.
  - lia.
Defined.

Lemma cpass_cfail_end_the_filter_witness :
  exists vm,
    program [vm_makeop FOPC_LOAD 1; FOPC_CFAIL; FOPC_ENDBLK] = Some vm
    /\ exists vm', bgp_filter (fun _ => true) page_at no_funcs no_intrin 2
                     HeapFacts.blank_msg vm = Ok (FILTER_FAIL, vm').
Proof.
  eexists. split; [vm_compute; reflexivity|].
  apply (cpass_cfail_end_the_filter (fun _ => true) page_at no_funcs no_intrin
           HeapFacts.blank_msg _ 0 1 FOPC_CFAIL [FOPC_ENDBLK]).
  - split; [cbn; lia| |split; [reflexivity|reflexivity]].
    eexists _, _, []. repeat split.
  - reflexivity.
  - reflexivity.
  - reflexivity.
  - lia.
  - right. reflexivity.
Defined.

End VmMore.

(** * Facts: the AS loop detection of bgpgrep *)

Module LoopFacts.
Import Bgpgrep.

(** The entry [i] of the path repeats the entry [j], at least three places
    before it; it differs from the entry before it and is not AS_TRANS. *)
Definition as_loop_at (path : list Z) (i j : Z) : Prop :=
  0 <= j /\ j + 2 < i
  /\ exists a p,
       path !! Z.to_nat j = Some a /\ path !! Z.to_nat i = Some a
       /\ path !! Z.to_nat (i - 1) = Some p /\ a <> p /\ a <> Bgp.AS_TRANS.

Lemma bind_inv {A B} (m : res A) (f : A -> res B) b :
  (m ≫= f) = Ok b -> exists a, m = Ok a /\ f a = Ok b.
Proof. destruct m as [a| | |]; try discriminate. intros H. exists a. auto. Qed.

Lemma path_at_inv path i a :
  path_at path i = Ok a -> 0 <= i /\ path !! Z.to_nat i = Some a.
Proof.
  unfold path_at. destruct (Z.ltb_spec i 0) as [Hi|Hi]; [discriminate|].
  destruct (path !! Z.to_nat i); cbn; [|discriminate].
  intros E. injection E as <-. split; [lia|reflexivity].
Qed.

Lemma uint32_id x : 0 <= x < 4294967296 -> uint32 x = x.
Proof. intros H. unfold uint32, wrap. apply Z.mod_small. exact H. Qed.

Lemma loop_scan_sound fuel : forall path i j,
  loop_scan fuel path i j = Ok true -> 0 <= j -> 2 <= i < 4294967296 ->
  exists j' a, j <= j' /\ j' + 2 < i
    /\ path !! Z.to_nat j' = Some a /\ path !! Z.to_nat i = Some a
    /\ a <> Bgp.AS_TRANS.
Proof.
  induction fuel as [|fuel IH]; intros path i j H Hj Hi; [discriminate|].
  cbn [loop_scan] in H. rewrite uint32_id in H by lia.
  destruct (Z.ltb_spec j (i - 2)) as [Hlt|]; [|discriminate].
  apply bind_inv in H as (pj & Hpj & H).
  apply bind_inv in H as (pi & Hpi & H).
  apply path_at_inv in Hpj as [_ Hpj]. apply path_at_inv in Hpi as [_ Hpi].
  destruct ((pj =? pi) && negb (pj =? Bgp.AS_TRANS)) eqn:E.
  - apply andb_true_iff in E as [E1 E2].
    apply Z.eqb_eq in E1. apply negb_true_iff, Z.eqb_neq in E2. subst pi.
    exists j, pj. repeat split; try assumption; lia.
  - rewrite uint32_id in H by lia.
    destruct (IH _ _ _ H ltac:(lia) Hi) as (j' & a & H1 & H2 & H3).
    exists j', a. split; [lia|]. split; [exact H2|exact H3].
Qed.

Lemma loop_search_sound fuel : forall path n i has,
  loop_search fuel path n i has = Ok true -> 2 <= i ->
  has = true \/ exists i' j, as_loop_at path i' j.
Proof.
  induction fuel as [|fuel IH]; intros path n i has H Hi; [discriminate|].
  cbn [loop_search] in H.
  assert (Hu : 0 <= uint32 (n - 1) < 4294967296)
    by (unfold uint32, wrap; apply Z.mod_pos_bound; reflexivity).
  destruct (Z.ltb_spec i (uint32 (n - 1))) as [Hlt|]; cbn [andb] in H;
    [|injection H as ->; left; reflexivity].
  destruct has; cbn [negb] in H; [left; reflexivity|].
  apply bind_inv in H as (pi & Hpi & H).
  apply bind_inv in H as (pp & Hpp & H).
  apply path_at_inv in Hpi as [_ Hpi]. apply path_at_inv in Hpp as [_ Hpp].
  rewrite uint32_id in H by lia.
  destruct (Z.eqb_spec pi pp) as [E1|E1].
  { destruct (IH _ _ _ _ H ltac:(lia)) as [Hf|Hf]; [discriminate|right; exact Hf]. }
  destruct (Z.eqb_spec pi Bgp.AS_TRANS) as [E2|E2].
  { destruct (IH _ _ _ _ H ltac:(lia)) as [Hf|Hf]; [discriminate|right; exact Hf]. }
  apply bind_inv in H as (found & Hscan & H).
  destruct found.
  - right. destruct (loop_scan_sound _ _ _ _ Hscan ltac:(lia) ltac:(lia))
      as (j & a & H1 & H2 & Hj & Hia & Ha).
    rewrite Hpi in Hia. injection Hia as <-.
    exists i, j. split; [lia|]. split; [exact H2|].
    exists pi, pp. repeat split; assumption.
  - destruct (IH _ _ _ _ H ltac:(lia)) as [Hf|Hf]; [discriminate|right; exact Hf].
Qed.

(** When the loop detection of [mrt_find_as_loops] reports a loop, the
    path does hold one: some AS that is not AS_TRANS occurs at two places
    at least three apart, the later one not being a repetition of the AS
    just before it. *)
Theorem loop_report_is_sound path :
  has_as_loop path = Ok true -> exists i j, as_loop_at path i j.
Proof.
  intros H. unfold has_as_loop in H.
  destruct (loop_search_sound _ _ _ _ _ H ltac:(lia)) as [Hf|Hf];
    [discriminate|exact Hf].
Qed.

Lemma loop_report_is_sound_witness :
  exists i j, as_loop_at [2; 1; 3; 2; 4] i j.
Proof. apply loop_report_is_sound. vm_compute. reflexivity. Defined.

End LoopFacts.
